(** * Tut object store: a shallow embedding of the storage core

    The development follows the Go sources of the repository:
    - [api/file.go]   : the native JSON handlers ([UploadFile], [ListFiles],
                        [GetFile], [DownloadFile], [DeleteFile]);
    - [api/s3.go]     : the S3-compatible handlers ([S3PutObject], ...);
    - [api/bucket.go] : [GetBucket], [DeleteBucket];
    - [db/file.go], [db/bucket.go] : the two repositories.

    Library calls the handlers rely on ([path/filepath], [crypto/md5],
    [fmt.Sprintf "%d"], SQL [LIKE]) are modelled as executable functions so
    that every scenario can be evaluated. *)

From Stdlib Require Import ZArith List Lia Bool Sorted Permutation.
From Stdlib.Strings Require Import String Ascii Byte.
From Stdlib Require Import DecimalString DecimalZ DecimalPos.
From stdpp Require Import base gmap strings list.

Local Open Scope string_scope.
Local Open Scope Z_scope.

(* ===================================================================== *)
(** ** path/filepath (Unix flavour) *)
(* ===================================================================== *)

Module filepath.

Definition Separator : ascii := "/"%char.

(** [strings.Split(path, "/")]: the elements between separators. *)
Fixpoint split (s : string) : list string :=
  match s with
  | EmptyString => [EmptyString]
  | String c rest =>
      if Ascii.eqb c Separator then EmptyString :: split rest
      else match split rest with
           | seg :: segs => String c seg :: segs
           | [] => [String c EmptyString]
           end
  end.

Definition rooted (path : string) : bool :=
  match path with
  | String c _ => Ascii.eqb c Separator
  | EmptyString => false
  end.

(** One iteration of the loop of [Clean] over a whole path element.  The
    output buffer is kept as a stack of elements, last element first.
    - an empty element or [.] is dropped;
    - [..] removes the last real element when there is one
      ([out.w > dotdot]); otherwise it is appended when the path is not
      rooted and dropped when it is;
    - any other element is appended. *)
Definition step (rt : bool) (out : list string) (elem : string) : list string :=
  if (elem =? "")%string then out
  else if (elem =? ".")%string then out
  else if (elem =? "..")%string then
    match out with
    | top :: below =>
        if (top =? "..")%string then (if rt then out else elem :: out)
        else below
    | [] => if rt then out else [elem]
    end
  else elem :: out.

Definition scan (rt : bool) (out : list string) (elems : list string) : list string :=
  fold_left (step rt) elems out.

(** The buffer turned into a string: a rooted path starts with the
    separator, and the empty relative path is [.]. *)
Definition render (rt : bool) (out : list string) : string :=
  if rt then String Separator (String.concat "/" (rev out))
  else match out with
       | [] => "."
       | _ => String.concat "/" (rev out)
       end.

Definition Clean (path : string) : string :=
  if (path =? "")%string then "."
  else render (rooted path) (scan (rooted path) [] (split path)).

(** [Join]: leading empty elements are ignored, the rest is joined with
    the separator and cleaned; all empty gives the empty string. *)
Fixpoint Join (elem : list string) : string :=
  match elem with
  | [] => ""
  | e :: rest =>
      if (e =? "")%string then Join rest
      else Clean (String.concat "/" elem)
  end.

(** [path[:i+1]] for the last separator at [i]: the path up to and
    including its last separator, empty when it has none. *)
Fixpoint upto_last_separator (path : string) : string :=
  match path with
  | EmptyString => EmptyString
  | String c rest =>
      let t := upto_last_separator rest in
      if Ascii.eqb c Separator then String c t
      else if (t =? "")%string then EmptyString
      else String c t
  end.

(** [Dir]: all but the last element of the path, cleaned. *)
Definition Dir (path : string) : string := Clean (upto_last_separator path).

End filepath.

(* ===================================================================== *)
(** ** crypto/md5 and the [%x] formatting of the digest *)
(* ===================================================================== *)

Module md5.

Definition wrap32 (x : Z) : Z := x mod 2 ^ 32.
Definition add32 (x y : Z) : Z := wrap32 (x + y).
Definition not32 (x : Z) : Z := Z.lxor x 0xffffffff.
Definition rotl32 (x : Z) (n : Z) : Z :=
  Z.lor (wrap32 (Z.shiftl x n)) (Z.shiftr x (32 - n)).

Definition K : list Z :=
  [ 0xd76aa478; 0xe8c7b756; 0x242070db; 0xc1bdceee;
    0xf57c0faf; 0x4787c62a; 0xa8304613; 0xfd469501;
    0x698098d8; 0x8b44f7af; 0xffff5bb1; 0x895cd7be;
    0x6b901122; 0xfd987193; 0xa679438e; 0x49b40821;
    0xf61e2562; 0xc040b340; 0x265e5a51; 0xe9b6c7aa;
    0xd62f105d; 0x02441453; 0xd8a1e681; 0xe7d3fbc8;
    0x21e1cde6; 0xc33707d6; 0xf4d50d87; 0x455a14ed;
    0xa9e3e905; 0xfcefa3f8; 0x676f02d9; 0x8d2a4c8a;
    0xfffa3942; 0x8771f681; 0x6d9d6122; 0xfde5380c;
    0xa4beea44; 0x4bdecfa9; 0xf6bb4b60; 0xbebfbc70;
    0x289b7ec6; 0xeaa127fa; 0xd4ef3085; 0x04881d05;
    0xd9d4d039; 0xe6db99e5; 0x1fa27cf8; 0xc4ac5665;
    0xf4292244; 0x432aff97; 0xab9423a7; 0xfc93a039;
    0x655b59c3; 0x8f0ccc92; 0xffeff47d; 0x85845dd1;
    0x6fa87e4f; 0xfe2ce6e0; 0xa3014314; 0x4e0811a1;
    0xf7537e82; 0xbd3af235; 0x2ad7d2bb; 0xeb86d391 ].

Definition shifts : list Z :=
  [ 7; 12; 17; 22; 7; 12; 17; 22; 7; 12; 17; 22; 7; 12; 17; 22;
    5; 9; 14; 20; 5; 9; 14; 20; 5; 9; 14; 20; 5; 9; 14; 20;
    4; 11; 16; 23; 4; 11; 16; 23; 4; 11; 16; 23; 4; 11; 16; 23;
    6; 10; 15; 21; 6; 10; 15; 21; 6; 10; 15; 21; 6; 10; 15; 21 ].

Definition le_bytes (n : nat) (x : Z) : list Z :=
  map (fun i => Z.land (Z.shiftr x (8 * Z.of_nat i)) 0xff) (seq 0 n).

Fixpoint le_word (bs : list Z) : Z :=
  match bs with
  | [] => 0
  | b :: rest => b + 256 * le_word rest
  end.

Fixpoint chunks {A} (fuel : nat) (size : nat) (l : list A) : list (list A) :=
  match fuel with
  | O => []
  | S fuel' =>
      match l with
      | [] => []
      | _ => firstn size l :: chunks fuel' size (skipn size l)
      end
  end.

(** Padding: one [0x80] byte, zeros up to 56 modulo 64, then the bit
    length as a little-endian 64-bit integer. *)
Definition pad (msg : list Z) : list Z :=
  let len := Z.of_nat (length msg) in
  msg ++ [0x80] ++ repeat 0 (Z.to_nat ((55 - len) mod 64))
      ++ le_bytes 8 ((8 * len) mod 2 ^ 64).

Record digest_state := { sa : Z; sb : Z; sc : Z; sd : Z }.

Definition init : digest_state :=
  {| sa := 0x67452301; sb := 0xefcdab89; sc := 0x98badcfe; sd := 0x10325476 |}.

Definition round (M : list Z) (st : digest_state) (i : nat) : digest_state :=
  let '(Build_digest_state a b c d) := st in
  let iz := Z.of_nat i in
  let '(f, g) :=
    if iz <? 16 then (Z.lor (Z.land b c) (Z.land (not32 b) d), iz)
    else if iz <? 32 then (Z.lor (Z.land d b) (Z.land (not32 d) c), (5 * iz + 1) mod 16)
    else if iz <? 48 then (Z.lxor (Z.lxor b c) d, (3 * iz + 5) mod 16)
    else (Z.lxor c (Z.lor b (not32 d)), (7 * iz) mod 16) in
  let f' := add32 (add32 (add32 f a) (nth i K 0)) (nth (Z.to_nat g) M 0) in
  {| sa := d; sb := add32 b (rotl32 f' (nth i shifts 0)); sc := b; sd := c |}.

Definition block (st : digest_state) (bytes : list Z) : digest_state :=
  let M := map le_word (chunks 16 4 bytes) in
  let st' := fold_left (round M) (seq 0 64) st in
  {| sa := add32 (sa st) (sa st'); sb := add32 (sb st) (sb st');
     sc := add32 (sc st) (sc st'); sd := add32 (sd st) (sd st') |}.

(** [hash.Sum(nil)] after the bytes were written: the 16 digest bytes. *)
Definition Sum (content : list byte) : list Z :=
  let msg := pad (map (fun b => Z.of_N (Byte.to_N b)) content) in
  let st := fold_left block (chunks (length msg) 64 msg) init in
  le_bytes 4 (sa st) ++ le_bytes 4 (sb st) ++ le_bytes 4 (sc st) ++ le_bytes 4 (sd st).

Definition hexdigit (n : Z) : ascii :=
  nth (Z.to_nat n)
    ["0";"1";"2";"3";"4";"5";"6";"7";"8";"9";"a";"b";"c";"d";"e";"f"]%char "0"%char.

(** [fmt.Sprintf("%x", bytes)]: two lower-case hex digits per byte. *)
Fixpoint hex (bytes : list Z) : string :=
  match bytes with
  | [] => ""
  | b :: rest => String (hexdigit (b / 16)) (String (hexdigit (b mod 16)) (hex rest))
  end.

Definition hexdigest (content : list byte) : string := hex (Sum content).

End md5.

(* ===================================================================== *)
(** ** Basic types shared by the packages *)
(* ===================================================================== *)

(** A Go [error] value; only its presence matters to the handlers. *)
Definition error := string.

(** A Go result pair [(value, error)]. *)
Inductive result (A : Type) : Type :=
| Ok (a : A)
| Err (e : error).
Arguments Ok {A} a.
Arguments Err {A} e.

(** [time.Time], kept as a number of seconds. *)
Definition Time := Z.

(** [fmt.Sprintf("%d", n)] and [strconv.FormatInt(n, 10)]. *)
Definition itoa (n : Z) : string := NilZero.string_of_int (Z.to_int n).

Definition dquote : ascii := "034"%char.

(** [fmt.Sprintf(`"%s"`, s)]: the string between double quotes. *)
Definition quoted (s : string) : string :=
  String dquote (s +:+ String dquote EmptyString).

(** The bytes of an ASCII string, used to write contents in examples. *)
Definition bytes_of (s : string) : list byte :=
  map byte_of_ascii (list_ascii_of_string s).

(* ===================================================================== *)
(** ** package db: rows *)
(* ===================================================================== *)

Module User.
Record t := { ID : Z; Email : string; Role : string }.
End User.

Module Bucket.
Record t := {
  ID : Z;
  Name : string;
  UserID : Z;
  Description : string;
  IsPublic : bool;
  CreatedAt : Time;
  UpdatedAt : Time }.
End Bucket.

Module File.
Record t := {
  ID : Z;
  BucketID : Z;
  Name : string;
  Path : string;
  ContentType : string;
  Size : Z;
  ETag : string;
  UserID : Z;
  CreatedAt : Time;
  UpdatedAt : Time }.

Definition with_ID (id : Z) (f : t) : t :=
  {| ID := id; BucketID := BucketID f; Name := Name f; Path := Path f;
     ContentType := ContentType f; Size := Size f; ETag := ETag f;
     UserID := UserID f; CreatedAt := CreatedAt f; UpdatedAt := UpdatedAt f |}.
End File.

(* ===================================================================== *)
(** ** The world a request runs in: database, disk and log *)
(* ===================================================================== *)

Inductive Level := DebugLevel | InfoLevel | ErrorLevel.

Record LogEntry := { level : Level; message : string }.

(** A node of the filesystem: a directory or a regular file. *)
Inductive Node :=
| Directory
| Regular (content : list byte).

Record World := {
  buckets : list Bucket.t;        (** table [buckets], in insertion order *)
  files : list File.t;            (** table [files], in insertion order *)
  lastBucketID : Z;               (** last id handed out for [buckets] *)
  lastFileID : Z;                 (** last id handed out for [files] *)
  disk : gmap string Node;        (** cleaned path to node *)
  logs : list LogEntry }.

Definition set_buckets (bs : list Bucket.t) (w : World) : World :=
  {| buckets := bs; files := files w; lastBucketID := lastBucketID w;
     lastFileID := lastFileID w; disk := disk w; logs := logs w |}.

Definition set_files (fs : list File.t) (last : Z) (w : World) : World :=
  {| buckets := buckets w; files := fs; lastBucketID := lastBucketID w;
     lastFileID := last; disk := disk w; logs := logs w |}.

Definition set_disk (d : gmap string Node) (w : World) : World :=
  {| buckets := buckets w; files := files w; lastBucketID := lastBucketID w;
     lastFileID := lastFileID w; disk := d; logs := logs w |}.

Definition log (l : Level) (m : string) (w : World) : World :=
  {| buckets := buckets w; files := files w; lastBucketID := lastBucketID w;
     lastFileID := lastFileID w; disk := disk w;
     logs := logs w ++ [ {| level := l; message := m |} ] |}.

(** The storage operations that can fail under a request. *)
Inductive Op :=
| BucketQuery | BucketDelete
| FileQuery | FileList | FileCount | FileInsert | FileUpdate | FileDelete
| OsMkdirAll | OsCreate | OsOpen | OsRemove.

(** What a request finds outside the world: the configuration, the clock
    and the storage faults that hit it. *)
Record Env := {
  storage_path : string;          (** viper key [app.storage.path] *)
  now : Time;                     (** [time.Now().UTC()], [CURRENT_TIMESTAMP] *)
  fails : Op -> bool;             (** the operation returns an error *)
  copy_fails_after : option nat   (** [io.Copy] stops with an error after
                                      that many bytes *) }.

(* ===================================================================== *)
(** ** SQL fragments used by the repositories *)
(* ===================================================================== *)

Module sql.

(** The lower-case form of an ASCII letter; any other character is left
    as it is. *)
Definition fold (c : ascii) : ascii :=
  let n := N_of_ascii c in
  if ((65 <=? n) && (n <=? 90))%N then ascii_of_N (n + 32) else c.

Fixpoint fold_case (s : string) : string :=
  match s with
  | EmptyString => EmptyString
  | String c s' => String (fold c) (fold_case s')
  end.

(** [s LIKE pat] as SQLite evaluates it, the engine the [?] placeholders
    and [LastInsertId] of the repositories are written for: [%] matches
    any run of characters, [_] any single character, and every other
    character matches itself, the case of ASCII letters not being told
    apart. *)
Fixpoint like (pat : string) : string -> bool :=
  match pat with
  | EmptyString => fun s => (s =? "")%string
  | String c pat' =>
      if Ascii.eqb c "%"%char then
        fix any (s : string) : bool :=
          like pat' s ||
          match s with
          | EmptyString => false
          | String _ s' => any s'
          end
      else if Ascii.eqb c "_"%char then
        fun s => match s with
                 | EmptyString => false
                 | String _ s' => like pat' s'
                 end
      else
        fun s => match s with
                 | EmptyString => false
                 | String d s' => Ascii.eqb (fold c) (fold d) && like pat' s'
                 end
  end.

Section OrderBy.
Context {A : Type} (key : A -> Z).

(** [ORDER BY key DESC]; rows with equal keys keep their table order. *)
Fixpoint insert_desc (x : A) (l : list A) : list A :=
  match l with
  | [] => [x]
  | y :: l' => if key x <? key y then y :: insert_desc x l' else x :: l
  end.

Definition order_by_desc (l : list A) : list A :=
  fold_right insert_desc [] l.
End OrderBy.

(** [LIMIT limit OFFSET offset]: a negative offset counts as none, a
    negative limit as no limit. *)
Definition limit_offset {A} (limit offset : Z) (l : list A) : list A :=
  let rest := skipn (Z.to_nat offset) l in
  if limit <? 0 then rest else firstn (Z.to_nat limit) rest.

End sql.

(* ===================================================================== *)
(** ** package db: the repositories *)
(* ===================================================================== *)

(** The writes and the count of [buckets] that can fail under a request. *)
Inductive BucketFault := BucketInsert | BucketUpdate | BucketCount.

Module BucketRepository.

(** [SELECT ... FROM buckets WHERE id = ?]; no row is [nil, nil]. *)
Definition GetByID (e : Env) (w : World) (id : Z) : result (option Bucket.t) :=
  if fails e BucketQuery then Err "sql: query failed"
  else Ok (find (fun b => Bucket.ID b =? id) (buckets w)).

(** [SELECT ... FROM buckets WHERE name = ? AND user_id = ?]. *)
Definition GetByName (e : Env) (w : World) (name : string) (userID : Z)
  : result (option Bucket.t) :=
  if fails e BucketQuery then Err "sql: query failed"
  else Ok (find (fun b => (Bucket.Name b =? name)%string && (Bucket.UserID b =? userID))
                (buckets w)).

(** [DELETE FROM buckets WHERE id = ?]. *)
Definition Delete (e : Env) (id : Z) (w : World) : option error * World :=
  if fails e BucketDelete then (Some "sql: exec failed", w)
  else (None, set_buckets (List.filter (fun b => negb (Bucket.ID b =? id)) (buckets w)) w).

(** [SELECT ... WHERE user_id = ? ORDER BY created_at DESC LIMIT ? OFFSET ?]. *)
Definition List (e : Env) (w : World) (userID : Z) (limit offset : Z)
  : result (list Bucket.t) :=
  if fails e BucketQuery then Err "sql: query failed"
  else Ok (sql.limit_offset limit offset
             (sql.order_by_desc Bucket.CreatedAt
                (List.filter (fun b => Bucket.UserID b =? userID) (buckets w)))).

(** [INSERT INTO buckets (name, user_id, description, is_public)]: the row
    gets the next id and the current time; the caller's struct only gets
    its [ID] set.  The schema of [buckets] is not part of the sources: the
    insert is modelled without a uniqueness check, the handler calling it
    after a lookup that found no row. *)
Definition Create (bf : BucketFault -> bool) (e : Env) (bucket : Bucket.t) (w : World)
  : result Bucket.t * World :=
  if bf BucketInsert then (Err "sql: exec failed", w)
  else
    let id := lastBucketID w + 1 in
    let row := {| Bucket.ID := id; Bucket.Name := Bucket.Name bucket;
                  Bucket.UserID := Bucket.UserID bucket;
                  Bucket.Description := Bucket.Description bucket;
                  Bucket.IsPublic := Bucket.IsPublic bucket;
                  Bucket.CreatedAt := now e; Bucket.UpdatedAt := now e |} in
    (Ok {| Bucket.ID := id; Bucket.Name := Bucket.Name bucket;
           Bucket.UserID := Bucket.UserID bucket;
           Bucket.Description := Bucket.Description bucket;
           Bucket.IsPublic := Bucket.IsPublic bucket;
           Bucket.CreatedAt := Bucket.CreatedAt bucket;
           Bucket.UpdatedAt := Bucket.UpdatedAt bucket |},
     {| buckets := buckets w ++ [row]; files := files w; lastBucketID := id;
        lastFileID := lastFileID w; disk := disk w; logs := logs w |}).

(** [UPDATE buckets SET name, description, is_public, updated_at WHERE
    id = ?]: [user_id] and [created_at] keep their values. *)
Definition Update (bf : BucketFault -> bool) (e : Env) (bucket : Bucket.t) (w : World)
  : option error * World :=
  if bf BucketUpdate then (Some "sql: exec failed", w)
  else (None,
        set_buckets
          (map (fun row =>
                  if Bucket.ID row =? Bucket.ID bucket
                  then {| Bucket.ID := Bucket.ID row; Bucket.Name := Bucket.Name bucket;
                          Bucket.UserID := Bucket.UserID row;
                          Bucket.Description := Bucket.Description bucket;
                          Bucket.IsPublic := Bucket.IsPublic bucket;
                          Bucket.CreatedAt := Bucket.CreatedAt row;
                          Bucket.UpdatedAt := now e |}
                  else row) (buckets w)) w).

(** [SELECT COUNT( * ) FROM buckets WHERE user_id = ?]. *)
Definition Count (bf : BucketFault -> bool) (e : Env) (w : World) (userID : Z) : result Z :=
  if bf BucketCount then Err "sql: query failed"
  else Ok (Z.of_nat (length (List.filter (fun b => Bucket.UserID b =? userID) (buckets w)))).

End BucketRepository.

Module FileRepository.

(** [INSERT INTO files (bucket_id, name, path, content_type, size, etag,
    user_id)]: the row gets the next id and the current time; the caller's
    struct only gets its [ID] set.  The schema of [files] is not part of
    the sources: the insert is modelled without a uniqueness check, the
    handlers calling it after a lookup that found no row. *)
Definition inserted (e : Env) (id : Z) (file : File.t) : File.t :=
  {| File.ID := id; File.BucketID := File.BucketID file;
     File.Name := File.Name file; File.Path := File.Path file;
     File.ContentType := File.ContentType file;
     File.Size := File.Size file; File.ETag := File.ETag file;
     File.UserID := File.UserID file;
     File.CreatedAt := now e; File.UpdatedAt := now e |}.

Definition Create (e : Env) (file : File.t) (w : World) : result File.t * World :=
  if fails e FileInsert then (Err "sql: exec failed", w)
  else
    let id := lastFileID w + 1 in
    (Ok (File.with_ID id file), set_files (files w ++ [inserted e id file]) id w).

(** [SELECT ... FROM files WHERE id = ?]. *)
Definition GetByID (e : Env) (w : World) (id : Z) : result (option File.t) :=
  if fails e FileQuery then Err "sql: query failed"
  else Ok (find (fun f => File.ID f =? id) (files w)).

Definition named (bucketID : Z) (name : string) (f : File.t) : bool :=
  (File.BucketID f =? bucketID) && (File.Name f =? name)%string.

(** [SELECT ... FROM files WHERE bucket_id = ? AND name = ?]. *)
Definition GetByName (e : Env) (w : World) (bucketID : Z) (name : string)
  : result (option File.t) :=
  if fails e FileQuery then Err "sql: query failed"
  else Ok (find (named bucketID name) (files w)).

(** The assignment list of [UPDATE files SET name, path, content_type,
    size, etag, updated_at]: [bucket_id], [user_id] and [created_at] keep
    their values. *)
Definition assign (e : Env) (file : File.t) (row : File.t) : File.t :=
  {| File.ID := File.ID row; File.BucketID := File.BucketID row;
     File.Name := File.Name file; File.Path := File.Path file;
     File.ContentType := File.ContentType file;
     File.Size := File.Size file; File.ETag := File.ETag file;
     File.UserID := File.UserID row;
     File.CreatedAt := File.CreatedAt row; File.UpdatedAt := now e |}.

Definition updated (e : Env) (file : File.t) (rows : list File.t) : list File.t :=
  map (fun row => if File.ID row =? File.ID file then assign e file row else row) rows.

(** [UPDATE files SET ... WHERE id = ?]. *)
Definition Update (e : Env) (file : File.t) (w : World) : option error * World :=
  if fails e FileUpdate then (Some "sql: exec failed", w)
  else (None, set_files (updated e file (files w)) (lastFileID w) w).

(** [DELETE FROM files WHERE id = ?]. *)
Definition Delete (e : Env) (id : Z) (w : World) : option error * World :=
  if fails e FileDelete then (Some "sql: exec failed", w)
  else (None, set_files (List.filter (fun f => negb (File.ID f =? id)) (files w))
                        (lastFileID w) w).

Definition in_bucket (bucketID : Z) (f : File.t) : bool := File.BucketID f =? bucketID.

(** [SELECT ... WHERE bucket_id = ? ORDER BY created_at DESC LIMIT ? OFFSET ?]. *)
Definition List (e : Env) (w : World) (bucketID : Z) (limit offset : Z)
  : result (list File.t) :=
  if fails e FileList then Err "sql: query failed"
  else Ok (sql.limit_offset limit offset
             (sql.order_by_desc File.CreatedAt
                (List.filter (in_bucket bucketID) (files w)))).

(** [SELECT COUNT( * ) FROM files WHERE bucket_id = ?]. *)
Definition Count (e : Env) (w : World) (bucketID : Z) : result Z :=
  if fails e FileCount then Err "sql: query failed"
  else Ok (Z.of_nat (length (List.filter (in_bucket bucketID) (files w)))).

(** [SELECT ... WHERE bucket_id = ? AND name LIKE ? ORDER BY created_at
    DESC LIMIT ? OFFSET ?], the pattern being [prefix + "%"]. *)
Definition ListByPrefix (e : Env) (w : World) (bucketID : Z) (prefix : string)
    (limit offset : Z) : result (list File.t) :=
  if fails e FileList then Err "sql: query failed"
  else Ok (sql.limit_offset limit offset
             (sql.order_by_desc File.CreatedAt
                (List.filter (fun f => in_bucket bucketID f
                                  && sql.like (prefix +:+ "%") (File.Name f))
                        (files w)))).

End FileRepository.

(* ===================================================================== *)
(** ** The filesystem: packages os and io, and the helpers of service *)
(* ===================================================================== *)

Module os.

(** The directories that are there without having been made: the
    working directory, the root, and the parents of the working
    directory. *)
Definition builtin_dir (path : string) : bool :=
  (path =? ".")%string || (path =? "/")%string
  || forallb (String.eqb "..") (filepath.split path).

Definition is_dir (d : gmap string Node) (path : string) : bool :=
  builtin_dir path ||
  match d !! path with
  | Some Directory => true
  | _ => false
  end.

(** The paths the system calls take (Linux): no NUL byte, no element
    longer than 255 bytes, fewer than 4096 bytes in all. *)
Definition valid_path (path : string) : bool :=
  forallb (fun c => negb (Ascii.eqb c "000"%char)) (list_ascii_of_string path)
  && forallb (fun elem => Nat.leb (String.length elem) 255) (filepath.split path)
  && Nat.ltb (String.length path) 4096.

(** [os.Create(name)]: create or truncate the regular file [name]; its
    directory must exist and [name] must not be a directory. *)
Definition Create (e : Env) (name : string) (w : World) : option error * World :=
  if fails e OsCreate then (Some "open: input/output error", w)
  else if negb (valid_path name) then (Some "open: invalid argument", w)
  else if negb (is_dir (disk w) (filepath.Dir name)) then
    (Some "open: no such file or directory", w)
  else if is_dir (disk w) name then (Some "open: is a directory", w)
  else (None, set_disk (<[name := Regular []]> (disk w)) w).

Definition has_entries (d : gmap string Node) (dir : string) : bool :=
  existsb (fun kv => (filepath.Dir (fst kv) =? dir)%string) (map_to_list d).

(** [os.Remove(name)]: removes a regular file or an empty directory. *)
Definition Remove (e : Env) (name : string) (w : World) : option error * World :=
  if fails e OsRemove then (Some "remove: input/output error", w)
  else
  match disk w !! name with
  | Some (Regular _) => (None, set_disk (delete name (disk w)) w)
  | Some Directory =>
      if has_entries (disk w) name then (Some "remove: directory not empty", w)
      else (None, set_disk (delete name (disk w)) w)
  | None => (Some "remove: no such file or directory", w)
  end.

(** [os.Open(name)] followed by reading the file to its end. *)
Definition Open (e : Env) (name : string) (w : World) : result Node :=
  if fails e OsOpen then Err "open: input/output error"
  else match disk w !! name with
       | Some n => Ok n
       | None => if builtin_dir name then Ok Directory
                 else Err "open: no such file or directory"
       end.

End os.

Module io.

(** [io.Copy(io.MultiWriter(dst, hash), src)] where [dst] is the file
    opened at [name]: the bytes go to the file and to the hash in one
    pass.  On success the file holds [src] and the number of bytes is
    returned; on an error after [n] bytes the file holds the first [n]. *)
Definition Copy (e : Env) (name : string) (src : list byte) (w : World)
  : result Z * World :=
  match copy_fails_after e with
  | Some n => (Err "copy: input/output error",
               set_disk (<[name := Regular (firstn n src)]> (disk w)) w)
  | None => (Ok (Z.of_nat (length src)),
             set_disk (<[name := Regular src]> (disk w)) w)
  end.

End io.

Module service.

(** The path itself and the directories above it, nearest first. *)
Fixpoint chain (fuel : nat) (path : string) : list string :=
  match fuel with
  | O => []
  | S fuel' =>
      if os.builtin_dir path then []
      else path :: chain fuel' (filepath.Dir path)
  end.

Definition is_regular (d : gmap string Node) (path : string) : bool :=
  match d !! path with
  | Some (Regular _) => true
  | _ => false
  end.

(** Modelled from the spec: [service.EnsureDir] is not among the source
    files.  Section 4.2 has the store "create any missing parent
    directories" before the destination is opened, which is
    [os.MkdirAll]: every directory of the chain is made, and the call
    fails when a regular file is in the way. *)
Definition EnsureDir (e : Env) (dir : string) (w : World) : option error * World :=
  let ds := chain (String.length dir) dir in
  if fails e OsMkdirAll then (Some "mkdir: input/output error", w)
  else if negb (os.valid_path dir) then (Some "mkdir: invalid argument", w)
  else if existsb (is_regular (disk w)) ds then (Some "mkdir: not a directory", w)
  else (None, set_disk (fold_right (fun p d => <[p := Directory]> d) (disk w) ds) w).

(** Modelled from the spec: [service.FileExists] is not among the source
    files.  Section 4.2 describes [exists(path) -> bool]: the path names
    something on disk. *)
Definition FileExists (path : string) (w : World) : bool :=
  match disk w !! path with
  | Some _ => true
  | None => os.builtin_dir path
  end.

End service.

(* ===================================================================== *)
(** ** package api: requests and responses *)
(* ===================================================================== *)

(** The fields of a file the native adapter puts in its JSON answers. *)
Record FileJSON := {
  json_id : Z;
  json_name : string;
  json_bucket_id : Z;
  json_content_type : string;
  json_size : Z;
  json_etag : string;
  json_created_at : Time;
  json_updated_at : Time }.

Definition fileJSON (f : File.t) : FileJSON :=
  {| json_id := File.ID f; json_name := File.Name f;
     json_bucket_id := File.BucketID f; json_content_type := File.ContentType f;
     json_size := File.Size f; json_etag := File.ETag f;
     json_created_at := File.CreatedAt f; json_updated_at := File.UpdatedAt f |}.

(** One [Contents] element of [ListBucketResult]. *)
Record Content := {
  Key : string;
  LastModified : Time;
  ETag : string;
  Size : Z;
  StorageClass : string;
  OwnerID : string }.

Record ListBucketResult := {
  Name : string;
  Prefix : string;
  MaxKeys : Z;
  IsTruncated : bool;
  Contents : list Content }.

Inductive Body :=
| NoBody
| ErrorMessage (m : string)          (** [{"errorMessage": m}] *)
| Message (m : string)               (** [{"message": m}] *)
| FileObject (f : FileJSON)
| BucketObject (b : Bucket.t)        (** id, name, description, is_public, times *)
| FilePage (page : list FileJSON) (total limit offset : Z)
| ListBucketXML (r : ListBucketResult)
| Bytes (content : list byte).

Record Response := {
  status : Z;
  headers : list (string * string);
  body : Body }.

(** [service.WriteJSON(w, status, payload)]. *)
Definition WriteJSON (code : Z) (payload : Body) : Response :=
  {| status := code; headers := [("Content-Type", "application/json")]; body := payload |}.

(** [w.WriteHeader(status)] after the given headers were set. *)
Definition WriteHeader (hs : list (string * string)) (code : Z) : Response :=
  {| status := code; headers := hs; body := NoBody |}.

Definition StatusOK := 200.
Definition StatusNoContent := 204.
Definition StatusBadRequest := 400.
Definition StatusUnauthorized := 401.
Definition StatusForbidden := 403.
Definition StatusNotFound := 404.
Definition StatusInternalServerError := 500.

(** The uploaded part of a multipart form: [multipart.FileHeader] and the
    bytes behind it.  [Filename] is the name as [mime/multipart] hands it
    over, which is the last element of the name the client sent. *)
Record FileHeader := {
  Filename : string;
  PartContentType : string;       (** [header.Header.Get("Content-Type")] *)
  part : list byte }.

(** A request to the native adapter, after routing and authentication:
    [user] is what [middleware.GetUserFromContext] finds, [bucketId] and
    [fileId] are the results of [strconv.ParseInt] on the URL parameters
    ([None] on a parse error), [form] is the parsed multipart form
    ([None] when [ParseMultipartForm] fails) and the file under the key
    [file] in it, [limit] and [offset] are the results of [strconv.Atoi]
    on the query parameters ([None] when absent or malformed). *)
Record Request := {
  user : option User.t;
  bucketId : option Z;
  fileId : option Z;
  form : option (option FileHeader);
  limit : option Z;
  offset : option Z;
  prefix : string }.

(** A request to the S3 adapter: [objectKey] is the key after
    [url.QueryUnescape]; [maxKeys] is the result of [strconv.Atoi]. *)
Record S3Request := {
  s3user : option User.t;
  bucketName : string;
  objectKey : string;
  contentType : string;           (** [r.Header.Get("Content-Type")] *)
  payload : list byte;            (** [r.Body] *)
  s3prefix : string;
  maxKeys : option Z }.

(** [getStoragePath]: the configured base path, [./storage] by default. *)
Definition getStoragePath (e : Env) : string :=
  if (storage_path e =? "")%string then "./storage" else storage_path e.

(** The [db.File] value the put handlers build before the metadata write. *)
Definition newFile (bucketID : Z) (name path ctype : string) (size : Z)
    (etag : string) (userID : Z) : File.t :=
  {| File.ID := 0; File.BucketID := bucketID; File.Name := name; File.Path := path;
     File.ContentType := ctype; File.Size := size; File.ETag := etag;
     File.UserID := userID; File.CreatedAt := 0; File.UpdatedAt := 0 |}.

Definition defaultContentType (ctype : string) : string :=
  if (ctype =? "")%string then "application/octet-stream" else ctype.

(* ===================================================================== *)
(** ** api/file.go: the native adapter *)
(* ===================================================================== *)

Definition denied (bucket : Bucket.t) (u : User.t) : bool :=
  negb (Bucket.UserID bucket =? User.ID u) && negb (Bucket.IsPublic bucket).

(** [UploadFile] (api/file.go, line 35): handles file upload to a bucket. *)
Definition UploadFile (e : Env) (r : Request) (w : World) : Response * World :=
  let w := log DebugLevel "Upload file endpoint called" w in
  match user r with
  | None => (WriteJSON StatusUnauthorized (ErrorMessage "Unauthorized"), w)
  | Some u =>
  match bucketId r with
  | None => (WriteJSON StatusBadRequest (ErrorMessage "Invalid bucket ID"), w)
  | Some bucketID =>
  (* Verify bucket exists and user has access *)
  match BucketRepository.GetByID e w bucketID with
  | Err _ =>
      (WriteJSON StatusInternalServerError (ErrorMessage "Failed to retrieve bucket"),
       log ErrorLevel "Failed to get bucket" w)
  | Ok None => (WriteJSON StatusNotFound (ErrorMessage "Bucket not found"), w)
  | Ok (Some bucket) =>
  if denied bucket u then
    (WriteJSON StatusForbidden (ErrorMessage "Access denied"), w)
  else
  (* Parse multipart form *)
  match form r with
  | None => (WriteJSON StatusBadRequest (ErrorMessage "Failed to parse form"), w)
  | Some None => (WriteJSON StatusBadRequest (ErrorMessage "No file provided"), w)
  | Some (Some header) =>
  let fileName := Filename header in
  if (fileName =? "")%string then
    (WriteJSON StatusBadRequest (ErrorMessage "Invalid file name"), w)
  else
  (* Check if file already exists *)
  match FileRepository.GetByName e w bucketID fileName with
  | Err _ =>
      (WriteJSON StatusInternalServerError (ErrorMessage "Failed to upload file"),
       log ErrorLevel "Failed to check existing file" w)
  | Ok existingFile =>
  (* Create storage directory structure: storage/user_id/bucket_id/ *)
  let storageBase := getStoragePath e in
  let storageDir := filepath.Join [storageBase; itoa (User.ID u); itoa bucketID] in
  match service.EnsureDir e storageDir w with
  | (Some _, w) =>
      (WriteJSON StatusInternalServerError (ErrorMessage "Failed to create storage directory"),
       log ErrorLevel "Failed to create storage directory" w)
  | (None, w) =>
  (* Create file path *)
  let filePath := filepath.Join [storageDir; fileName] in
  (* Create file on disk *)
  match os.Create e filePath w with
  | (Some _, w) =>
      (WriteJSON StatusInternalServerError (ErrorMessage "Failed to save file"),
       log ErrorLevel "Failed to create file" w)
  | (None, w) =>
  (* Copy file content and calculate hash *)
  match io.Copy e filePath (part header) w with
  | (Err _, w) =>
      let w := log ErrorLevel "Failed to save file" w in
      let w := snd (os.Remove e filePath w) in
      (WriteJSON StatusInternalServerError (ErrorMessage "Failed to save file"), w)
  | (Ok size, w) =>
  let etag := md5.hexdigest (part header) in
  let contentType := defaultContentType (PartContentType header) in
  (* Save file metadata to database *)
  let dbFile := newFile bucketID fileName filePath contentType size etag (User.ID u) in
  match existingFile with
  | Some existing =>
      (* Update existing file *)
      let dbFile := File.with_ID (File.ID existing) dbFile in
      match FileRepository.Update e dbFile w with
      | (Some _, w) =>
          let w := log ErrorLevel "Failed to update file" w in
          let w := snd (os.Remove e filePath w) in
          (WriteJSON StatusInternalServerError (ErrorMessage "Failed to save file metadata"), w)
      | (None, w) =>
          let w := log InfoLevel "File updated successfully" w in
          (WriteJSON StatusOK (FileObject (fileJSON dbFile)), w)
      end
  | None =>
      (* Create new file *)
      match FileRepository.Create e dbFile w with
      | (Err _, w) =>
          let w := log ErrorLevel "Failed to create file" w in
          let w := snd (os.Remove e filePath w) in
          (WriteJSON StatusInternalServerError (ErrorMessage "Failed to save file metadata"), w)
      | (Ok dbFile, w) =>
          let w := log InfoLevel "File uploaded successfully" w in
          (WriteJSON StatusOK (FileObject (fileJSON dbFile)), w)
      end
  end
  end end end end end end end end.

(** The pagination parameters of the native listings: [limit] in (0, 100],
    50 otherwise; [offset] non-negative, 0 otherwise. *)
Definition pageLimit (r : Request) : Z :=
  match limit r with
  | Some l => if (0 <? l) && (l <=? 100) then l else 50
  | None => 50
  end.

Definition pageOffset (r : Request) : Z :=
  match offset r with
  | Some o => if 0 <=? o then o else 0
  | None => 0
  end.

(** [ListFiles] (api/file.go, line 218): lists all files in a bucket. *)
Definition ListFiles (e : Env) (r : Request) (w : World) : Response * World :=
  let w := log DebugLevel "List files endpoint called" w in
  match user r with
  | None => (WriteJSON StatusUnauthorized (ErrorMessage "Unauthorized"), w)
  | Some u =>
  match bucketId r with
  | None => (WriteJSON StatusBadRequest (ErrorMessage "Invalid bucket ID"), w)
  | Some bucketID =>
  match BucketRepository.GetByID e w bucketID with
  | Err _ =>
      (WriteJSON StatusInternalServerError (ErrorMessage "Failed to retrieve bucket"),
       log ErrorLevel "Failed to get bucket" w)
  | Ok None => (WriteJSON StatusNotFound (ErrorMessage "Bucket not found"), w)
  | Ok (Some bucket) =>
  if denied bucket u then
    (WriteJSON StatusForbidden (ErrorMessage "Access denied"), w)
  else
  let lim := pageLimit r in
  let off := pageOffset r in
  let listed :=
    if negb (prefix r =? "")%string
    then FileRepository.ListByPrefix e w bucketID (prefix r) lim off
    else FileRepository.List e w bucketID lim off in
  match listed with
  | Err _ =>
      (WriteJSON StatusInternalServerError (ErrorMessage "Failed to list files"),
       log ErrorLevel "Failed to list files" w)
  | Ok fs =>
      let '(total, w) :=
        match FileRepository.Count e w bucketID with
        | Err _ => (0, log ErrorLevel "Failed to count files" w)
        | Ok n => (n, w)
        end in
      (WriteJSON StatusOK (FilePage (map fileJSON fs) total lim off), w)
  end
  end end end.

(** [GetFile] (api/file.go, line 328): retrieves a file by ID. *)
Definition GetFile (e : Env) (r : Request) (w : World) : Response * World :=
  let w := log DebugLevel "Get file endpoint called" w in
  match user r with
  | None => (WriteJSON StatusUnauthorized (ErrorMessage "Unauthorized"), w)
  | Some u =>
  match bucketId r with
  | None => (WriteJSON StatusBadRequest (ErrorMessage "Invalid bucket ID"), w)
  | Some bucketID =>
  match fileId r with
  | None => (WriteJSON StatusBadRequest (ErrorMessage "Invalid file ID"), w)
  | Some fileID =>
  match BucketRepository.GetByID e w bucketID with
  | Err _ =>
      (WriteJSON StatusInternalServerError (ErrorMessage "Failed to retrieve bucket"),
       log ErrorLevel "Failed to get bucket" w)
  | Ok None => (WriteJSON StatusNotFound (ErrorMessage "Bucket not found"), w)
  | Ok (Some bucket) =>
  if denied bucket u then
    (WriteJSON StatusForbidden (ErrorMessage "Access denied"), w)
  else
  match FileRepository.GetByID e w fileID with
  | Err _ =>
      (WriteJSON StatusInternalServerError (ErrorMessage "Failed to retrieve file"),
       log ErrorLevel "Failed to get file" w)
  | Ok None => (WriteJSON StatusNotFound (ErrorMessage "File not found"), w)
  | Ok (Some file) =>
      if negb (File.BucketID file =? bucketID) then
        (WriteJSON StatusNotFound (ErrorMessage "File not found"), w)
      else (WriteJSON StatusOK (FileObject (fileJSON file)), w)
  end
  end end end end.

(** [DownloadFile] (api/file.go, line 412): downloads a file. *)
Definition DownloadFile (e : Env) (r : Request) (w : World) : Response * World :=
  let w := log DebugLevel "Download file endpoint called" w in
  match user r with
  | None => (WriteJSON StatusUnauthorized (ErrorMessage "Unauthorized"), w)
  | Some u =>
  match bucketId r with
  | None => (WriteJSON StatusBadRequest (ErrorMessage "Invalid bucket ID"), w)
  | Some bucketID =>
  match fileId r with
  | None => (WriteJSON StatusBadRequest (ErrorMessage "Invalid file ID"), w)
  | Some fileID =>
  match BucketRepository.GetByID e w bucketID with
  | Err _ =>
      (WriteJSON StatusInternalServerError (ErrorMessage "Failed to retrieve bucket"),
       log ErrorLevel "Failed to get bucket" w)
  | Ok None => (WriteJSON StatusNotFound (ErrorMessage "Bucket not found"), w)
  | Ok (Some bucket) =>
  if denied bucket u then
    (WriteJSON StatusForbidden (ErrorMessage "Access denied"), w)
  else
  match FileRepository.GetByID e w fileID with
  | Err _ =>
      (WriteJSON StatusInternalServerError (ErrorMessage "Failed to retrieve file"),
       log ErrorLevel "Failed to get file" w)
  | Ok None => (WriteJSON StatusNotFound (ErrorMessage "File not found"), w)
  | Ok (Some file) =>
  if negb (File.BucketID file =? bucketID) then
    (WriteJSON StatusNotFound (ErrorMessage "File not found"), w)
  (* Check if file exists on disk *)
  else if negb (service.FileExists (File.Path file) w) then
    (WriteJSON StatusNotFound (ErrorMessage "File not found on disk"), w)
  else
  (* Open file *)
  match os.Open e (File.Path file) w with
  | Err _ =>
      (WriteJSON StatusInternalServerError (ErrorMessage "Failed to read file"),
       log ErrorLevel "Failed to open file" w)
  | Ok node =>
      (* Set headers *)
      let hs := [ ("Content-Type", File.ContentType file);
                  ("Content-Disposition",
                   "attachment; filename=" +:+ quoted (File.Name file));
                  ("Content-Length", itoa (File.Size file));
                  ("ETag", File.ETag file) ] in
      (* Copy file to response *)
      match node with
      | Directory =>
          ({| status := StatusOK; headers := hs; body := NoBody |},
           log ErrorLevel "Failed to send file" w)
      | Regular content =>
          ({| status := StatusOK; headers := hs; body := Bytes content |},
           log InfoLevel "File downloaded successfully" w)
      end
  end
  end end end end end.

(** [DeleteFile] (api/file.go, line 522): deletes a file. *)
Definition DeleteFile (e : Env) (r : Request) (w : World) : Response * World :=
  let w := log DebugLevel "Delete file endpoint called" w in
  match user r with
  | None => (WriteJSON StatusUnauthorized (ErrorMessage "Unauthorized"), w)
  | Some u =>
  match bucketId r with
  | None => (WriteJSON StatusBadRequest (ErrorMessage "Invalid bucket ID"), w)
  | Some bucketID =>
  match fileId r with
  | None => (WriteJSON StatusBadRequest (ErrorMessage "Invalid file ID"), w)
  | Some fileID =>
  match BucketRepository.GetByID e w bucketID with
  | Err _ =>
      (WriteJSON StatusInternalServerError (ErrorMessage "Failed to retrieve bucket"),
       log ErrorLevel "Failed to get bucket" w)
  | Ok None => (WriteJSON StatusNotFound (ErrorMessage "Bucket not found"), w)
  | Ok (Some bucket) =>
  if negb (Bucket.UserID bucket =? User.ID u) then
    (WriteJSON StatusForbidden (ErrorMessage "Access denied"), w)
  else
  match FileRepository.GetByID e w fileID with
  | Err _ =>
      (WriteJSON StatusInternalServerError (ErrorMessage "Failed to retrieve file"),
       log ErrorLevel "Failed to get file" w)
  | Ok None => (WriteJSON StatusNotFound (ErrorMessage "File not found"), w)
  | Ok (Some file) =>
  if negb (File.BucketID file =? bucketID) then
    (WriteJSON StatusNotFound (ErrorMessage "File not found"), w)
  else
  (* Delete file from disk *)
  let w :=
    if service.FileExists (File.Path file) w then
      match os.Remove e (File.Path file) w with
      | (Some _, w) => log ErrorLevel "Failed to delete file from disk" w
      | (None, w) => w
      end
    else w in
  (* Delete file from database *)
  match FileRepository.Delete e fileID w with
  | (Some _, w) =>
      (WriteJSON StatusInternalServerError (ErrorMessage "Failed to delete file"),
       log ErrorLevel "Failed to delete file" w)
  | (None, w) =>
      let w := log InfoLevel "File deleted successfully" w in
      (WriteJSON StatusOK (Message "File deleted successfully"), w)
  end
  end end end end end.

(* ===================================================================== *)
(** ** api/bucket.go *)
(* ===================================================================== *)

(** [GetBucket] (api/bucket.go, line 163): retrieves a bucket by ID; the
    URL parameter is [id]. *)
Definition GetBucket (e : Env) (r : Request) (w : World) : Response * World :=
  let w := log DebugLevel "Get bucket endpoint called" w in
  match user r with
  | None => (WriteJSON StatusUnauthorized (ErrorMessage "Unauthorized"), w)
  | Some u =>
  match bucketId r with
  | None => (WriteJSON StatusBadRequest (ErrorMessage "Invalid bucket ID"), w)
  | Some bucketID =>
  match BucketRepository.GetByID e w bucketID with
  | Err _ =>
      (WriteJSON StatusInternalServerError (ErrorMessage "Failed to retrieve bucket"),
       log ErrorLevel "Failed to get bucket" w)
  | Ok None => (WriteJSON StatusNotFound (ErrorMessage "Bucket not found"), w)
  | Ok (Some bucket) =>
  (* Check if user owns the bucket or bucket is public *)
  if denied bucket u then
    (WriteJSON StatusForbidden (ErrorMessage "Access denied"), w)
  else (WriteJSON StatusOK (BucketObject bucket), w)
  end end end.

(** [DeleteBucket] (api/bucket.go, line 219): deletes a bucket. *)
Definition DeleteBucket (e : Env) (r : Request) (w : World) : Response * World :=
  let w := log DebugLevel "Delete bucket endpoint called" w in
  match user r with
  | None => (WriteJSON StatusUnauthorized (ErrorMessage "Unauthorized"), w)
  | Some u =>
  match bucketId r with
  | None => (WriteJSON StatusBadRequest (ErrorMessage "Invalid bucket ID"), w)
  | Some bucketID =>
  match BucketRepository.GetByID e w bucketID with
  | Err _ =>
      (WriteJSON StatusInternalServerError (ErrorMessage "Failed to retrieve bucket"),
       log ErrorLevel "Failed to get bucket" w)
  | Ok None => (WriteJSON StatusNotFound (ErrorMessage "Bucket not found"), w)
  | Ok (Some bucket) =>
  (* Only bucket owner can delete *)
  if negb (Bucket.UserID bucket =? User.ID u) then
    (WriteJSON StatusForbidden (ErrorMessage "Access denied"), w)
  else
  (* Check if bucket has files *)
  match FileRepository.Count e w bucketID with
  | Err _ =>
      (WriteJSON StatusInternalServerError (ErrorMessage "Failed to delete bucket"),
       log ErrorLevel "Failed to count files" w)
  | Ok fileCount =>
  if 0 <? fileCount then
    (WriteJSON StatusBadRequest (ErrorMessage "Cannot delete bucket with existing files"), w)
  else
  match BucketRepository.Delete e bucketID w with
  | (Some _, w) =>
      (WriteJSON StatusInternalServerError (ErrorMessage "Failed to delete bucket"),
       log ErrorLevel "Failed to delete bucket" w)
  | (None, w) =>
      let w := log InfoLevel "Bucket deleted successfully" w in
      (WriteJSON StatusOK (Message "Bucket deleted successfully"), w)
  end
  end end end end.

(* ===================================================================== *)
(** ** api/s3.go: the S3-compatible adapter *)
(* ===================================================================== *)

Definition content (f : File.t) : Content :=
  {| Key := File.Name f; LastModified := File.CreatedAt f;
     ETag := quoted (File.ETag f); Size := File.Size f;
     StorageClass := "STANDARD"; OwnerID := itoa (File.UserID f) |}.

Definition s3MaxKeys (r : S3Request) : Z :=
  match maxKeys r with
  | Some mk => if 0 <? mk then mk else 1000
  | None => 1000
  end.

(** [S3ListObjects] (api/s3.go, line 118):
    GET /bucket-name?prefix=...&max-keys=... *)
Definition S3ListObjects (e : Env) (r : S3Request) (w : World) : Response * World :=
  let w := log DebugLevel "S3 list objects endpoint called" w in
  match s3user r with
  | None => (WriteHeader [] StatusUnauthorized, w)
  | Some u =>
  if (bucketName r =? "")%string then (WriteHeader [] StatusBadRequest, w)
  else
  match BucketRepository.GetByName e w (bucketName r) (User.ID u) with
  | Err _ => (WriteHeader [] StatusInternalServerError, log ErrorLevel "Failed to get bucket" w)
  | Ok found =>
  let bucket :=
    match found with
    | Some b => Some b
    | None =>
        (* Try public buckets *)
        let buckets :=
          match BucketRepository.List e w (User.ID u) 1000 0 with
          | Ok bs => bs
          | Err _ => []
          end in
        find (fun b => (Bucket.Name b =? bucketName r)%string && Bucket.IsPublic b) buckets
    end in
  match bucket with
  | None => (WriteHeader [] StatusNotFound, w)
  | Some bucket =>
  if denied bucket u then (WriteHeader [] StatusForbidden, w)
  else
  let mk := s3MaxKeys r in
  let listed :=
    if negb (s3prefix r =? "")%string
    then FileRepository.ListByPrefix e w (Bucket.ID bucket) (s3prefix r) mk 0
    else FileRepository.List e w (Bucket.ID bucket) mk 0 in
  match listed with
  | Err _ => (WriteHeader [] StatusInternalServerError, log ErrorLevel "Failed to list files" w)
  | Ok fs =>
      ({| status := StatusOK; headers := [("Content-Type", "application/xml")];
          body := ListBucketXML {| Name := bucketName r; Prefix := s3prefix r;
                                   MaxKeys := mk; IsTruncated := false;
                                   Contents := map content fs |} |}, w)
  end
  end end end.

(** [S3PutObject] (api/s3.go, line 214): PUT /bucket-name/object-key *)
Definition S3PutObject (e : Env) (r : S3Request) (w : World) : Response * World :=
  let w := log DebugLevel "S3 put object endpoint called" w in
  match s3user r with
  | None => (WriteHeader [] StatusUnauthorized, w)
  | Some u =>
  let objectKey := objectKey r in
  if (bucketName r =? "")%string || (objectKey =? "")%string then
    (WriteHeader [] StatusBadRequest, w)
  else
  match BucketRepository.GetByName e w (bucketName r) (User.ID u) with
  | Err _ => (WriteHeader [] StatusInternalServerError, log ErrorLevel "Failed to get bucket" w)
  | Ok None => (WriteHeader [] StatusNotFound, w)
  | Ok (Some bucket) =>
  if denied bucket u then (WriteHeader [] StatusForbidden, w)
  else
  (* Create storage directory *)
  let storageBase := getStoragePath e in
  let storageDir :=
    filepath.Join [storageBase; itoa (User.ID u); itoa (Bucket.ID bucket)] in
  match service.EnsureDir e storageDir w with
  | (Some _, w) =>
      (WriteHeader [] StatusInternalServerError,
       log ErrorLevel "Failed to create storage directory" w)
  | (None, w) =>
  (* Create file path *)
  let filePath := filepath.Join [storageDir; objectKey] in
  (* Create file on disk *)
  match os.Create e filePath w with
  | (Some _, w) =>
      (WriteHeader [] StatusInternalServerError, log ErrorLevel "Failed to create file" w)
  | (None, w) =>
  (* Copy file content and calculate hash *)
  match io.Copy e filePath (payload r) w with
  | (Err _, w) =>
      let w := log ErrorLevel "Failed to save file" w in
      let w := snd (os.Remove e filePath w) in
      (WriteHeader [] StatusInternalServerError, w)
  | (Ok size, w) =>
  let etag := md5.hexdigest (payload r) in
  let contentType := defaultContentType (contentType r) in
  (* Save file metadata to database *)
  let existingFile :=
    match FileRepository.GetByName e w (Bucket.ID bucket) objectKey with
    | Ok found => found
    | Err _ => None
    end in
  let dbFile :=
    newFile (Bucket.ID bucket) objectKey filePath contentType size etag (User.ID u) in
  let w :=
    match existingFile with
    | Some existing => snd (FileRepository.Update e (File.with_ID (File.ID existing) dbFile) w)
    | None => snd (FileRepository.Create e dbFile w)
    end in
  (WriteHeader [("ETag", quoted etag)] StatusOK, w)
  end end end end end.

(** [S3GetObject] (api/s3.go, line 323): GET /bucket-name/object-key *)
Definition S3GetObject (e : Env) (r : S3Request) (w : World) : Response * World :=
  let w := log DebugLevel "S3 get object endpoint called" w in
  match s3user r with
  | None => (WriteHeader [] StatusUnauthorized, w)
  | Some u =>
  let objectKey := objectKey r in
  if (bucketName r =? "")%string || (objectKey =? "")%string then
    (WriteHeader [] StatusBadRequest, w)
  else
  match BucketRepository.GetByName e w (bucketName r) (User.ID u) with
  | Err _ => (WriteHeader [] StatusInternalServerError, log ErrorLevel "Failed to get bucket" w)
  | Ok None => (WriteHeader [] StatusNotFound, w)
  | Ok (Some bucket) =>
  if denied bucket u then (WriteHeader [] StatusForbidden, w)
  else
  match FileRepository.GetByName e w (Bucket.ID bucket) objectKey with
  | Err _ => (WriteHeader [] StatusInternalServerError, log ErrorLevel "Failed to get file" w)
  | Ok None => (WriteHeader [] StatusNotFound, w)
  | Ok (Some file) =>
  if negb (service.FileExists (File.Path file) w) then (WriteHeader [] StatusNotFound, w)
  else
  (* Open file *)
  match os.Open e (File.Path file) w with
  | Err _ => (WriteHeader [] StatusInternalServerError, log ErrorLevel "Failed to open file" w)
  | Ok node =>
      (* Set headers; the layout of the date is not modelled *)
      let hs := [ ("Content-Type", File.ContentType file);
                  ("Content-Length", itoa (File.Size file));
                  ("ETag", quoted (File.ETag file));
                  ("Last-Modified", itoa (File.CreatedAt file)) ] in
      (* Copy file to response *)
      match node with
      | Directory =>
          ({| status := StatusOK; headers := hs; body := NoBody |},
           log ErrorLevel "Failed to send file" w)
      | Regular bytes =>
          ({| status := StatusOK; headers := hs; body := Bytes bytes |}, w)
      end
  end
  end end end.

(** [S3DeleteObject] (api/s3.go, line 410): DELETE /bucket-name/object-key *)
Definition S3DeleteObject (e : Env) (r : S3Request) (w : World) : Response * World :=
  let w := log DebugLevel "S3 delete object endpoint called" w in
  match s3user r with
  | None => (WriteHeader [] StatusUnauthorized, w)
  | Some u =>
  let objectKey := objectKey r in
  if (bucketName r =? "")%string || (objectKey =? "")%string then
    (WriteHeader [] StatusBadRequest, w)
  else
  match BucketRepository.GetByName e w (bucketName r) (User.ID u) with
  | Err _ => (WriteHeader [] StatusInternalServerError, log ErrorLevel "Failed to get bucket" w)
  | Ok None => (WriteHeader [] StatusNotFound, w)
  | Ok (Some bucket) =>
  if negb (Bucket.UserID bucket =? User.ID u) then (WriteHeader [] StatusForbidden, w)
  else
  match FileRepository.GetByName e w (Bucket.ID bucket) objectKey with
  | Err _ => (WriteHeader [] StatusInternalServerError, log ErrorLevel "Failed to get file" w)
  | Ok None => (WriteHeader [] StatusNoContent, w)
  | Ok (Some file) =>
  (* Delete file from disk *)
  let w :=
    if service.FileExists (File.Path file) w
    then snd (os.Remove e (File.Path file) w) else w in
  (* Delete file from database *)
  match FileRepository.Delete e (File.ID file) w with
  | (Some _, w) => (WriteHeader [] StatusInternalServerError, log ErrorLevel "Failed to delete file" w)
  | (None, w) => (WriteHeader [] StatusNoContent, w)
  end
  end end end.

Arguments md5.hexdigest : simpl never.
Arguments filepath.Join : simpl never.
Arguments filepath.Clean : simpl never.
Arguments filepath.Dir : simpl never.
Arguments itoa : simpl never.
Arguments sql.like : simpl never.
Arguments service.chain : simpl never.
Arguments os.builtin_dir : simpl never.

(* ===================================================================== *)
(** ** api/bucket.go and api/s3.go: creating and listing buckets *)
(* ===================================================================== *)

Definition StatusCreated := 201.
Definition StatusConflict := 409.

(** [CreateBucketRequest]: the request payload for creating a bucket. *)
Module CreateBucketRequest.
Record t := {
  Name : string;            (** [validate:"required,min=3,max=63,alphanum"] *)
  Description : string;     (** [validate:"max=500"] *)
  IsPublic : bool }.
End CreateBucketRequest.

(** A request to create a bucket: the actor and what [service.DecodeJSON]
    makes of the body. *)
Record CreateRequest := {
  creator : option User.t;
  decoded : result CreateBucketRequest.t }.

Section Service.

(** [service.ValidateStruct] and [service.WriteValidationError] are not
    among the source files: the handler is given the verdict of the first
    on a payload and the answer the second writes for an error. *)
Variable ValidateStruct : CreateBucketRequest.t -> option error.
Variable WriteValidationError : error -> Response.

(** [CreateBucket] (api/bucket.go, line 28): creates a new bucket. *)
Definition CreateBucket (bf : BucketFault -> bool) (e : Env) (r : CreateRequest) (w : World)
  : Response * World :=
  let w := log DebugLevel "Create bucket endpoint called" w in
  match creator r with
  | None => (WriteJSON StatusUnauthorized (ErrorMessage "Unauthorized"), w)
  | Some u =>
  match decoded r with
  | Err err => (WriteValidationError err, w)
  | Ok req =>
  match ValidateStruct req with
  | Some err => (WriteValidationError err, w)
  | None =>
  (* Check if bucket with same name already exists for this user *)
  match BucketRepository.GetByName e w (CreateBucketRequest.Name req) (User.ID u) with
  | Err _ =>
      (WriteJSON StatusInternalServerError (ErrorMessage "Failed to create bucket"),
       log ErrorLevel "Failed to check existing bucket" w)
  | Ok (Some _) =>
      (WriteJSON StatusConflict (ErrorMessage "Bucket with this name already exists"), w)
  | Ok None =>
  let bucket := {| Bucket.ID := 0; Bucket.Name := CreateBucketRequest.Name req;
                   Bucket.UserID := User.ID u;
                   Bucket.Description := CreateBucketRequest.Description req;
                   Bucket.IsPublic := CreateBucketRequest.IsPublic req;
                   Bucket.CreatedAt := 0; Bucket.UpdatedAt := 0 |} in
  match BucketRepository.Create bf e bucket w with
  | (Err _, w) =>
      (WriteJSON StatusInternalServerError (ErrorMessage "Failed to create bucket"),
       log ErrorLevel "Failed to create bucket" w)
  | (Ok bucket, w) =>
      let w := log InfoLevel "Bucket created successfully" w in
      (WriteJSON StatusCreated (BucketObject bucket), w)
  end
  end end end end.

End Service.

(** What [ListBuckets] answers: an error answer, or [200] with the page of
    buckets (id, name, description, is_public and the two times of each),
    the total, the limit and the offset. *)
Inductive ListBucketsAnswer :=
| ListFailed (resp : Response)
| Listed (page : list Bucket.t) (total limit offset : Z).

(** [ListBuckets] (api/bucket.go, line 100): lists all buckets for the
    authenticated user. *)
Definition ListBuckets (bf : BucketFault -> bool) (e : Env) (r : Request) (w : World)
  : ListBucketsAnswer * World :=
  let w := log DebugLevel "List buckets endpoint called" w in
  match user r with
  | None => (ListFailed (WriteJSON StatusUnauthorized (ErrorMessage "Unauthorized")), w)
  | Some u =>
  let lim := pageLimit r in
  let off := pageOffset r in
  match BucketRepository.List e w (User.ID u) lim off with
  | Err _ =>
      (ListFailed (WriteJSON StatusInternalServerError (ErrorMessage "Failed to list buckets")),
       log ErrorLevel "Failed to list buckets" w)
  | Ok bs =>
      let '(total, w) :=
        match BucketRepository.Count bf e w (User.ID u) with
        | Err _ => (0, log ErrorLevel "Failed to count buckets" w)
        | Ok n => (n, w)
        end in
      (Listed bs total lim off, w)
  end
  end.

(** [BucketInfo], [Owner] and [ListAllMyBucketsResult] of api/s3.go. *)
Record BucketInfo := { BucketName : string; CreationDate : Time }.

Record ListAllMyBucketsResult := {
  Buckets : list BucketInfo;
  AllOwnerID : string;
  OwnerDisplayName : string }.

(** What [S3ListBuckets] answers: an error answer, or [200] with the XML
    document. *)
Inductive S3ListBucketsAnswer :=
| S3ListFailed (resp : Response)
| AllMyBuckets (res : ListAllMyBucketsResult).

(** [S3ListBuckets] (api/s3.go, line 76): GET /?list-type=2 *)
Definition S3ListBuckets (e : Env) (r : S3Request) (w : World) : S3ListBucketsAnswer * World :=
  let w := log DebugLevel "S3 list buckets endpoint called" w in
  match s3user r with
  | None => (S3ListFailed (WriteJSON StatusUnauthorized (ErrorMessage "Unauthorized")), w)
  | Some u =>
  match BucketRepository.List e w (User.ID u) 1000 0 with
  | Err _ =>
      (S3ListFailed (WriteHeader [] StatusInternalServerError),
       log ErrorLevel "Failed to list buckets" w)
  | Ok bs =>
      (AllMyBuckets
         {| Buckets := map (fun b => {| BucketName := Bucket.Name b;
                                        CreationDate := Bucket.CreatedAt b |}) bs;
            AllOwnerID := itoa (User.ID u);
            OwnerDisplayName := User.Email u |}, w)
  end
  end.

(* ===================================================================== *)
(** ** Vocabulary of the statements *)
(* ===================================================================== *)

(** An error-level entry was added to the log between two worlds. *)
Definition error_logged (w w' : World) : Prop :=
  exists m rest, logs w' = (logs w ++ rest)%list
                 /\ In {| level := ErrorLevel; message := m |} rest.

(** The two worlds differ at most by their logs. *)
Definition same_storage (w w' : World) : Prop :=
  buckets w' = buckets w /\ files w' = files w /\ disk w' = disk w /\
  lastFileID w' = lastFileID w /\ lastBucketID w' = lastBucketID w.

#[global] Instance Op_eq_dec : EqDecision Op.
Proof. solve_decision. Defined.

(** The destination of a put by actor [uid] of [key] into bucket
    [bucketID], as both put handlers compute it. *)
Definition storageDirOf (e : Env) (uid bucketID : Z) : string :=
  filepath.Join [getStoragePath e; itoa uid; itoa bucketID].

Definition filePathOf (e : Env) (uid bucketID : Z) (key : string) : string :=
  filepath.Join [storageDirOf e uid bucketID; key].

(** [UploadFile] got as far as an open destination file: the request is
    authenticated and well formed, the bucket was found and is writable by
    the actor, the lookup of the name answered [existing], the storage
    directory was made and [os.Create] left the world [w2]. *)
Definition NativePutOpened (e : Env) (r : Request) (w : World) (u : User.t)
    (bucketID : Z) (header : FileHeader) (existing : option File.t)
    (w2 : World) : Prop :=
  user r = Some u /\ bucketId r = Some bucketID /\
  form r = Some (Some header) /\ Filename header <> "" /\
  (exists b, BucketRepository.GetByID e w bucketID = Ok (Some b) /\ denied b u = false) /\
  FileRepository.GetByName e w bucketID (Filename header) = Ok existing /\
  exists w1,
    service.EnsureDir e (storageDirOf e (User.ID u) bucketID)
      (log DebugLevel "Upload file endpoint called" w) = (None, w1) /\
    os.Create e (filePathOf e (User.ID u) bucketID (Filename header)) w1 = (None, w2).

(** [S3PutObject] got as far as an open destination file. *)
Definition S3PutOpened (e : Env) (r : S3Request) (w : World) (u : User.t)
    (b : Bucket.t) (w2 : World) : Prop :=
  s3user r = Some u /\ bucketName r <> "" /\ objectKey r <> "" /\
  BucketRepository.GetByName e w (bucketName r) (User.ID u) = Ok (Some b) /\
  denied b u = false /\
  exists w1,
    service.EnsureDir e (storageDirOf e (User.ID u) (Bucket.ID b))
      (log DebugLevel "S3 put object endpoint called" w) = (None, w1) /\
    os.Create e (filePathOf e (User.ID u) (Bucket.ID b) (objectKey r)) w1 = (None, w2).

(** The row [S3PutObject] goes on to update, if any: a failed lookup
    counts as no row. *)
Definition s3_existing (e : Env) (r : S3Request) (w : World) (b : Bucket.t)
  : option File.t :=
  if fails e FileQuery then None
  else find (FileRepository.named (Bucket.ID b) (objectKey r)) (files w).

(** The pattern characters of [LIKE]. *)
Definition wildcard (c : ascii) : bool :=
  Ascii.eqb c "%"%char || Ascii.eqb c "_"%char.


(** [id] is the primary key of [files], handed out in increasing order:
    no two rows share an id and no id is beyond the last one handed out. *)
Definition primary_key (w : World) : Prop :=
  List.NoDup (map File.ID (files w)) /\
  Forall (fun f => File.ID f <= lastFileID w) (files w).

(** [row] is what a put by actor [uid] of [content] under [name] into the
    bucket [bucketID] at time [now e] leaves in the table. *)
Definition records (e : Env) (uid bucketID : Z) (name ctype : string)
    (content : list byte) (row : File.t) : Prop :=
  File.BucketID row = bucketID /\ File.Name row = name /\
  File.Path row = filePathOf e uid bucketID name /\
  File.ContentType row = defaultContentType ctype /\
  File.Size row = Z.of_nat (length content) /\
  File.ETag row = md5.hexdigest content /\
  File.UpdatedAt row = now e.

(** The number of rows of the table for a key of a bucket. *)
Definition rows_for (bucketID : Z) (name : string) (w : World) : nat :=
  length (List.filter (FileRepository.named bucketID name) (files w)).

(** A put through either adapter. *)
Inductive Put :=
| Native (r : Request)
| S3 (r : S3Request).

Definition run (e : Env) (p : Put) (w : World) : Response * World :=
  match p with
  | Native r => UploadFile e r w
  | S3 r => S3PutObject e r w
  end.

Definition put_user (p : Put) : option User.t :=
  match p with
  | Native r => user r
  | S3 r => s3user r
  end.

(** The content and the declared content type of a put. *)
Definition put_content (p : Put) : list byte :=
  match p with
  | Native r => match form r with
                | Some (Some header) => part header
                | _ => []
                end
  | S3 r => payload r
  end.

Definition put_ctype (p : Put) : string :=
  match p with
  | Native r => match form r with
                | Some (Some header) => PartContentType header
                | _ => ""
                end
  | S3 r => contentType r
  end.

(** The bucket id and the key a put addresses: the native adapter names
    the bucket by id, the S3 adapter by a name resolved among the buckets
    of the actor. *)
Definition target (e : Env) (w : World) (p : Put) : option (Z * string) :=
  match p with
  | Native r =>
      match bucketId r, form r with
      | Some bucketID, Some (Some header) => Some (bucketID, Filename header)
      | _, _ => None
      end
  | S3 r =>
      match s3user r with
      | Some u =>
          match BucketRepository.GetByName e w (bucketName r) (User.ID u) with
          | Ok (Some b) => Some (Bucket.ID b, objectKey r)
          | _ => None
          end
      | None => None
      end
  end.

(** The metadata calls whose errors the S3 handler does not look at do
    not fail; the native handler looks at all of them. *)
Definition metadata_sound (e : Env) (p : Put) : Prop :=
  match p with
  | Native _ => True
  | S3 _ => fails e FileQuery = false /\ fails e FileUpdate = false /\
            fails e FileInsert = false
  end.

(** The put was answered [200] with its metadata calls sound. *)
Definition succeeded (e : Env) (p : Put) (w : World) : Prop :=
  status (fst (run e p w)) = StatusOK /\ metadata_sound e p.

(** The value of a header of an answer. *)
Definition header (name : string) (resp : Response) : option string :=
  option_map snd (find (fun kv => (fst kv =? name)%string) (headers resp)).

(** The ETag a put answer reports: the [etag] member of the native JSON
    object, the [ETag] header of the S3 answer. *)
Definition reported_etag (p : Put) (resp : Response) : option string :=
  match p with
  | Native _ => match body resp with
                | FileObject j => Some (json_etag j)
                | _ => None
                end
  | S3 _ => header "ETag" resp
  end.

(** A download through either adapter. *)
Inductive Get :=
| NativeGet (r : Request)
| S3Get (r : S3Request).

Definition fetch (e : Env) (g : Get) (w : World) : Response * World :=
  match g with
  | NativeGet r => DownloadFile e r w
  | S3Get r => S3GetObject e r w
  end.

(** The download [g] comes from an actor who passes the read check of the
    bucket [bucketID] and addresses the object stored there under [key] in
    the row [id]: the native adapter by the ids of the bucket and of the
    row, the S3 adapter by the name of the bucket and the key. *)
Definition reads (e : Env) (w : World) (g : Get) (bucketID : Z) (key : string) (id : Z)
  : Prop :=
  match g with
  | NativeGet r =>
      exists u b,
        user r = Some u /\ bucketId r = Some bucketID /\ fileId r = Some id /\
        BucketRepository.GetByID e w bucketID = Ok (Some b) /\ denied b u = false
  | S3Get r =>
      exists u b,
        s3user r = Some u /\ bucketName r <> "" /\ objectKey r <> "" /\
        objectKey r = key /\
        BucketRepository.GetByName e w (bucketName r) (User.ID u) = Ok (Some b) /\
        Bucket.ID b = bucketID /\ denied b u = false
  end.

(** The id the native adapter reports in its JSON answer. *)
Definition reported_id (resp : Response) : option Z :=
  match body resp with
  | FileObject j => Some (json_id j)
  | _ => None
  end.

(** Path elements.  [nosep]: the string has no separator; [real]: the
    element names an entry, it is neither empty nor [.] nor [..];
    [dotdot_free]: no element of the key is [..]. *)
Fixpoint nosep (s : string) : bool :=
  match s with
  | EmptyString => true
  | String c s' => negb (Ascii.eqb c filepath.Separator) && nosep s'
  end.

Definition real (s : string) : bool :=
  negb (s =? "")%string && negb (s =? ".")%string && negb (s =? "..")%string.

Definition dotdot_free (key : string) : bool :=
  forallb (fun s => negb (s =? "..")%string) (filepath.split key).

(** The elements written one after the other, each behind a separator. *)
Fixpoint below (elems : list string) : string :=
  match elems with
  | [] => ""
  | x :: rest => String filepath.Separator (x +:+ below rest)
  end.

(** The shape of the buffer of [Clean], last element first: real elements
    on top of [..] elements, the latter only in a path that is not
    rooted. *)
Definition canonical (rt : bool) (out : list string) : Prop :=
  exists reals dds,
    out = (reals ++ dds)%list /\
    forallb real reals = true /\
    forallb (String.eqb "..") dds = true /\
    (rt = true -> dds = []).

(** The characters [fmt.Sprintf("%d", n)] writes. *)
Definition numeric_char (c : ascii) : bool :=
  existsb (Ascii.eqb c) ["0";"1";"2";"3";"4";"5";"6";"7";"8";"9";"-"]%char.

Fixpoint numeric (s : string) : bool :=
  match s with
  | EmptyString => true
  | String c s' => numeric_char c && numeric s'
  end.

(** The buffer of [Clean] for the storage directory of an actor and a
    bucket, last element first. *)
Definition storageStack (e : Env) (uid bucketID : Z) : list string :=
  itoa bucketID :: itoa uid
    :: filepath.scan (filepath.rooted (getStoragePath e)) []
         (filepath.split (getStoragePath e)).

(** Every regular file of [d'] is a regular file of [d], with the same
    content. *)
Definition no_new_file (d d' : gmap string Node) : Prop :=
  forall p c, d' !! p = Some (Regular c) -> d !! p = Some (Regular c).

(** The disk after [os.Remove] was called on the file at [p] that holds
    [content]: without the file, or as it was when the removal fails. *)
Definition unlinked (e : Env) (p : string) (content : list byte)
    (d : gmap string Node) : gmap string Node :=
  if fails e OsRemove then <[p := Regular content]> d else delete p d.

(** A put that was turned down before it opened its destination: the
    answer is not [200], the tables are as before and the disk holds no
    regular file that was not there before with the same content. *)
Definition turned_down (w : World) (out : Response * World) : Prop :=
  status (fst out) <> StatusOK /\
  files (snd out) = files w /\ buckets (snd out) = buckets w /\
  lastFileID (snd out) = lastFileID w /\
  no_new_file (disk w) (disk (snd out)).

(** No two rows of [files] share a bucket and a name. *)
Definition names_unique (w : World) : Prop :=
  List.NoDup (map (fun f => (File.BucketID f, File.Name f)) (files w)).

(** [id] is the primary key of [buckets], handed out in increasing order. *)
Definition bucket_primary_key (w : World) : Prop :=
  List.NoDup (map Bucket.ID (buckets w)) /\
  Forall (fun b => Bucket.ID b <= lastBucketID w) (buckets w).

(** No two buckets of one owner share a name. *)
Definition owner_names_unique (w : World) : Prop :=
  List.NoDup (map (fun b => (Bucket.UserID b, Bucket.Name b)) (buckets w)).

(* ===================================================================== *)
(** ** A small deployment used to run the handlers *)
(* ===================================================================== *)

Module Scenario.

Definition alice : User.t := {| User.ID := 1; User.Email := "alice@example.org"; User.Role := "user" |}.
Definition bob : User.t := {| User.ID := 2; User.Email := "bob@example.org"; User.Role := "user" |}.

(** Default configuration, a clock at 100 and no storage fault. *)
Definition calm (t : Time) : Env :=
  {| storage_path := ""; now := t; fails := fun _ => false; copy_fails_after := None |}.

Definition bucket (id : Z) (name : string) (owner : Z) (public : bool) : Bucket.t :=
  {| Bucket.ID := id; Bucket.Name := name; Bucket.UserID := owner;
     Bucket.Description := ""; Bucket.IsPublic := public;
     Bucket.CreatedAt := 1; Bucket.UpdatedAt := 1 |}.

(** Alice owns a private bucket [logs] (id 1) and a public bucket
    [pub] (id 2); nothing is stored yet. *)
Definition logs_bucket : Bucket.t := bucket 1 "logs" 1 false.
Definition pub_bucket : Bucket.t := bucket 2 "pub" 1 true.

Definition fresh : World :=
  {| buckets := [logs_bucket; pub_bucket];
     files := []; lastBucketID := 2; lastFileID := 0; disk := ∅; logs := [] |}.

(** A native request on a bucket, without a form. *)
Definition on_bucket (u : User.t) (bucketID : Z) : Request :=
  {| user := Some u; bucketId := Some bucketID; fileId := None; form := None;
     limit := None; offset := None; prefix := "" |}.

Definition on_file (u : User.t) (bucketID fileID : Z) : Request :=
  {| user := Some u; bucketId := Some bucketID; fileId := Some fileID; form := None;
     limit := None; offset := None; prefix := "" |}.

Definition with_prefix (u : User.t) (bucketID : Z) (p : string) : Request :=
  {| user := Some u; bucketId := Some bucketID; fileId := None; form := None;
     limit := None; offset := None; prefix := p |}.

(** A native upload of [text] under the file name [name]. *)
Definition upload (u : User.t) (bucketID : Z) (name ctype text : string) : Request :=
  {| user := Some u; bucketId := Some bucketID; fileId := None;
     form := Some (Some {| Filename := name; PartContentType := ctype;
                           part := bytes_of text |});
     limit := None; offset := None; prefix := "" |}.

(** An S3 request on [bucket/key] carrying [text]. *)
Definition s3 (u : User.t) (bucket key ctype text : string) : S3Request :=
  {| s3user := Some u; bucketName := bucket; objectKey := key; contentType := ctype;
     payload := bytes_of text; s3prefix := ""; maxKeys := None |}.

(** The same, with the copy of a put breaking after two bytes. *)
Definition stormy (t : Time) : Env :=
  {| storage_path := ""; now := t; fails := fun _ => false; copy_fails_after := Some 2%nat |}.

(** The copy of a put breaks after two bytes and no file can be
    removed. *)
Definition stuck (t : Time) : Env :=
  {| storage_path := ""; now := t; fails := fun o => bool_decide (o = OsRemove);
     copy_fails_after := Some 2%nat |}.

(** The same as [calm], with one storage operation failing. *)
Definition failing (op : Op) (t : Time) : Env :=
  {| storage_path := ""; now := t; fails := fun o => bool_decide (o = op);
     copy_fails_after := None |}.

(** The world [UploadFile] is in when it has opened its destination. *)
Definition opened (e : Env) (u : User.t) (bucketID : Z) (name : string) (w : World) : World :=
  snd (os.Create e (filePathOf e (User.ID u) bucketID name)
         (snd (service.EnsureDir e (storageDirOf e (User.ID u) bucketID)
                 (log DebugLevel "Upload file endpoint called" w)))).

(** The world [S3PutObject] is in when it has opened its destination. *)
Definition s3opened (e : Env) (u : User.t) (bucketID : Z) (key : string) (w : World) : World :=
  snd (os.Create e (filePathOf e (User.ID u) bucketID key)
         (snd (service.EnsureDir e (storageDirOf e (User.ID u) bucketID)
                 (log DebugLevel "S3 put object endpoint called" w)))).

(** The deployment after Alice stored [ab.txt] and then [a_b.txt] in her
    bucket [logs]. *)
Definition lettered : World :=
  snd (UploadFile (calm 101) (upload alice 1 "a_b.txt" "text/plain" "two")
         (snd (UploadFile (calm 100) (upload alice 1 "ab.txt" "text/plain" "one") fresh))).

(** The deployment after Alice stored [hello] as [a.txt] in each of
    her buckets through the native adapter. *)
Definition stocked : World :=
  snd (UploadFile (calm 101) (upload alice 2 "a.txt" "text/plain" "hello")
         (snd (UploadFile (calm 100) (upload alice 1 "a.txt" "text/plain" "hello") fresh))).

End Scenario.

(* ===================================================================== *)
(** * Properties *)
(* ===================================================================== *)

(** ** The library models on known values *)

Example md5_hello : md5.hexdigest (bytes_of "hello") = "5d41402abc4b2a76b9719d911017c592".
Proof. vm_compute. reflexivity. Qed.

Example md5_empty : md5.hexdigest [] = "d41d8cd98f00b204e9800998ecf8427e".
Proof. vm_compute. reflexivity. Qed.

Example clean1 : filepath.Clean "a//b/./c/../d" = "a/b/d".
Proof. reflexivity. Qed.
Example clean2 : filepath.Clean "../../a/.." = "../..".
Proof. reflexivity. Qed.
Example clean3 : filepath.Clean "/../a/b/../.." = "/".
Proof. reflexivity. Qed.
Example clean4 : filepath.Clean "./storage" = "storage".
Proof. reflexivity. Qed.
Example join1 : filepath.Join ["./storage"; "1"; "2"] = "storage/1/2".
Proof. reflexivity. Qed.
Example join2 : filepath.Join ["storage/1/2"; "../../secret"] = "storage/secret".
Proof. reflexivity. Qed.
Example dir1 : filepath.Dir "storage/1/x" = "storage/1".
Proof. reflexivity. Qed.
Example dir2 : filepath.Dir "/x" = "/".
Proof. reflexivity. Qed.
Example dir3 : filepath.Dir "x" = ".".
Proof. reflexivity. Qed.
Example dir4 : filepath.Dir "/a/b" = "/a".
Proof. reflexivity. Qed.
Example clean5 : filepath.Clean "" = ".".
Proof. reflexivity. Qed.
Example clean6 : filepath.Clean "/a/../../b" = "/b".
Proof. reflexivity. Qed.
Example join3 : filepath.Join [""; "a"; ""; "b"] = "a/b".
Proof. reflexivity. Qed.
Example itoa1 : itoa 120 = "120".
Proof. reflexivity. Qed.
Example itoa2 : itoa (-5) = "-5".
Proof. reflexivity. Qed.
Example itoa3 : itoa 0 = "0".
Proof. reflexivity. Qed.
Example like1 : sql.like "2024/%" "2024/jan.txt" = true.
Proof. reflexivity. Qed.
Example like2 : sql.like "a_%" "ab.txt" = true.
Proof. reflexivity. Qed.
Example like3 : sql.like "a%z" "abcz" = true.
Proof. reflexivity. Qed.
Example like4 : sql.like "a%z" "abc" = false.
Proof. reflexivity. Qed.

(** A key with a directory part is stored only when that directory is
    there already: the handlers make the storage directory, not the
    directories of the key. *)
Example s3_put_nested_key :
  status (fst (S3PutObject (Scenario.calm 100)
                 (Scenario.s3 Scenario.alice "pub" "2024/jan.txt" "text/plain" "hello")
                 Scenario.fresh)) = StatusInternalServerError.
Proof. vm_compute. reflexivity. Qed.

Lemma same_storage_refl w : same_storage w w.
Proof. repeat split. Qed.

Lemma same_storage_log w l m : same_storage w (log l m w).
Proof. repeat split. Qed.

Lemma same_storage_log2 w l m l' m' : same_storage w (log l' m' (log l m w)).
Proof. repeat split. Qed.

Create HintDb tut.
#[global] Hint Resolve same_storage_refl same_storage_log same_storage_log2 : tut.

(** ** Private buckets on the native adapter *)

Section PrivateBucket.
Variables (e : Env) (r : Request) (w : World) (u : User.t) (bucketID : Z) (b : Bucket.t).
Hypothesis Huser : user r = Some u.
Hypothesis Hid : bucketId r = Some bucketID.
Hypothesis Hfound : BucketRepository.GetByID e w bucketID = Ok (Some b).
Hypothesis Hother : Bucket.UserID b <> User.ID u.
Hypothesis Hprivate : Bucket.IsPublic b = false.

Lemma denied_private : denied b u = true.
Proof.
  unfold denied. rewrite Hprivate.
  destruct (Z.eqb_spec (Bucket.UserID b) (User.ID u)); [contradiction | reflexivity].
Qed.

Lemma GetBucket_private :
  GetBucket e r w =
    (WriteJSON StatusForbidden (ErrorMessage "Access denied"),
     log DebugLevel "Get bucket endpoint called" w).
Proof.
  unfold GetBucket. rewrite Huser, Hid.
  change (BucketRepository.GetByID e (log _ _ w) bucketID)
    with (BucketRepository.GetByID e w bucketID).
  rewrite Hfound, denied_private. reflexivity.
Qed.

Lemma ListFiles_private :
  ListFiles e r w =
    (WriteJSON StatusForbidden (ErrorMessage "Access denied"),
     log DebugLevel "List files endpoint called" w).
Proof.
  unfold ListFiles. rewrite Huser, Hid.
  change (BucketRepository.GetByID e (log _ _ w) bucketID)
    with (BucketRepository.GetByID e w bucketID).
  rewrite Hfound, denied_private. reflexivity.
Qed.
End PrivateBucket.

(** The native adapter answers [404] on a bucket only when the lookup
    found no row with that id. *)
Lemma GetBucket_not_found_iff e r w u bucketID :
  user r = Some u -> bucketId r = Some bucketID ->
  status (fst (GetBucket e r w)) = StatusNotFound <->
  BucketRepository.GetByID e w bucketID = Ok None.
Proof.
  intros Hu Hid. unfold GetBucket. rewrite Hu, Hid.
  change (BucketRepository.GetByID e (log _ _ w) bucketID)
    with (BucketRepository.GetByID e w bucketID).
  destruct (BucketRepository.GetByID e w bucketID) as [[b|]|err]; cbn.
  - destruct (denied b u); cbn; split; discriminate.
  - split; reflexivity.
  - split; discriminate.
Qed.

(** C7, as amended: for every actor who is not the owner of a private
    bucket, the native get and list requests addressing that bucket are
    answered [403 Access denied] and touch nothing but the log; the answer
    is not [404], which the adapter keeps for ids without a bucket. *)
Theorem private_bucket_forbidden_not_hidden e r w u bucketID b :
  user r = Some u ->
  bucketId r = Some bucketID ->
  BucketRepository.GetByID e w bucketID = Ok (Some b) ->
  Bucket.UserID b <> User.ID u ->
  Bucket.IsPublic b = false ->
  fst (GetBucket e r w) = WriteJSON StatusForbidden (ErrorMessage "Access denied") /\
  fst (ListFiles e r w) = WriteJSON StatusForbidden (ErrorMessage "Access denied") /\
  status (fst (GetBucket e r w)) <> StatusNotFound /\
  status (fst (ListFiles e r w)) <> StatusNotFound /\
  same_storage w (snd (GetBucket e r w)) /\
  same_storage w (snd (ListFiles e r w)).
Proof.
  intros Hu Hid Hb Ho Hp.
  rewrite (GetBucket_private e r w u bucketID b), (ListFiles_private e r w u bucketID b)
    by assumption.
  cbn. repeat split; discriminate.
Qed.

Lemma private_bucket_forbidden_not_hidden_witness :
  Bucket.UserID Scenario.logs_bucket <> User.ID Scenario.bob /\
  Bucket.IsPublic Scenario.logs_bucket = false /\
  fst (GetBucket (Scenario.calm 100) (Scenario.on_bucket Scenario.bob 1) Scenario.fresh)
    = WriteJSON StatusForbidden (ErrorMessage "Access denied").
Proof.
  split; [cbn; lia | split; [reflexivity |]].
  apply (private_bucket_forbidden_not_hidden (Scenario.calm 100)
           (Scenario.on_bucket Scenario.bob 1) Scenario.fresh Scenario.bob 1
           Scenario.logs_bucket);
    first [reflexivity | cbn; lia].
Defined.

(** C7 as stated fails: Bob asks for Alice's private bucket [logs] and for
    its listing; both answers are [403], not [404]. *)
Lemma private_bucket_not_found_counterexample :
  BucketRepository.GetByID (Scenario.calm 100) Scenario.fresh 1 = Ok (Some Scenario.logs_bucket) /\
  Bucket.IsPublic Scenario.logs_bucket = false /\
  Bucket.UserID Scenario.logs_bucket <> User.ID Scenario.bob /\
  status (fst (GetBucket (Scenario.calm 100) (Scenario.on_bucket Scenario.bob 1) Scenario.fresh))
    = StatusForbidden /\
  status (fst (ListFiles (Scenario.calm 100) (Scenario.on_bucket Scenario.bob 1) Scenario.fresh))
    = StatusForbidden /\
  ~ (status (fst (GetBucket (Scenario.calm 100) (Scenario.on_bucket Scenario.bob 1) Scenario.fresh))
       = StatusNotFound /\
     status (fst (ListFiles (Scenario.calm 100) (Scenario.on_bucket Scenario.bob 1) Scenario.fresh))
       = StatusNotFound).
Proof.
  repeat split; try reflexivity; try (cbn; lia).
  intros [H _]. vm_compute in H. discriminate.
Qed.

(** ** Deleting a bucket *)

Lemma find_filter_out {A} (p : A -> bool) (l : list A) :
  find p (List.filter (fun x => negb (p x)) l) = None.
Proof.
  induction l as [|x l IH]; [reflexivity |].
  cbn. destruct (p x) eqn:Hp; cbn; [assumption | now rewrite Hp].
Qed.

(** While the bucket holds an object, no request whatsoever gets it
    deleted: the handler never answers [200] and the tables stay as they
    are, whoever asks and whatever storage fault occurs. *)
Lemma DeleteBucket_while_occupied e r w bucketID f :
  bucketId r = Some bucketID ->
  In f (files w) -> File.BucketID f = bucketID ->
  status (fst (DeleteBucket e r w)) <> StatusOK /\
  same_storage w (snd (DeleteBucket e r w)).
Proof.
  intros Hid Hin Hf. unfold DeleteBucket. rewrite Hid.
  destruct (user r) as [u|]; [| cbn; split; [discriminate | auto with tut]].
  change (BucketRepository.GetByID e (log _ _ w) bucketID)
    with (BucketRepository.GetByID e w bucketID).
  destruct (BucketRepository.GetByID e w bucketID) as [[b|]|err];
    cbn; try (split; [discriminate | auto with tut]).
  destruct (Bucket.UserID b =? User.ID u); cbn; [| split; [discriminate | auto with tut]].
  unfold FileRepository.Count. cbn.
  destruct (fails e FileCount); cbn; [split; [discriminate | auto with tut] |].
  assert (Hpos : 0 < Z.of_nat (length (List.filter (FileRepository.in_bucket bucketID) (files w)))).
  { assert (Hm : In f (List.filter (FileRepository.in_bucket bucketID) (files w))).
    { apply filter_In. split; [assumption |].
      unfold FileRepository.in_bucket. apply Z.eqb_eq. assumption. }
    destruct (List.filter _ (files w)); [destruct Hm | cbn; lia]. }
  apply Z.ltb_lt in Hpos. rewrite Hpos. cbn. split; [discriminate | auto with tut].
Qed.

(** C5, as amended: the ownership check comes before the count.  A
    non-owner always gets [403 Access denied]; the owner gets [400 Cannot
    delete bucket with existing files] while the live count of the
    bucket's rows is positive, and [200] with the bucket row removed once
    the count is zero.  In no case does the handler remove a file row. *)
Theorem delete_bucket_owner_and_live_count e r w u bucketID b :
  user r = Some u ->
  bucketId r = Some bucketID ->
  BucketRepository.GetByID e w bucketID = Ok (Some b) ->
  fails e FileCount = false ->
  fails e BucketDelete = false ->
  let held := length (List.filter (FileRepository.in_bucket bucketID) (files w)) in
  let resp := fst (DeleteBucket e r w) in
  let w' := snd (DeleteBucket e r w) in
  files w' = files w /\
  (Bucket.UserID b <> User.ID u ->
     resp = WriteJSON StatusForbidden (ErrorMessage "Access denied")
     /\ buckets w' = buckets w) /\
  (Bucket.UserID b = User.ID u -> (0 < held)%nat ->
     resp = WriteJSON StatusBadRequest (ErrorMessage "Cannot delete bucket with existing files")
     /\ buckets w' = buckets w) /\
  (Bucket.UserID b = User.ID u -> held = 0%nat ->
     resp = WriteJSON StatusOK (Message "Bucket deleted successfully")
     /\ BucketRepository.GetByID e w' bucketID = Ok None).
Proof.
  intros Hu Hid Hb Hc Hd. cbv zeta.
  assert (Hq : fails e BucketQuery = false).
  { unfold BucketRepository.GetByID in Hb. destruct (fails e BucketQuery); [discriminate | reflexivity]. }
  unfold DeleteBucket. rewrite Hu, Hid.
  change (BucketRepository.GetByID e (log _ _ w) bucketID)
    with (BucketRepository.GetByID e w bucketID).
  rewrite Hb. cbn.
  destruct (Z.eqb_spec (Bucket.UserID b) (User.ID u)) as [Heq|Hne]; cbn.
  - unfold FileRepository.Count, BucketRepository.Delete. rewrite Hc, Hd. cbn.
    destruct (List.filter (FileRepository.in_bucket bucketID) (files w)) as [|f fs].
    + change (0 <? Z.of_nat (length (@nil File.t))) with false. cbn.
      repeat split; try reflexivity; try contradiction; try lia.
      unfold BucketRepository.GetByID. rewrite Hq. cbn.
      now rewrite (find_filter_out (fun b0 => Bucket.ID b0 =? bucketID)).
    + change (0 <? Z.of_nat (length (f :: fs))) with true. cbn.
      repeat split; try reflexivity; try contradiction; try lia; discriminate.
  - repeat split; try reflexivity; try contradiction.
Qed.

Lemma delete_bucket_owner_and_live_count_witness :
  fst (DeleteBucket (Scenario.calm 102) (Scenario.on_bucket Scenario.bob 2) Scenario.stocked)
    = WriteJSON StatusForbidden (ErrorMessage "Access denied") /\
  fst (DeleteBucket (Scenario.calm 102) (Scenario.on_bucket Scenario.alice 2) Scenario.stocked)
    = WriteJSON StatusBadRequest (ErrorMessage "Cannot delete bucket with existing files") /\
  fst (DeleteBucket (Scenario.calm 102) (Scenario.on_bucket Scenario.alice 2) Scenario.fresh)
    = WriteJSON StatusOK (Message "Bucket deleted successfully").
Proof.
  split; [| split].
  - apply (delete_bucket_owner_and_live_count (Scenario.calm 102)
             (Scenario.on_bucket Scenario.bob 2) Scenario.stocked Scenario.bob 2
             Scenario.pub_bucket); first [reflexivity | cbn; lia].
  - apply (delete_bucket_owner_and_live_count (Scenario.calm 102)
             (Scenario.on_bucket Scenario.alice 2) Scenario.stocked Scenario.alice 2
             Scenario.pub_bucket); first [reflexivity | vm_compute; lia].
  - apply (delete_bucket_owner_and_live_count (Scenario.calm 102)
             (Scenario.on_bucket Scenario.alice 2) Scenario.fresh Scenario.alice 2
             Scenario.pub_bucket); reflexivity.
Defined.

(** C5 as stated fails: Bob asks to delete Alice's bucket [pub], which
    holds an object; the answer is [403 Access denied], not the error for
    a bucket that is not empty. *)
Lemma delete_bucket_non_owner_counterexample :
  FileRepository.Count (Scenario.calm 102) Scenario.stocked 2 = Ok 1 /\
  fst (DeleteBucket (Scenario.calm 102) (Scenario.on_bucket Scenario.bob 2) Scenario.stocked)
    = WriteJSON StatusForbidden (ErrorMessage "Access denied") /\
  fst (DeleteBucket (Scenario.calm 102) (Scenario.on_bucket Scenario.bob 2) Scenario.stocked)
    <> WriteJSON StatusBadRequest (ErrorMessage "Cannot delete bucket with existing files").
Proof.
  split; [vm_compute; reflexivity |].
  split; [vm_compute; reflexivity |].
  vm_compute. discriminate.
Qed.

(** ** The filesystem operations *)

Lemma no_new_file_refl d : no_new_file d d.
Proof. intros p c H. exact H. Qed.

Lemma no_new_file_trans d1 d2 d3 :
  no_new_file d1 d2 -> no_new_file d2 d3 -> no_new_file d1 d3.
Proof. intros H12 H23 p c H. apply H12, H23, H. Qed.

Lemma no_new_file_delete (d : gmap string Node) p : no_new_file d (delete p d).
Proof.
  intros q c H. destruct (decide (p = q)) as [->|Hne].
  - rewrite lookup_delete_eq in H. discriminate.
  - rewrite lookup_delete_ne in H by assumption. exact H.
Qed.

Lemma no_new_file_mkdirs (ds : list string) (d : gmap string Node) :
  no_new_file d (fold_right (fun p d => <[p := Directory]> d) d ds).
Proof.
  induction ds as [|x ds IH]; cbn; [apply no_new_file_refl |].
  intros q c H. destruct (decide (x = q)) as [->|Hne].
  - rewrite lookup_insert_eq in H. discriminate.
  - rewrite lookup_insert_ne in H by assumption. apply IH, H.
Qed.

(** Making directories keeps every regular file in place. *)
Lemma mkdirs_keep_regular (ds : list string) (d : gmap string Node) q c :
  existsb (service.is_regular d) ds = false ->
  d !! q = Some (Regular c) ->
  fold_right (fun p d => <[p := Directory]> d) d ds !! q = Some (Regular c).
Proof.
  induction ds as [|x ds IH]; cbn; intros Hex Hq; [exact Hq |].
  apply orb_false_iff in Hex as [Hx Hds].
  destruct (decide (x = q)) as [->|Hne].
  - unfold service.is_regular in Hx. rewrite Hq in Hx. discriminate.
  - rewrite lookup_insert_ne by assumption. apply IH; assumption.
Qed.

Section EnsureDir.
Variables (e : Env) (dir : string) (w w1 : World).
Hypothesis Hmk : service.EnsureDir e dir w = (None, w1).

Lemma EnsureDir_inv :
  existsb (service.is_regular (disk w)) (service.chain (String.length dir) dir) = false /\
  w1 = set_disk (fold_right (fun p d => <[p := Directory]> d) (disk w)
                   (service.chain (String.length dir) dir)) w.
Proof.
  unfold service.EnsureDir in Hmk.
  destruct (fails e OsMkdirAll); [discriminate |].
  destruct (negb (os.valid_path dir)); [discriminate |].
  destruct (existsb _ _); [discriminate |].
  split; [reflexivity | congruence].
Qed.

Lemma EnsureDir_tables :
  files w1 = files w /\ buckets w1 = buckets w /\ logs w1 = logs w /\
  lastFileID w1 = lastFileID w /\ lastBucketID w1 = lastBucketID w.
Proof. destruct EnsureDir_inv as [_ ->]. repeat split. Qed.

Lemma EnsureDir_no_new_file : no_new_file (disk w) (disk w1).
Proof. destruct EnsureDir_inv as [_ ->]. cbn. apply no_new_file_mkdirs. Qed.

Lemma EnsureDir_keeps_regular q c :
  disk w !! q = Some (Regular c) -> disk w1 !! q = Some (Regular c).
Proof.
  destruct EnsureDir_inv as [Hex ->]. cbn. now apply mkdirs_keep_regular.
Qed.
End EnsureDir.

Section Create.
Variables (e : Env) (name : string) (w1 w2 : World).
Hypothesis Hcr : os.Create e name w1 = (None, w2).

Lemma Create_inv : w2 = set_disk (<[name := Regular []]> (disk w1)) w1.
Proof.
  unfold os.Create in Hcr.
  destruct (fails e OsCreate); [discriminate |].
  destruct (negb (os.valid_path name)); [discriminate |].
  destruct (negb (os.is_dir _ _)); [discriminate |].
  destruct (os.is_dir _ name); [discriminate |]. congruence.
Qed.

Lemma Create_tables :
  files w2 = files w1 /\ buckets w2 = buckets w1 /\ logs w2 = logs w1 /\
  lastFileID w2 = lastFileID w1 /\ lastBucketID w2 = lastBucketID w1.
Proof. rewrite Create_inv. repeat split. Qed.

Lemma Create_disk : disk w2 = <[name := Regular []]> (disk w1).
Proof. rewrite Create_inv. reflexivity. Qed.
End Create.

Lemma Create_failed_same e name w1 err w2 :
  os.Create e name w1 = (Some err, w2) -> w2 = w1.
Proof.
  unfold os.Create.
  destruct (fails e OsCreate); [congruence |].
  destruct (negb (os.valid_path name)); [congruence |].
  destruct (negb (os.is_dir _ _)); [congruence |].
  destruct (os.is_dir _ name); [congruence | discriminate].
Qed.

Lemma EnsureDir_failed_same e dir w err w1 :
  service.EnsureDir e dir w = (Some err, w1) -> w1 = w.
Proof.
  unfold service.EnsureDir.
  destruct (fails e OsMkdirAll); [congruence |].
  destruct (negb (os.valid_path dir)); [congruence |].
  destruct (existsb _ _); [congruence | discriminate].
Qed.

(** Removing the file that was just written leaves nothing at its path. *)
Lemma Remove_written e (w : World) name c l m :
  fails e OsRemove = false ->
  disk w !! name = Some (Regular c) ->
  disk (snd (os.Remove e name (log l m w))) = delete name (disk w).
Proof. intros He H. unfold os.Remove. rewrite He. cbn. rewrite H. reflexivity. Qed.

(** ** [UploadFile] once the destination file is open *)

Ltac proj_simpl :=
  cbn [fst snd disk files logs buckets lastFileID lastBucketID
       set_disk set_files set_buckets log status headers body].

Ltac proj_simpl_all :=
  cbn [fst snd disk files logs buckets lastFileID lastBucketID
       set_disk set_files set_buckets log status headers body] in *.

Ltac open_native Hop :=
  let Hu := fresh "Hu" in let Hid := fresh "Hid" in let Hform := fresh "Hform" in
  let Hname := fresh "Hname" in let b := fresh "b" in let Hb := fresh "Hb" in
  let Hden := fresh "Hden" in let Hex := fresh "Hex" in let w1 := fresh "w1" in
  let Hmk := fresh "Hmk" in let Hcr := fresh "Hcr" in
  destruct Hop as (Hu & Hid & Hform & Hname & (b & Hb & Hden) & Hex & w1 & Hmk & Hcr);
  unfold UploadFile; rewrite Hu, Hid;
  change (BucketRepository.GetByID ?e0 (log _ _ ?w0) ?i)
    with (BucketRepository.GetByID e0 w0 i);
  rewrite Hb, Hden, Hform;
  apply String.eqb_neq in Hname; rewrite Hname;
  change (FileRepository.GetByName ?e0 (log _ _ ?w0) ?i ?nm)
    with (FileRepository.GetByName e0 w0 i nm);
  rewrite Hex;
  unfold filePathOf, storageDirOf in Hmk, Hcr; rewrite Hmk, Hcr;
  pose proof (EnsureDir_tables _ _ _ _ Hmk) as (? & ? & ? & ? & ?);
  pose proof (Create_tables _ _ _ _ Hcr) as (? & ? & ? & ? & ?);
  pose proof (Create_disk _ _ _ _ Hcr);
  proj_simpl_all.

Ltac settle := repeat split; first [reflexivity | congruence].

Section NativePut.
Variables (e : Env) (r : Request) (w : World) (u : User.t) (bucketID : Z)
  (header : FileHeader) (existing : option File.t) (w2 : World).
Hypothesis Hop : NativePutOpened e r w u bucketID header existing w2.

Let p := filePathOf e (User.ID u) bucketID (Filename header).
Let dbFile :=
  newFile bucketID (Filename header) p (defaultContentType (PartContentType header))
    (Z.of_nat (length (part header))) (md5.hexdigest (part header)) (User.ID u).

Lemma NativePut_world :
  files w2 = files w /\ buckets w2 = buckets w /\ lastFileID w2 = lastFileID w /\
  lastBucketID w2 = lastBucketID w /\
  logs w2 = (logs w ++ [ {| level := DebugLevel; message := "Upload file endpoint called" |} ])%list /\
  no_new_file (disk w) (delete p (disk w2)).
Proof.
  destruct Hop as (Hu & Hid & Hform & Hname & (b & Hb & Hden) & Hex & w1 & Hmk & Hcr).
  pose proof (EnsureDir_tables _ _ _ _ Hmk) as (? & ? & ? & ? & ?).
  pose proof (Create_tables _ _ _ _ Hcr) as (? & ? & ? & ? & ?).
  proj_simpl_all.
  split; [congruence |]. split; [congruence |]. split; [congruence |].
  split; [congruence |]. split; [congruence |].
  rewrite (Create_disk _ _ _ _ Hcr). fold p. rewrite delete_insert_eq.
  eapply no_new_file_trans; [| apply no_new_file_delete].
  apply (EnsureDir_no_new_file _ _ _ _ Hmk).
Qed.

(** The copy stops with an error: the removal of the file is called for,
    the error logged and [500] answered; no metadata is written. *)
Lemma UploadFile_copy_failed n :
  copy_fails_after e = Some n ->
  exists w',
    UploadFile e r w = (WriteJSON StatusInternalServerError (ErrorMessage "Failed to save file"), w')
    /\ disk w' = unlinked e p (firstn n (part header)) (disk w2)
    /\ files w' = files w /\ buckets w' = buckets w
    /\ lastFileID w' = lastFileID w
    /\ logs w' = (logs w2 ++ [ {| level := ErrorLevel; message := "Failed to save file" |} ])%list.
Proof.
  intros Hn. open_native Hop.
  unfold io.Copy. rewrite Hn. proj_simpl.
  unfold os.Remove, unlinked. destruct (fails e OsRemove); proj_simpl.
  - eexists. split; [reflexivity |]. proj_simpl. settle.
  - rewrite lookup_insert_eq. proj_simpl.
    eexists. split; [reflexivity |]. proj_simpl.
    rewrite delete_insert_eq. settle.
Qed.

(** The copy succeeds and the name had a row: the row is updated. *)
Lemma UploadFile_updated ex :
  existing = Some ex ->
  copy_fails_after e = None -> fails e FileUpdate = false ->
  exists w',
    UploadFile e r w =
      (WriteJSON StatusOK (FileObject (fileJSON (File.with_ID (File.ID ex) dbFile))), w')
    /\ disk w' = <[p := Regular (part header)]> (disk w2)
    /\ files w' = FileRepository.updated e (File.with_ID (File.ID ex) dbFile) (files w)
    /\ buckets w' = buckets w /\ lastFileID w' = lastFileID w.
Proof.
  intros -> Hn Hf. open_native Hop.
  unfold io.Copy. rewrite Hn. proj_simpl.
  unfold FileRepository.Update. rewrite Hf. proj_simpl.
  eexists. split; [reflexivity |]. proj_simpl.
  repeat split; try reflexivity; try congruence.
  replace (files w2) with (files w) by congruence. reflexivity.
Qed.

(** The copy succeeds, the name had a row, the update fails: the error is
    logged, the removal of the file called for and [500] answered. *)
Lemma UploadFile_update_failed ex :
  existing = Some ex ->
  copy_fails_after e = None -> fails e FileUpdate = true ->
  exists w',
    UploadFile e r w =
      (WriteJSON StatusInternalServerError (ErrorMessage "Failed to save file metadata"), w')
    /\ disk w' = unlinked e p (part header) (disk w2) /\ files w' = files w
    /\ logs w' = (logs w2 ++ [ {| level := ErrorLevel; message := "Failed to update file" |} ])%list
    /\ buckets w' = buckets w /\ lastFileID w' = lastFileID w.
Proof.
  intros -> Hn Hf. open_native Hop.
  unfold io.Copy. rewrite Hn. proj_simpl.
  unfold FileRepository.Update. rewrite Hf. proj_simpl.
  unfold os.Remove, unlinked. destruct (fails e OsRemove); proj_simpl.
  - eexists. split; [reflexivity |]. proj_simpl. settle.
  - rewrite lookup_insert_eq. proj_simpl.
    eexists. split; [reflexivity |]. proj_simpl.
    rewrite delete_insert_eq. settle.
Qed.

(** The copy succeeds and the name had no row: a row is inserted. *)
Lemma UploadFile_created :
  existing = None ->
  copy_fails_after e = None -> fails e FileInsert = false ->
  exists w',
    UploadFile e r w =
      (WriteJSON StatusOK (FileObject (fileJSON (File.with_ID (lastFileID w + 1) dbFile))), w')
    /\ disk w' = <[p := Regular (part header)]> (disk w2)
    /\ files w' = (files w ++ [ FileRepository.inserted e (lastFileID w + 1) dbFile ])%list
    /\ buckets w' = buckets w /\ lastFileID w' = lastFileID w + 1.
Proof.
  intros Hnone Hn Hf. revert Hop. rewrite Hnone. intros Hop'. open_native Hop'.
  unfold io.Copy. rewrite Hn. proj_simpl.
  unfold FileRepository.Create. rewrite Hf. proj_simpl.
  replace (lastFileID w2) with (lastFileID w) by congruence.
  replace (files w2) with (files w) by congruence.
  eexists. split; [reflexivity |]. proj_simpl. settle.
Qed.

(** The copy succeeds, the name had no row, the insert fails. *)
Lemma UploadFile_create_failed :
  existing = None ->
  copy_fails_after e = None -> fails e FileInsert = true ->
  exists w',
    UploadFile e r w =
      (WriteJSON StatusInternalServerError (ErrorMessage "Failed to save file metadata"), w')
    /\ disk w' = unlinked e p (part header) (disk w2) /\ files w' = files w
    /\ logs w' = (logs w2 ++ [ {| level := ErrorLevel; message := "Failed to create file" |} ])%list
    /\ buckets w' = buckets w /\ lastFileID w' = lastFileID w.
Proof.
  intros Hnone Hn Hf. revert Hop. rewrite Hnone. intros Hop'. open_native Hop'.
  unfold io.Copy. rewrite Hn. proj_simpl.
  unfold FileRepository.Create. rewrite Hf. proj_simpl.
  unfold os.Remove, unlinked. destruct (fails e OsRemove); proj_simpl.
  - eexists. split; [reflexivity |]. proj_simpl. settle.
  - rewrite lookup_insert_eq. proj_simpl.
    eexists. split; [reflexivity |]. proj_simpl.
    rewrite delete_insert_eq. settle.
Qed.
End NativePut.

(** ** [S3PutObject] once the destination file is open *)

Ltac open_s3 Hop :=
  let Hu := fresh "Hu" in let Hbn := fresh "Hbn" in let Hkey := fresh "Hkey" in
  let Hb := fresh "Hb" in let Hden := fresh "Hden" in let w1 := fresh "w1" in
  let Hmk := fresh "Hmk" in let Hcr := fresh "Hcr" in
  destruct Hop as (Hu & Hbn & Hkey & Hb & Hden & w1 & Hmk & Hcr);
  unfold S3PutObject; rewrite Hu;
  apply String.eqb_neq in Hbn; apply String.eqb_neq in Hkey;
  rewrite Hbn, Hkey; cbn [orb];
  change (BucketRepository.GetByName ?e0 (log _ _ ?w0) ?nm ?i)
    with (BucketRepository.GetByName e0 w0 nm i);
  rewrite Hb, Hden;
  unfold filePathOf, storageDirOf in Hmk, Hcr; rewrite Hmk, Hcr;
  pose proof (EnsureDir_tables _ _ _ _ Hmk) as (? & ? & ? & ? & ?);
  pose proof (Create_tables _ _ _ _ Hcr) as (? & ? & ? & ? & ?);
  pose proof (Create_disk _ _ _ _ Hcr);
  proj_simpl_all.

Section S3Put.
Variables (e : Env) (r : S3Request) (w : World) (u : User.t) (b : Bucket.t) (w2 : World).
Hypothesis Hop : S3PutOpened e r w u b w2.

Let p := filePathOf e (User.ID u) (Bucket.ID b) (objectKey r).
Let dbFile :=
  newFile (Bucket.ID b) (objectKey r) p (defaultContentType (contentType r))
    (Z.of_nat (length (payload r))) (md5.hexdigest (payload r)) (User.ID u).

Lemma S3Put_world :
  files w2 = files w /\ buckets w2 = buckets w /\ lastFileID w2 = lastFileID w /\
  lastBucketID w2 = lastBucketID w /\
  logs w2 = (logs w ++ [ {| level := DebugLevel; message := "S3 put object endpoint called" |} ])%list /\
  no_new_file (disk w) (delete p (disk w2)).
Proof.
  destruct Hop as (Hu & Hbn & Hkey & Hb & Hden & w1 & Hmk & Hcr).
  pose proof (EnsureDir_tables _ _ _ _ Hmk) as (? & ? & ? & ? & ?).
  pose proof (Create_tables _ _ _ _ Hcr) as (? & ? & ? & ? & ?).
  proj_simpl_all.
  split; [congruence |]. split; [congruence |]. split; [congruence |].
  split; [congruence |]. split; [congruence |].
  rewrite (Create_disk _ _ _ _ Hcr). fold p. rewrite delete_insert_eq.
  eapply no_new_file_trans; [| apply no_new_file_delete].
  apply (EnsureDir_no_new_file _ _ _ _ Hmk).
Qed.

(** The copy stops with an error: the file is removed, the error logged
    and [500] answered; no metadata is written. *)
Lemma S3PutObject_copy_failed n :
  copy_fails_after e = Some n ->
  exists w',
    S3PutObject e r w = (WriteHeader [] StatusInternalServerError, w')
    /\ disk w' = unlinked e p (firstn n (payload r)) (disk w2)
    /\ files w' = files w /\ buckets w' = buckets w
    /\ lastFileID w' = lastFileID w
    /\ logs w' = (logs w2 ++ [ {| level := ErrorLevel; message := "Failed to save file" |} ])%list.
Proof.
  intros Hn. open_s3 Hop.
  unfold io.Copy. rewrite Hn. proj_simpl.
  unfold os.Remove, unlinked. destruct (fails e OsRemove); proj_simpl.
  - eexists. split; [reflexivity |]. proj_simpl. settle.
  - rewrite lookup_insert_eq. proj_simpl.
    eexists. split; [reflexivity |]. proj_simpl.
    rewrite delete_insert_eq. settle.
Qed.

(** The copy succeeds: whatever the metadata write does, the answer is
    [200] with the quoted digest, and nothing is logged. *)
Lemma S3PutObject_copied :
  copy_fails_after e = None ->
  exists w',
    S3PutObject e r w =
      (WriteHeader [("ETag", quoted (md5.hexdigest (payload r)))] StatusOK, w')
    /\ disk w' = <[p := Regular (payload r)]> (disk w2)
    /\ buckets w' = buckets w /\ logs w' = logs w2
    /\ lastFileID w' = (match s3_existing e r w b with
                        | Some _ => lastFileID w
                        | None => if fails e FileInsert then lastFileID w else lastFileID w + 1
                        end)
    /\ files w' =
         match s3_existing e r w b with
         | Some ex =>
             if fails e FileUpdate then files w
             else FileRepository.updated e (File.with_ID (File.ID ex) dbFile) (files w)
         | None =>
             if fails e FileInsert then files w
             else (files w ++ [ FileRepository.inserted e (lastFileID w + 1) dbFile ])%list
         end.
Proof.
  intros Hn. open_s3 Hop.
  unfold io.Copy. rewrite Hn. proj_simpl.
  unfold FileRepository.GetByName, s3_existing. proj_simpl.
  replace (files w2) with (files w) by congruence.
  destruct (fails e FileQuery).
  - unfold FileRepository.Create. destruct (fails e FileInsert); proj_simpl.
    + eexists. split; [reflexivity |]. proj_simpl. settle.
    + replace (lastFileID w2) with (lastFileID w) by congruence.
      replace (files w2) with (files w) by congruence.
      eexists. split; [reflexivity |]. proj_simpl. settle.
  - destruct (find _ (files w)) as [ex|].
    + unfold FileRepository.Update. destruct (fails e FileUpdate); proj_simpl.
      * eexists. split; [reflexivity |]. proj_simpl. settle.
      * replace (files w2) with (files w) by congruence.
        eexists. split; [reflexivity |]. proj_simpl. settle.
    + unfold FileRepository.Create. destruct (fails e FileInsert); proj_simpl.
      * eexists. split; [reflexivity |]. proj_simpl. settle.
      * replace (lastFileID w2) with (lastFileID w) by congruence.
        replace (files w2) with (files w) by congruence.
        eexists. split; [reflexivity |]. proj_simpl. settle.
Qed.
End S3Put.

(** ** A copy that fails *)

Lemma error_logged_last (w w' : World) (pre : list LogEntry) m :
  logs w' = ((logs w ++ pre) ++ [ {| level := ErrorLevel; message := m |} ])%list ->
  error_logged w w'.
Proof.
  intros H. exists m, (pre ++ [ {| level := ErrorLevel; message := m |} ])%list.
  split; [now rewrite H, <- app_assoc | apply in_or_app; right; left; reflexivity].
Qed.

Lemma turned_down_early w c hs m l :
  c <> StatusOK ->
  turned_down w ({| status := c; headers := hs; body := m |}, log DebugLevel l w).
Proof. intros Hc. repeat split; [exact Hc | apply no_new_file_refl]. Qed.

Lemma turned_down_logged w c hs m l l' :
  c <> StatusOK ->
  turned_down w ({| status := c; headers := hs; body := m |},
                 log ErrorLevel l' (log DebugLevel l w)).
Proof. intros Hc. repeat split; [exact Hc | apply no_new_file_refl]. Qed.

Ltac early := first [apply turned_down_early | apply turned_down_logged]; discriminate.

(** A native put either opens its destination file or is turned down. *)
Lemma UploadFile_cases e r w :
  (exists u bucketID header existing w2,
     NativePutOpened e r w u bucketID header existing w2) \/
  turned_down w (UploadFile e r w).
Proof.
  unfold UploadFile.
  destruct (user r) as [u|] eqn:Hu; [| right; early].
  destruct (bucketId r) as [bucketID|] eqn:Hid; [| right; early].
  change (BucketRepository.GetByID e (log _ _ w) bucketID)
    with (BucketRepository.GetByID e w bucketID).
  destruct (BucketRepository.GetByID e w bucketID) as [[b|]|err] eqn:Hb;
    [| right; early ..].
  destruct (denied b u) eqn:Hden; [right; early |].
  destruct (form r) as [[header|]|] eqn:Hform; [| right; early ..].
  destruct (String.eqb_spec (Filename header) "") as [Hempty|Hname]; [right; early |].
  change (FileRepository.GetByName e (log _ _ w) bucketID (Filename header))
    with (FileRepository.GetByName e w bucketID (Filename header)).
  destruct (FileRepository.GetByName e w bucketID (Filename header))
    as [existing|err] eqn:Hex; [| right; early].
  destruct (service.EnsureDir e _ (log DebugLevel "Upload file endpoint called" w))
    as [[err|] w1] eqn:Hmk.
  { right. pose proof (EnsureDir_failed_same _ _ _ _ _ Hmk) as ->. early. }
  destruct (os.Create e _ w1) as [[err|] w2] eqn:Hcr.
  { right. pose proof (Create_failed_same _ _ _ _ _ Hcr) as ->.
    pose proof (EnsureDir_tables _ _ _ _ Hmk) as (Hf & Hbk & _ & Hl & _).
    pose proof (EnsureDir_no_new_file _ _ _ _ Hmk) as Hnn.
    repeat split; proj_simpl; [discriminate | exact Hf | exact Hbk | exact Hl | exact Hnn]. }
  left. exists u, bucketID, header, existing, w2.
  repeat split; try assumption; [exists b; split; assumption | exists w1; split; assumption].
Qed.

(** An S3 put either opens its destination file or is turned down. *)
Lemma S3PutObject_cases e r w :
  (exists u b w2, S3PutOpened e r w u b w2) \/ turned_down w (S3PutObject e r w).
Proof.
  unfold S3PutObject.
  destruct (s3user r) as [u|] eqn:Hu; [| right; early].
  destruct (String.eqb_spec (bucketName r) "") as [Hbn|Hbn]; [right; early |].
  destruct (String.eqb_spec (objectKey r) "") as [Hkey|Hkey]; [right; early |].
  cbn [orb].
  change (BucketRepository.GetByName e (log _ _ w) (bucketName r) (User.ID u))
    with (BucketRepository.GetByName e w (bucketName r) (User.ID u)).
  destruct (BucketRepository.GetByName e w (bucketName r) (User.ID u))
    as [[b|]|err] eqn:Hb; [| right; early ..].
  destruct (denied b u) eqn:Hden; [right; early |].
  destruct (service.EnsureDir e _ (log DebugLevel "S3 put object endpoint called" w))
    as [[err|] w1] eqn:Hmk.
  { right. pose proof (EnsureDir_failed_same _ _ _ _ _ Hmk) as ->. early. }
  destruct (os.Create e _ w1) as [[err|] w2] eqn:Hcr.
  { right. pose proof (Create_failed_same _ _ _ _ _ Hcr) as ->.
    pose proof (EnsureDir_tables _ _ _ _ Hmk) as (Hf & Hbk & _ & Hl & _).
    pose proof (EnsureDir_no_new_file _ _ _ _ Hmk) as Hnn.
    repeat split; proj_simpl; [discriminate | exact Hf | exact Hbk | exact Hl | exact Hnn]. }
  left. exists u, b, w2.
  repeat split; try assumption. exists w1; split; assumption.
Qed.

(** The disk [os.Remove] leaves, by the outcome of the removal. *)
Lemma unlinked_gone e p c d : fails e OsRemove = false -> unlinked e p c d = delete p d.
Proof. intros H. unfold unlinked. now rewrite H. Qed.

Lemma unlinked_stays e p c d :
  fails e OsRemove = true -> unlinked e p c d = <[p := Regular c]> d.
Proof. intros H. unfold unlinked. now rewrite H. Qed.

(** Whatever the request, a put under a failing copy is not answered
    [200] and writes no metadata; with the removal of files working it
    leaves no regular file on disk that was not there before with the same
    content. *)
Lemma UploadFile_under_failing_copy e r w n :
  copy_fails_after e = Some n ->
  status (fst (UploadFile e r w)) <> StatusOK /\
  files (snd (UploadFile e r w)) = files w /\
  buckets (snd (UploadFile e r w)) = buckets w /\
  lastFileID (snd (UploadFile e r w)) = lastFileID w /\
  (fails e OsRemove = false -> no_new_file (disk w) (disk (snd (UploadFile e r w)))).
Proof.
  intros Hn.
  destruct (UploadFile_cases e r w) as [(u & bucketID & header & existing & w2 & Hop) | H].
  - destruct (UploadFile_copy_failed _ _ _ _ _ _ _ _ Hop n Hn)
      as (w' & -> & Hd & Hf & Hb & Hl & _).
    repeat split; proj_simpl; [discriminate | exact Hf | exact Hb | exact Hl |].
    intros Hrm. rewrite Hd, (unlinked_gone _ _ _ _ Hrm).
    apply (NativePut_world _ _ _ _ _ _ _ _ Hop).
  - destruct H as (H1 & H2 & H3 & H4 & H5). repeat split; auto.
Qed.

Lemma S3PutObject_under_failing_copy e r w n :
  copy_fails_after e = Some n ->
  status (fst (S3PutObject e r w)) <> StatusOK /\
  files (snd (S3PutObject e r w)) = files w /\
  buckets (snd (S3PutObject e r w)) = buckets w /\
  lastFileID (snd (S3PutObject e r w)) = lastFileID w /\
  (fails e OsRemove = false -> no_new_file (disk w) (disk (snd (S3PutObject e r w)))).
Proof.
  intros Hn.
  destruct (S3PutObject_cases e r w) as [(u & b & w2 & Hop) | H].
  - destruct (S3PutObject_copy_failed _ _ _ _ _ _ Hop n Hn)
      as (w' & -> & Hd & Hf & Hb & Hl & _).
    repeat split; proj_simpl; [discriminate | exact Hf | exact Hb | exact Hl |].
    intros Hrm. rewrite Hd, (unlinked_gone _ _ _ _ Hrm).
    apply (S3Put_world _ _ _ _ _ _ Hop).
  - destruct H as (H1 & H2 & H3 & H4 & H5). repeat split; auto.
Qed.

(** C9, as amended: when the copy of the content to disk stops with an
    error, whatever the request, the put is not answered [200] and writes
    no metadata row.  A handler that had opened its destination calls for
    the removal of the file, logs the error and answers [500]: when the
    removal works nothing is left at the destination, and the put leaves
    on disk no regular file that was not already there with the same
    content; when the removal fails, its error is not looked at and the
    destination keeps the bytes copied so far. *)
Theorem failed_copy_removes_partial_file e n :
  copy_fails_after e = Some n ->
  (forall r w,
     status (fst (UploadFile e r w)) <> StatusOK /\
     files (snd (UploadFile e r w)) = files w /\
     (fails e OsRemove = false -> turned_down w (UploadFile e r w))) /\
  (forall r w,
     status (fst (S3PutObject e r w)) <> StatusOK /\
     files (snd (S3PutObject e r w)) = files w /\
     (fails e OsRemove = false -> turned_down w (S3PutObject e r w))) /\
  (forall r w u bucketID header existing w2,
     NativePutOpened e r w u bucketID header existing w2 ->
     let path := filePathOf e (User.ID u) bucketID (Filename header) in
     fst (UploadFile e r w)
       = WriteJSON StatusInternalServerError (ErrorMessage "Failed to save file") /\
     error_logged w (snd (UploadFile e r w)) /\
     (fails e OsRemove = false -> disk (snd (UploadFile e r w)) !! path = None) /\
     (fails e OsRemove = true ->
      disk (snd (UploadFile e r w)) !! path = Some (Regular (firstn n (part header))))) /\
  (forall r w u b w2,
     S3PutOpened e r w u b w2 ->
     let path := filePathOf e (User.ID u) (Bucket.ID b) (objectKey r) in
     fst (S3PutObject e r w) = WriteHeader [] StatusInternalServerError /\
     error_logged w (snd (S3PutObject e r w)) /\
     (fails e OsRemove = false -> disk (snd (S3PutObject e r w)) !! path = None) /\
     (fails e OsRemove = true ->
      disk (snd (S3PutObject e r w)) !! path = Some (Regular (firstn n (payload r))))).
Proof.
  intros Hn. split; [| split; [| split]].
  - intros r w.
    destruct (UploadFile_under_failing_copy e r w n Hn) as (H1 & H2 & H3 & H4 & H5).
    split; [exact H1 |]. split; [exact H2 |].
    intros Hrm. repeat split; auto.
  - intros r w.
    destruct (S3PutObject_under_failing_copy e r w n Hn) as (H1 & H2 & H3 & H4 & H5).
    split; [exact H1 |]. split; [exact H2 |].
    intros Hrm. repeat split; auto.
  - intros r w u bucketID header existing w2 Hop path. subst path.
    destruct (UploadFile_copy_failed _ _ _ _ _ _ _ _ Hop n Hn) as (w' & -> & Hd & _ & _ & _ & Hl).
    destruct (NativePut_world _ _ _ _ _ _ _ _ Hop) as (_ & _ & _ & _ & Hl2 & _).
    proj_simpl. split; [reflexivity | split; [| split]].
    + eapply error_logged_last. rewrite Hl, Hl2. reflexivity.
    + intros Hrm. rewrite Hd, (unlinked_gone _ _ _ _ Hrm). apply lookup_delete_eq.
    + intros Hrm. rewrite Hd, (unlinked_stays _ _ _ _ Hrm). apply lookup_insert_eq.
  - intros r w u b w2 Hop path. subst path.
    destruct (S3PutObject_copy_failed _ _ _ _ _ _ Hop n Hn) as (w' & -> & Hd & _ & _ & _ & Hl).
    destruct (S3Put_world _ _ _ _ _ _ Hop) as (_ & _ & _ & _ & Hl2 & _).
    proj_simpl. split; [reflexivity | split; [| split]].
    + eapply error_logged_last. rewrite Hl, Hl2. reflexivity.
    + intros Hrm. rewrite Hd, (unlinked_gone _ _ _ _ Hrm). apply lookup_delete_eq.
    + intros Hrm. rewrite Hd, (unlinked_stays _ _ _ _ Hrm). apply lookup_insert_eq.
Qed.

Lemma failed_copy_removes_partial_file_witness :
  let e := Scenario.stormy 100 in
  let rn := Scenario.upload Scenario.alice 2 "a.txt" "text/plain" "hello" in
  let rs := Scenario.s3 Scenario.alice "pub" "a.txt" "text/plain" "hello" in
  (fst (UploadFile e rn Scenario.fresh)
     = WriteJSON StatusInternalServerError (ErrorMessage "Failed to save file") /\
   error_logged Scenario.fresh (snd (UploadFile e rn Scenario.fresh)) /\
   disk (snd (UploadFile e rn Scenario.fresh)) !! filePathOf e 1 2 "a.txt" = None) /\
  (fst (S3PutObject e rs Scenario.fresh) = WriteHeader [] StatusInternalServerError /\
   error_logged Scenario.fresh (snd (S3PutObject e rs Scenario.fresh)) /\
   disk (snd (S3PutObject e rs Scenario.fresh)) !! filePathOf e 1 2 "a.txt" = None).
Proof.
  intros e rn rs.
  destruct (failed_copy_removes_partial_file e 2%nat eq_refl) as (_ & _ & Hnative & Hs3).
  split.
  - destruct (Hnative rn Scenario.fresh Scenario.alice 2
                {| Filename := "a.txt"; PartContentType := "text/plain";
                   part := bytes_of "hello" |}
                None (Scenario.opened e Scenario.alice 2 "a.txt" Scenario.fresh))
      as (H1 & H2 & H3 & _).
    + split; [reflexivity |]. split; [reflexivity |]. split; [reflexivity |].
      split; [discriminate |].
      split; [exists Scenario.pub_bucket; split; reflexivity |].
      split; [reflexivity |].
      eexists. split; vm_compute; reflexivity.
    + split; [exact H1 |]. split; [exact H2 | exact (H3 eq_refl)].
  - destruct (Hs3 rs Scenario.fresh Scenario.alice Scenario.pub_bucket
                (Scenario.s3opened e Scenario.alice 2 "a.txt" Scenario.fresh))
      as (H1 & H2 & H3 & _).
    + split; [reflexivity |]. split; [discriminate |]. split; [discriminate |].
      split; [reflexivity |]. split; [reflexivity |].
      eexists. split; vm_compute; reflexivity.
    + split; [exact H1 |]. split; [exact H2 | exact (H3 eq_refl)].
Defined.

(** C9 as stated fails: the copy of Alice's upload breaks after two bytes
    and the removal of the file fails as well.  Both handlers answer
    [500], and the destination is left on disk with the two bytes. *)
Lemma failed_copy_leaves_truncated_file_counterexample :
  let e := Scenario.stuck 100 in
  let rn := Scenario.upload Scenario.alice 2 "a.txt" "text/plain" "hello" in
  let rs := Scenario.s3 Scenario.alice "pub" "a.txt" "text/plain" "hello" in
  Scenario.fresh.(disk) !! "storage/1/2/a.txt" = None /\
  (status (fst (UploadFile e rn Scenario.fresh)) = StatusInternalServerError /\
   disk (snd (UploadFile e rn Scenario.fresh)) !! "storage/1/2/a.txt"
     = Some (Regular (bytes_of "he"))) /\
  (status (fst (S3PutObject e rs Scenario.fresh)) = StatusInternalServerError /\
   disk (snd (S3PutObject e rs Scenario.fresh)) !! "storage/1/2/a.txt"
     = Some (Regular (bytes_of "he"))).
Proof.
  intros e rn rs.
  split; [reflexivity |].
  split; (split; vm_compute; reflexivity).
Qed.

(** ** Storage errors during a put *)

(** On the native adapter a put is answered [200] only after its metadata
    write went through: a failing insert or update gives [500] and an
    error in the log. *)
Lemma UploadFile_metadata_error_surfaced e r w u bucketID header existing w2 :
  NativePutOpened e r w u bucketID header existing w2 ->
  copy_fails_after e = None ->
  fails e (match existing with Some _ => FileUpdate | None => FileInsert end) = true ->
  fst (UploadFile e r w)
    = WriteJSON StatusInternalServerError (ErrorMessage "Failed to save file metadata") /\
  error_logged w (snd (UploadFile e r w)) /\
  files (snd (UploadFile e r w)) = files w.
Proof.
  intros Hop Hn Hf.
  destruct (NativePut_world _ _ _ _ _ _ _ _ Hop) as (_ & _ & _ & _ & Hl2 & _).
  destruct existing as [ex|].
  - destruct (UploadFile_update_failed _ _ _ _ _ _ _ _ Hop ex eq_refl Hn Hf)
      as (w' & -> & _ & Hfiles & Hl & _).
    proj_simpl. split; [reflexivity | split; [| exact Hfiles]].
    eapply error_logged_last. rewrite Hl, Hl2. reflexivity.
  - destruct (UploadFile_create_failed _ _ _ _ _ _ _ _ Hop eq_refl Hn Hf)
      as (w' & -> & _ & Hfiles & Hl & _).
    proj_simpl. split; [reflexivity | split; [| exact Hfiles]].
    eapply error_logged_last. rewrite Hl, Hl2. reflexivity.
Qed.

(** On the S3 adapter the same failure goes unnoticed: once the copy is
    done the answer is [200] and the log gets no entry, whether or not the
    lookup, the insert or the update failed. *)
Lemma S3PutObject_metadata_error_dropped e r w u b w2 :
  S3PutOpened e r w u b w2 ->
  copy_fails_after e = None ->
  fails e (match s3_existing e r w b with Some _ => FileUpdate | None => FileInsert end) = true ->
  status (fst (S3PutObject e r w)) = StatusOK /\
  files (snd (S3PutObject e r w)) = files w /\
  logs (snd (S3PutObject e r w))
    = (logs w ++ [ {| level := DebugLevel; message := "S3 put object endpoint called" |} ])%list.
Proof.
  intros Hop Hn Hf.
  destruct (S3Put_world _ _ _ _ _ _ Hop) as (_ & _ & _ & _ & Hl2 & _).
  destruct (S3PutObject_copied _ _ _ _ _ _ Hop Hn) as (w' & -> & _ & _ & Hl & _ & Hfiles).
  proj_simpl. split; [reflexivity |]. split; [| congruence].
  rewrite Hfiles. destruct (s3_existing e r w b); rewrite Hf; reflexivity.
Qed.

(** C8, the defect: Alice puts [hello] under [pub/a.txt] through the S3
    adapter while the metadata insert fails.  The answer is [200] with an
    ETag, no row is written and the log has no error entry; the second
    run has the update of an existing row fail, with the same answer and
    the stale row left in place.  The native adapter answers [500] to the
    same two puts and logs the error. *)
Theorem s3_put_answers_ok_on_metadata_failure :
  let put := Scenario.s3 Scenario.alice "pub" "a.txt" "text/plain" "hello world" in
  let ins := S3PutObject (Scenario.failing FileInsert 100) put Scenario.fresh in
  let upd := S3PutObject (Scenario.failing FileUpdate 102) put Scenario.stocked in
  let form := Scenario.upload Scenario.alice 2 "a.txt" "text/plain" "hello world" in
  (status (fst ins) = StatusOK /\
   headers (fst ins) = [("ETag", quoted "5eb63bbbe01eeed093cb22bb8f5acdc3")] /\
   files (snd ins) = [] /\
   Forall (fun entry => level entry <> ErrorLevel) (logs (snd ins))) /\
  (status (fst upd) = StatusOK /\
   files (snd upd) = files Scenario.stocked /\
   map File.ETag (List.filter (FileRepository.named 2 "a.txt") (files (snd upd)))
     = ["5d41402abc4b2a76b9719d911017c592"] /\
   disk (snd upd) !! "storage/1/2/a.txt" = Some (Regular (bytes_of "hello world")) /\
   Forall (fun entry => level entry <> ErrorLevel)
          (skipn (length (logs Scenario.stocked)) (logs (snd upd)))) /\
  (status (fst (UploadFile (Scenario.failing FileInsert 100) form Scenario.fresh))
     = StatusInternalServerError /\
   status (fst (UploadFile (Scenario.failing FileUpdate 102) form Scenario.stocked))
     = StatusInternalServerError).
Proof.
  cbv zeta. repeat split; try (vm_compute; reflexivity).
  - vm_compute. repeat constructor; discriminate.
  - vm_compute. repeat constructor; discriminate.
Qed.

(** ** Listing by prefix *)

Lemma like_percent s : sql.like "%" s = true.
Proof.
  induction s as [|c s IH]; [reflexivity |].
  change (sql.like "%" (String c s)) with (sql.like "" (String c s) || sql.like "%" s).
  rewrite IH. apply orb_true_r.
Qed.

Lemma like_percent_unfold pat s :
  sql.like (String "%"%char pat) s
  = sql.like pat s || match s with
                      | EmptyString => false
                      | String _ s' => sql.like (String "%"%char pat) s'
                      end.
Proof. destruct s; reflexivity. Qed.

Lemma like_char_unfold c pat s :
  wildcard c = false ->
  sql.like (String c pat) s
  = match s with
    | EmptyString => false
    | String d s' => Ascii.eqb (sql.fold c) (sql.fold d) && sql.like pat s'
    end.
Proof.
  unfold wildcard. intros H. apply orb_false_iff in H as [H1 H2].
  change (sql.like (String c pat) s)
    with ((if Ascii.eqb c "%"%char
           then fix any (s : string) : bool :=
                  sql.like pat s || match s with
                                    | EmptyString => false
                                    | String _ s' => any s'
                                    end
           else if Ascii.eqb c "_"%char
                then fun s => match s with
                              | EmptyString => false
                              | String _ s' => sql.like pat s'
                              end
                else fun s => match s with
                              | EmptyString => false
                              | String d s' =>
                                  Ascii.eqb (sql.fold c) (sql.fold d) && sql.like pat s'
                              end) s).
  rewrite H1, H2. reflexivity.
Qed.


Lemma prefix_fold_case p s :
  String.prefix p s = true -> String.prefix (sql.fold_case p) (sql.fold_case s) = true.
Proof.
  revert s. induction p as [|c p IH]; intros s Hp; [now destruct s |].
  destruct s as [|d s]; [discriminate |]. cbn [String.prefix sql.fold_case] in *.
  destruct (Ascii.ascii_dec c d) as [<-|]; [| discriminate].
  destruct (Ascii.ascii_dec (sql.fold c) (sql.fold c)); [now apply IH | contradiction].
Qed.

(** Whatever the prefix, every name that starts with it is matched. *)
Lemma like_prefix_complete p s :
  String.prefix p s = true -> sql.like (p +:+ "%") s = true.
Proof.
  revert s. induction p as [|c p IH]; intros s Hp.
  - apply like_percent.
  - destruct s as [|d s]; [discriminate |]. cbn [String.prefix] in Hp.
    destruct (Ascii.ascii_dec c d) as [<-|]; [| discriminate].
    change (String c p +:+ "%") with (String c (p +:+ "%")).
    destruct (wildcard c) eqn:Hw.
    + unfold wildcard in Hw. apply orb_true_iff in Hw as [Hc|Hc]; apply Ascii.eqb_eq in Hc; subst c.
      * rewrite like_percent_unfold. rewrite (like_percent_unfold _ s).
        rewrite (IH s Hp). cbn. apply orb_true_r.
      * cbn. now apply IH.
    + rewrite like_char_unfold by assumption. rewrite Ascii.eqb_refl. now apply IH.
Qed.

Example like5 : sql.like "A%" "ab.txt" = true.
Proof. reflexivity. Qed.

(** *** The order and the page of a listing *)

Lemma In_firstn {A} n (l : list A) x : In x (firstn n l) -> In x l.
Proof. intros H. rewrite <- (firstn_skipn n l). apply in_or_app. now left. Qed.

Lemma In_skipn {A} n (l : list A) x : In x (skipn n l) -> In x l.
Proof. intros H. rewrite <- (firstn_skipn n l). apply in_or_app. now right. Qed.

Section Ordering.
Context {A : Type} (key : A -> Z).

Let newer_first (a b : A) : Prop := key b <= key a.

Lemma insert_desc_perm x l : Permutation (sql.insert_desc key x l) (x :: l).
Proof.
  induction l as [|y l IH]; [reflexivity |]. cbn [sql.insert_desc].
  destruct (key x <? key y); [| reflexivity].
  rewrite IH. apply perm_swap.
Qed.

Lemma order_by_desc_perm l : Permutation (sql.order_by_desc key l) l.
Proof.
  induction l as [|x l IH]; [reflexivity |].
  cbn [sql.order_by_desc fold_right].
  change (fold_right (sql.insert_desc key) [] l) with (sql.order_by_desc key l).
  rewrite insert_desc_perm. now constructor.
Qed.

Lemma insert_desc_sorted x l :
  StronglySorted newer_first l -> StronglySorted newer_first (sql.insert_desc key x l).
Proof.
  induction l as [|y l IH]; intros Hs; [repeat constructor |].
  inversion Hs as [|? ? Hl Hy]; subst. cbn [sql.insert_desc].
  destruct (Z.ltb_spec (key x) (key y)) as [Hlt|Hge].
  - constructor; [now apply IH |].
    rewrite List.Forall_forall in *. intros z Hz.
    apply (Permutation_in _ (insert_desc_perm x l)) in Hz as [<-|Hz];
      [unfold newer_first; lia | now apply Hy].
  - constructor; [exact Hs |].
    constructor; [exact Hge |].
    apply (List.Forall_impl _ (P := newer_first y)); [| exact Hy].
    unfold newer_first. intros z Hz. lia.
Qed.

(** [ORDER BY created_at DESC] returns the same rows, newest first. *)
Lemma order_by_desc_sorted l : StronglySorted newer_first (sql.order_by_desc key l).
Proof.
  induction l as [|x l IH]; [constructor |].
  cbn [sql.order_by_desc fold_right]. now apply insert_desc_sorted.
Qed.

Lemma StronglySorted_skipn n l :
  StronglySorted newer_first l -> StronglySorted newer_first (skipn n l).
Proof.
  revert l. induction n as [|n IH]; intros l Hs; [exact Hs |].
  destruct l as [|x l]; [constructor |]. inversion Hs; subst. now apply IH.
Qed.

Lemma StronglySorted_firstn n l :
  StronglySorted newer_first l -> StronglySorted newer_first (firstn n l).
Proof.
  revert l. induction n as [|n IH]; intros l Hs; [constructor |].
  destruct l as [|x l]; [constructor |]. inversion Hs as [|? ? Hl Hx]; subst.
  cbn [firstn]. constructor; [now apply IH |].
  rewrite List.Forall_forall in *. intros z Hz. apply Hx.
  now apply In_firstn in Hz.
Qed.

(** A page is in the order of the listing and holds rows of it only. *)
Lemma limit_offset_sorted limit offset l :
  StronglySorted newer_first l -> StronglySorted newer_first (sql.limit_offset limit offset l).
Proof.
  intros Hs. unfold sql.limit_offset. cbv zeta. destruct (limit <? 0).
  - now apply StronglySorted_skipn.
  - now apply StronglySorted_firstn, StronglySorted_skipn.
Qed.
End Ordering.

Lemma limit_offset_In {A} limit offset (l : list A) x :
  In x (sql.limit_offset limit offset l) -> In x l.
Proof.
  unfold sql.limit_offset. cbv zeta. intros H. destruct (limit <? 0).
  - now apply In_skipn in H.
  - now apply In_firstn, In_skipn in H.
Qed.

Lemma limit_offset_all {A} limit (l : list A) :
  Z.of_nat (length l) <= limit -> sql.limit_offset limit 0 l = l.
Proof.
  intros H. unfold sql.limit_offset. cbn [Z.to_nat skipn].
  destruct (limit <? 0); [reflexivity |]. apply firstn_all2. lia.
Qed.


(** C6, the defect: Alice's bucket holds [ab.txt] and [a_b.txt].  Listing
    with the prefix [a_] returns both names, the newest first, although
    [ab.txt] does not start with [a_]: the underscore is read by [LIKE] as
    a pattern for any one character.  Both adapters pass the result on. *)
Theorem list_by_prefix_reads_wildcards :
  let e := Scenario.calm 102 in
  let w := Scenario.lettered in
  String.prefix "a_" "ab.txt" = false /\
  match FileRepository.ListByPrefix e w 1 "a_" 50 0 with
  | Ok fs => map File.Name fs = ["a_b.txt"; "ab.txt"]
  | Err _ => False
  end /\
  match body (fst (ListFiles e (Scenario.with_prefix Scenario.alice 1 "a_") w)) with
  | FilePage page _ _ _ => map json_name page = ["a_b.txt"; "ab.txt"]
  | _ => False
  end /\
  match body (fst (S3ListObjects e
                     {| s3user := Some Scenario.alice; bucketName := "logs"; objectKey := "";
                        contentType := ""; payload := []; s3prefix := "a_";
                        maxKeys := None |} w)) with
  | ListBucketXML res => map Key (Contents res) = ["a_b.txt"; "ab.txt"]
  | _ => False
  end.
Proof. cbv zeta. repeat split; vm_compute; reflexivity. Qed.

(** ** Public buckets *)

Lemma denied_public b u : Bucket.IsPublic b = true -> denied b u = false.
Proof. intros H. unfold denied. rewrite H. apply andb_false_r. Qed.

Lemma not_owner b u : Bucket.UserID b <> User.ID u -> (Bucket.UserID b =? User.ID u) = false.
Proof. intros H. now apply Z.eqb_neq. Qed.

(** The bucket a name resolves to on the S3 adapter belongs to the actor. *)
Lemma GetByName_owned e w name uid b :
  BucketRepository.GetByName e w name uid = Ok (Some b) ->
  Bucket.Name b = name /\ Bucket.UserID b = uid.
Proof.
  unfold BucketRepository.GetByName. destruct (fails e BucketQuery); [discriminate |].
  intros H. injection H as H. apply find_some in H as [_ H].
  apply andb_true_iff in H as [Hn Hu].
  split; [now apply String.eqb_eq | now apply Z.eqb_eq].
Qed.

Ltac enter_native Hu Hid Hb :=
  rewrite Hu, Hid;
  change (BucketRepository.GetByID ?e0 (log _ _ ?w0) ?i)
    with (BucketRepository.GetByID e0 w0 i);
  rewrite Hb.

Ltac enter_s3 Hu Hbn Hkey Hb :=
  rewrite Hu, Hbn, Hkey; cbn [orb];
  change (BucketRepository.GetByName ?e0 (log _ _ ?w0) ?nm ?i)
    with (BucketRepository.GetByName e0 w0 nm i);
  rewrite Hb.

Section PublicBucket.
Variables (e : Env) (w : World) (u : User.t) (bucketID : Z) (b : Bucket.t).
Hypothesis Hfound : BucketRepository.GetByID e w bucketID = Ok (Some b).

Section Native.
Variable r : Request.
Hypothesis Huser : user r = Some u.
Hypothesis Hid : bucketId r = Some bucketID.

Lemma native_public_read_write :
  Bucket.IsPublic b = true ->
  fst (GetBucket e r w) = WriteJSON StatusOK (BucketObject b) /\
  status (fst (ListFiles e r w)) <> StatusForbidden /\
  status (fst (GetFile e r w)) <> StatusForbidden /\
  status (fst (DownloadFile e r w)) <> StatusForbidden /\
  status (fst (UploadFile e r w)) <> StatusForbidden.
Proof.
  intros Hpub. pose proof (denied_public b u Hpub) as Hden.
  split; [| split; [| split; [| split]]].
  - unfold GetBucket. enter_native Huser Hid Hfound. now rewrite Hden.
  - unfold ListFiles. enter_native Huser Hid Hfound. rewrite Hden.
    repeat case_match; cbn; discriminate.
  - unfold GetFile. enter_native Huser Hid Hfound.
    destruct (fileId r); [| cbn; discriminate]. rewrite Hden.
    repeat case_match; cbn; discriminate.
  - unfold DownloadFile. enter_native Huser Hid Hfound.
    destruct (fileId r); [| cbn; discriminate]. rewrite Hden.
    repeat case_match; cbn; discriminate.
  - unfold UploadFile. enter_native Huser Hid Hfound. rewrite Hden.
    repeat case_match; cbn; discriminate.
Qed.

Lemma native_delete_owner_only :
  Bucket.UserID b <> User.ID u ->
  status (fst (DeleteFile e r w)) <> StatusOK /\
  same_storage w (snd (DeleteFile e r w)).
Proof.
  intros Hne. apply not_owner in Hne.
  unfold DeleteFile. enter_native Huser Hid Hfound.
  destruct (fileId r); [| cbn; split; [discriminate | auto with tut]].
  rewrite Hne. cbn. split; [discriminate | auto with tut].
Qed.
End Native.

Section S3Namespace.
Variable r : S3Request.
Hypothesis Huser : s3user r = Some u.
Hypothesis Hname : bucketName r = Bucket.Name b.
Hypothesis Hbn : bucketName r <> "".
Hypothesis Hkey : objectKey r <> "".
Hypothesis Hnone : BucketRepository.GetByName e w (bucketName r) (User.ID u) = Ok None.

(** The actor has no bucket of that name: the S3 adapter answers [404] and
    touches nothing, public or not. *)
Lemma s3_other_namespace :
  fst (S3PutObject e r w) = WriteHeader [] StatusNotFound /\
  fst (S3GetObject e r w) = WriteHeader [] StatusNotFound /\
  fst (S3DeleteObject e r w) = WriteHeader [] StatusNotFound /\
  same_storage w (snd (S3PutObject e r w)) /\
  same_storage w (snd (S3GetObject e r w)) /\
  same_storage w (snd (S3DeleteObject e r w)).
Proof.
  apply String.eqb_neq in Hbn, Hkey.
  unfold S3PutObject, S3GetObject, S3DeleteObject.
  enter_s3 Huser Hbn Hkey Hnone. cbn. repeat split.
Qed.
End S3Namespace.
End PublicBucket.

(** On a public bucket the native adapter lets every authenticated actor
    through its read check and its upload check, owner or not, and
    refuses the deletion of an object to every actor but the owner; the
    S3 adapter resolves a bucket by name among the buckets of the actor
    only, and answers [404] on put, get and delete with nothing touched
    when the actor owns no bucket of that name. *)
Lemma public_bucket_checks e w u bucketID b :
  BucketRepository.GetByID e w bucketID = Ok (Some b) ->
  Bucket.IsPublic b = true ->
  (forall r, user r = Some u -> bucketId r = Some bucketID ->
     fst (GetBucket e r w) = WriteJSON StatusOK (BucketObject b) /\
     status (fst (ListFiles e r w)) <> StatusForbidden /\
     status (fst (GetFile e r w)) <> StatusForbidden /\
     status (fst (DownloadFile e r w)) <> StatusForbidden /\
     status (fst (UploadFile e r w)) <> StatusForbidden /\
     (Bucket.UserID b <> User.ID u ->
        status (fst (DeleteFile e r w)) <> StatusOK /\
        same_storage w (snd (DeleteFile e r w)))) /\
  (forall r, s3user r = Some u ->
     bucketName r <> "" -> objectKey r <> "" ->
     BucketRepository.GetByName e w (bucketName r) (User.ID u) = Ok None ->
     fst (S3PutObject e r w) = WriteHeader [] StatusNotFound /\
     fst (S3GetObject e r w) = WriteHeader [] StatusNotFound /\
     fst (S3DeleteObject e r w) = WriteHeader [] StatusNotFound /\
     same_storage w (snd (S3PutObject e r w)) /\
     same_storage w (snd (S3GetObject e r w)) /\
     same_storage w (snd (S3DeleteObject e r w))) /\
  (forall r b', BucketRepository.GetByName e w (bucketName r) (User.ID u) = Ok (Some b') ->
     Bucket.UserID b' = User.ID u).
Proof.
  intros Hfound Hpub. split; [| split].
  - intros r Hu Hid.
    destruct (native_public_read_write e w u bucketID b Hfound r Hu Hid Hpub)
      as (H1 & H2 & H3 & H4 & H5).
    repeat (split; [assumption |]).
    intros Hne. now apply (native_delete_owner_only e w u bucketID b Hfound r Hu Hid).
  - intros r Hu Hbn Hkey Hnone. now apply (s3_other_namespace e w u r).
  - intros r b' H. now apply GetByName_owned in H.
Qed.

(** C2, the defect: Bob, who owns no bucket, addresses the public bucket
    [pub] of Alice, which holds [a.txt].  On the native adapter his
    listing, his reading of the file and of its content and his upload
    are all served, and his deletion is refused with [403].  On the S3
    adapter, which looks the bucket up among his own buckets, his
    listing, his get and his put are answered [404], the put storing
    nothing, while Alice is served. *)
Theorem s3_public_bucket_closed_to_non_owner :
  let e := Scenario.calm 102 in
  let w := Scenario.stocked in
  let upload := UploadFile e (Scenario.upload Scenario.bob 2 "b.txt" "text/plain" "hi") w in
  let put := S3PutObject e (Scenario.s3 Scenario.bob "pub" "b.txt" "text/plain" "hi") w in
  let get := Scenario.s3 Scenario.bob "pub" "a.txt" "" "" in
  (In Scenario.pub_bucket (buckets w) /\
   Bucket.IsPublic Scenario.pub_bucket = true /\
   Bucket.UserID Scenario.pub_bucket <> User.ID Scenario.bob) /\
  (fst (GetBucket e (Scenario.on_bucket Scenario.bob 2) w)
     = WriteJSON StatusOK (BucketObject Scenario.pub_bucket) /\
   (exists fs, body (fst (ListFiles e (Scenario.on_bucket Scenario.bob 2) w))
               = FilePage fs 1 50 0 /\ map json_name fs = ["a.txt"]) /\
   status (fst (GetFile e (Scenario.on_file Scenario.bob 2 2) w)) = StatusOK /\
   status (fst (DownloadFile e (Scenario.on_file Scenario.bob 2 2) w)) = StatusOK /\
   body (fst (DownloadFile e (Scenario.on_file Scenario.bob 2 2) w))
     = Bytes (bytes_of "hello") /\
   status (fst upload) = StatusOK /\
   disk (snd upload) !! "storage/2/2/b.txt" = Some (Regular (bytes_of "hi")) /\
   map File.Name (files (snd upload)) = ["a.txt"; "a.txt"; "b.txt"] /\
   fst (DeleteFile e (Scenario.on_file Scenario.bob 2 2) w)
     = WriteJSON StatusForbidden (ErrorMessage "Access denied")) /\
  (status (fst (S3ListObjects e get w)) = StatusNotFound /\
   status (fst (S3GetObject e get w)) = StatusNotFound /\
   status (fst put) = StatusNotFound /\
   files (snd put) = files w /\ disk (snd put) = disk w /\
   status (fst (S3DeleteObject e get w)) = StatusNotFound) /\
  (status (fst (S3GetObject e (Scenario.s3 Scenario.alice "pub" "a.txt" "" "") w)) = StatusOK /\
   body (fst (S3GetObject e (Scenario.s3 Scenario.alice "pub" "a.txt" "" "") w))
     = Bytes (bytes_of "hello")).
Proof.
  cbv zeta.
  repeat split;
    first [ vm_compute; reflexivity
          | vm_compute; right; left; reflexivity
          | cbn; lia
          | idtac ].
  eexists. split; vm_compute; reflexivity.
Qed.

(** ** The table of files under insert and update *)

Lemma find_inserted {A} (P : A -> bool) (l : list A) (x : A) :
  find P l = None -> P x = true -> find P (l ++ [x]) = Some x.
Proof.
  induction l as [|y l IH]; cbn; intros Hn Hx; [now rewrite Hx |].
  destruct (P y); [discriminate | now apply IH].
Qed.

Lemma named_assign e file row bucketID :
  FileRepository.named bucketID (File.Name file) (FileRepository.assign e file row)
  = (File.BucketID row =? bucketID).
Proof.
  unfold FileRepository.named. cbn. rewrite String.eqb_refl. apply andb_true_r.
Qed.

(** After the update of the row found under a key, the key is found again,
    on a row with the same id carrying the new values. *)
Lemma find_updated e file bucketID (l : list File.t) ex :
  File.ID file = File.ID ex ->
  find (FileRepository.named bucketID (File.Name file)) l = Some ex ->
  exists row,
    find (FileRepository.named bucketID (File.Name file)) (FileRepository.updated e file l)
      = Some (FileRepository.assign e file row)
    /\ File.ID row = File.ID ex /\ File.BucketID row = bucketID.
Proof.
  intros Hid. induction l as [|x l IH]; cbn; [discriminate |].
  destruct (FileRepository.named bucketID (File.Name file) x) eqn:Hx.
  - intros H. injection H as <-. exists x.
    rewrite Hid, Z.eqb_refl, named_assign.
    apply andb_true_iff in Hx as [Hb _]. rewrite Hb.
    split; [reflexivity | split; [reflexivity | now apply Z.eqb_eq]].
  - intros H. destruct (Z.eqb_spec (File.ID x) (File.ID file)) as [Heq|Hne].
    + rewrite named_assign. destruct (Z.eqb_spec (File.BucketID x) bucketID) as [Hb|Hb].
      * exists x. split; [reflexivity | split; [congruence | assumption]].
      * now apply IH.
    + rewrite Hx. now apply IH.
Qed.

Lemma map_ID_updated e file l :
  map File.ID (FileRepository.updated e file l) = map File.ID l.
Proof.
  unfold FileRepository.updated. rewrite map_map. apply map_ext.
  intros row. now destruct (File.ID row =? File.ID file).
Qed.

Lemma length_updated e file l : length (FileRepository.updated e file l) = length l.
Proof. apply length_map. Qed.

Lemma NoDup_ID_inj (l : list File.t) x y :
  List.NoDup (map File.ID l) -> In x l -> In y l -> File.ID x = File.ID y -> x = y.
Proof.
  induction l as [|z l IH]; cbn; [contradiction |].
  intros Hnd Hx Hy Heq. apply List.NoDup_cons_iff in Hnd as [Hz Hnd].
  destruct Hx as [<-|Hx], Hy as [<-|Hy].
  - reflexivity.
  - exfalso. apply Hz. rewrite Heq. now apply in_map.
  - exfalso. apply Hz. rewrite <- Heq. now apply in_map.
  - now apply IH.
Qed.

(** With unique ids, a row is the one its id finds. *)
Lemma find_by_ID (l : list File.t) row :
  List.NoDup (map File.ID l) -> In row l ->
  find (fun f => File.ID f =? File.ID row) l = Some row.
Proof.
  intros Hnd Hin.
  destruct (find (fun f => File.ID f =? File.ID row) l) as [f|] eqn:Hf.
  - apply find_some in Hf as [Hfl Heq]. apply Z.eqb_eq in Heq.
    f_equal. now apply (NoDup_ID_inj l).
  - apply (find_none _ _ Hf) in Hin. now rewrite Z.eqb_refl in Hin.
Qed.

(** With unique ids, the update of a row found under a key leaves the set
    of rows of that key as it is. *)
Lemma rows_for_updated e file bucketID (l : list File.t) ex :
  List.NoDup (map File.ID l) ->
  File.ID file = File.ID ex ->
  find (FileRepository.named bucketID (File.Name file)) l = Some ex ->
  length (List.filter (FileRepository.named bucketID (File.Name file))
            (FileRepository.updated e file l))
  = length (List.filter (FileRepository.named bucketID (File.Name file)) l).
Proof.
  intros Hnd Hid Hfind. apply find_some in Hfind as [Hin Hex].
  assert (Hsame : forall x, In x l ->
            FileRepository.named bucketID (File.Name file)
              (if File.ID x =? File.ID file then FileRepository.assign e file x else x)
            = FileRepository.named bucketID (File.Name file) x).
  { intros x Hx. destruct (Z.eqb_spec (File.ID x) (File.ID file)) as [Heq|]; [| reflexivity].
    assert (x = ex) as -> by (apply (NoDup_ID_inj l); congruence).
    rewrite named_assign. rewrite Hex. apply andb_true_iff in Hex as [Hb _]. exact Hb. }
  clear Hin Hex Hnd. unfold FileRepository.updated.
  induction l as [|x l IH]; [reflexivity |]. cbn [map List.filter].
  rewrite Hsame by (left; reflexivity).
  destruct (FileRepository.named bucketID (File.Name file) x); cbn [length];
    rewrite IH; auto; intros y Hy; apply Hsame; now right.
Qed.

Lemma primary_key_same w w' :
  files w' = files w -> lastFileID w' = lastFileID w -> primary_key w -> primary_key w'.
Proof. unfold primary_key. intros -> ->. trivial. Qed.

Lemma primary_key_updated e file w w' :
  files w' = FileRepository.updated e file (files w) -> lastFileID w' = lastFileID w ->
  primary_key w -> primary_key w'.
Proof.
  unfold primary_key. intros -> -> [Hnd Hall]. rewrite map_ID_updated. split; [exact Hnd |].
  unfold FileRepository.updated. apply List.Forall_map.
  apply (List.Forall_impl _ (P := fun f => File.ID f <= lastFileID w)); [| exact Hall].
  intros row Hrow. now destruct (File.ID row =? File.ID file).
Qed.

Lemma primary_key_inserted e file w w' :
  files w' = (files w ++ [FileRepository.inserted e (lastFileID w + 1) file])%list ->
  lastFileID w' = lastFileID w + 1 ->
  primary_key w -> primary_key w'.
Proof.
  unfold primary_key. intros -> -> [Hnd Hall]. split.
  - rewrite map_app. cbn [map FileRepository.inserted File.ID].
    apply List.NoDup_app; [exact Hnd | constructor; [intros [] | constructor] |].
    intros a Ha [<-|[]]. apply in_map_iff in Ha as (f & Hf & Hin).
    rewrite List.Forall_forall in Hall. specialize (Hall f Hin). lia.
  - apply List.Forall_app. split.
    + apply (List.Forall_impl _ (P := fun f => File.ID f <= lastFileID w)); [| exact Hall].
      intros f Hf. cbn in Hf. lia.
    + constructor; [cbn; lia | constructor].
Qed.

(** ** A put that is answered 200 *)

Lemma GetByName_file_inv e w bucketID name existing :
  FileRepository.GetByName e w bucketID name = Ok existing ->
  fails e FileQuery = false /\
  existing = find (FileRepository.named bucketID name) (files w).
Proof.
  unfold FileRepository.GetByName. destruct (fails e FileQuery); [discriminate |].
  intros H. injection H as <-. split; reflexivity.
Qed.

(** A native put answered [200] had opened its destination, copied all the
    bytes and written its metadata. *)
Lemma UploadFile_ok_inv e r w :
  status (fst (UploadFile e r w)) = StatusOK ->
  exists u bucketID header w2,
    NativePutOpened e r w u bucketID header
      (find (FileRepository.named bucketID (Filename header)) (files w)) w2
    /\ copy_fails_after e = None
    /\ fails e (match find (FileRepository.named bucketID (Filename header)) (files w) with
                | Some _ => FileUpdate
                | None => FileInsert
                end) = false.
Proof.
  intros Hok.
  destruct (UploadFile_cases e r w) as [(u & bucketID & header & existing & w2 & Hop) | Hdown];
    [| destruct Hdown as [Hne _]; contradiction].
  exists u, bucketID, header, w2.
  assert (Hex : existing = find (FileRepository.named bucketID (Filename header)) (files w)).
  { destruct Hop as (_ & _ & _ & _ & _ & Hex & _). now apply GetByName_file_inv in Hex. }
  rewrite <- Hex. split; [exact Hop |].
  destruct (copy_fails_after e) as [n|] eqn:Hn.
  { destruct (UploadFile_copy_failed _ _ _ _ _ _ _ _ Hop n Hn) as (w' & Heq & _).
    rewrite Heq in Hok. discriminate. }
  split; [reflexivity |].
  destruct existing as [ex|].
  - destruct (fails e FileUpdate) eqn:Hf; [| reflexivity].
    destruct (UploadFile_update_failed _ _ _ _ _ _ _ _ Hop ex eq_refl Hn Hf) as (w' & Heq & _).
    rewrite Heq in Hok. discriminate.
  - destruct (fails e FileInsert) eqn:Hf; [| reflexivity].
    destruct (UploadFile_create_failed _ _ _ _ _ _ _ _ Hop eq_refl Hn Hf) as (w' & Heq & _).
    rewrite Heq in Hok. discriminate.
Qed.

(** The put handlers keep the primary key of [files]. *)
Lemma UploadFile_primary_key e r w :
  primary_key w -> primary_key (snd (UploadFile e r w)).
Proof.
  intros Hpk.
  destruct (UploadFile_cases e r w) as [(u & bucketID & header & existing & w2 & Hop) | Hdown].
  - destruct (copy_fails_after e) as [n|] eqn:Hn.
    { destruct (UploadFile_copy_failed _ _ _ _ _ _ _ _ Hop n Hn) as (w' & -> & _ & Hf & _ & Hl & _).
      now apply (primary_key_same w). }
    destruct existing as [ex|].
    + destruct (fails e FileUpdate) eqn:Hf.
      * destruct (UploadFile_update_failed _ _ _ _ _ _ _ _ Hop ex eq_refl Hn Hf)
          as (w' & -> & _ & Hfiles & _ & _ & Hl).
        now apply (primary_key_same w).
      * destruct (UploadFile_updated _ _ _ _ _ _ _ _ Hop ex eq_refl Hn Hf)
          as (w' & -> & _ & Hfiles & _ & Hl).
        now apply (primary_key_updated _ _ w _ Hfiles).
    + destruct (fails e FileInsert) eqn:Hf.
      * destruct (UploadFile_create_failed _ _ _ _ _ _ _ _ Hop eq_refl Hn Hf)
          as (w' & -> & _ & Hfiles & _ & _ & Hl).
        now apply (primary_key_same w).
      * destruct (UploadFile_created _ _ _ _ _ _ _ _ Hop eq_refl Hn Hf)
          as (w' & -> & _ & Hfiles & _ & Hl).
        now apply (primary_key_inserted _ _ w _ Hfiles).
  - destruct Hdown as (_ & Hf & _ & Hl & _). now apply (primary_key_same w).
Qed.

Lemma S3PutObject_primary_key e r w :
  primary_key w -> primary_key (snd (S3PutObject e r w)).
Proof.
  intros Hpk.
  destruct (S3PutObject_cases e r w) as [(u & b & w2 & Hop) | Hdown].
  - destruct (copy_fails_after e) as [n|] eqn:Hn.
    { destruct (S3PutObject_copy_failed _ _ _ _ _ _ Hop n Hn) as (w' & -> & _ & Hf & _ & Hl & _).
      now apply (primary_key_same w). }
    destruct (S3PutObject_copied _ _ _ _ _ _ Hop Hn) as (w' & -> & _ & _ & _ & Hl & Hfiles).
    proj_simpl. destruct (s3_existing e r w b) as [ex|].
    + destruct (fails e FileUpdate).
      * now apply (primary_key_same w).
      * now apply (primary_key_updated _ _ w _ Hfiles).
    + destruct (fails e FileInsert).
      * now apply (primary_key_same w).
      * now apply (primary_key_inserted _ _ w _ Hfiles).
  - destruct Hdown as (_ & Hf & _ & Hl & _). now apply (primary_key_same w).
Qed.

Lemma records_assign e uid bucketID name ctype content row :
  File.BucketID row = bucketID ->
  records e uid bucketID name ctype content
    (FileRepository.assign e
       (File.with_ID (File.ID row)
          (newFile bucketID name (filePathOf e uid bucketID name) (defaultContentType ctype)
             (Z.of_nat (length content)) (md5.hexdigest content) uid)) row).
Proof. intros H. repeat split. exact H. Qed.

Lemma records_inserted e uid bucketID name ctype content id :
  records e uid bucketID name ctype content
    (FileRepository.inserted e id
       (newFile bucketID name (filePathOf e uid bucketID name) (defaultContentType ctype)
          (Z.of_nat (length content)) (md5.hexdigest content) uid)).
Proof. repeat split. Qed.

(** What a native put answered [200] leaves behind: the key finds a row
    carrying the new values, whose id is the one the key found before or,
    failing that, the next fresh id; the answer reports that id and the
    digest; the destination holds the content. *)
Lemma UploadFile_ok e r w :
  status (fst (UploadFile e r w)) = StatusOK ->
  exists u bucketID header row,
    user r = Some u /\ bucketId r = Some bucketID /\ form r = Some (Some header) /\
    (exists b, BucketRepository.GetByID e w bucketID = Ok (Some b) /\ denied b u = false) /\
    find (FileRepository.named bucketID (Filename header)) (files (snd (UploadFile e r w)))
      = Some row /\
    records e (User.ID u) bucketID (Filename header) (PartContentType header) (part header) row /\
    fst (UploadFile e r w)
      = WriteJSON StatusOK
          (FileObject (fileJSON (File.with_ID (File.ID row)
             (newFile bucketID (Filename header)
                (filePathOf e (User.ID u) bucketID (Filename header))
                (defaultContentType (PartContentType header))
                (Z.of_nat (length (part header))) (md5.hexdigest (part header))
                (User.ID u))))) /\
    match find (FileRepository.named bucketID (Filename header)) (files w) with
    | Some ex =>
        File.ID row = File.ID ex /\
        files (snd (UploadFile e r w))
          = FileRepository.updated e
              (File.with_ID (File.ID ex)
                 (newFile bucketID (Filename header)
                    (filePathOf e (User.ID u) bucketID (Filename header))
                    (defaultContentType (PartContentType header))
                    (Z.of_nat (length (part header))) (md5.hexdigest (part header))
                    (User.ID u)))
              (files w)
    | None =>
        File.ID row = lastFileID w + 1 /\
        files (snd (UploadFile e r w)) = (files w ++ [row])%list
    end /\
    buckets (snd (UploadFile e r w)) = buckets w /\
    disk (snd (UploadFile e r w)) !! filePathOf e (User.ID u) bucketID (Filename header)
      = Some (Regular (part header)) /\
    (forall q c, q <> filePathOf e (User.ID u) bucketID (Filename header) ->
       disk w !! q = Some (Regular c) ->
       disk (snd (UploadFile e r w)) !! q = Some (Regular c)).
Proof.
  intros Hok.
  destruct (UploadFile_ok_inv e r w Hok) as (u & bucketID & header & w2 & Hop & Hn & Hf).
  exists u, bucketID, header.
  pose proof Hop as (Hu & Hid & Hform & _ & Hb & _ & w1 & Hmk & Hcr).
  assert (Hkeep : forall (d : gmap string Node) q c,
            q <> filePathOf e (User.ID u) bucketID (Filename header) ->
            disk w !! q = Some (Regular c) ->
            d = <[filePathOf e (User.ID u) bucketID (Filename header) := Regular (part header)]>
                  (disk w2) ->
            d !! q = Some (Regular c)).
  { intros d q c Hq Hw ->. rewrite lookup_insert_ne by congruence.
    rewrite (Create_disk _ _ _ _ Hcr). rewrite lookup_insert_ne by congruence.
    apply (EnsureDir_keeps_regular _ _ _ _ Hmk). exact Hw. }
  destruct (find (FileRepository.named bucketID (Filename header)) (files w)) as [ex|] eqn:Hfind.
  - destruct (UploadFile_updated _ _ _ _ _ _ _ _ Hop ex eq_refl Hn Hf)
      as (w' & Heq & Hd & Hfiles & Hbk & Hl).
    rewrite Heq. proj_simpl.
    destruct (find_updated e
                (File.with_ID (File.ID ex)
                   (newFile bucketID (Filename header)
                      (filePathOf e (User.ID u) bucketID (Filename header))
                      (defaultContentType (PartContentType header))
                      (Z.of_nat (length (part header))) (md5.hexdigest (part header))
                      (User.ID u)))
                bucketID (files w) ex eq_refl Hfind) as (row & Hrow & Hrid & Hrb).
    eexists. rewrite Hfiles.
    split; [exact Hu |]. split; [exact Hid |]. split; [exact Hform |]. split; [exact Hb |].
    split; [exact Hrow |].
    split; [rewrite <- Hrid; now apply records_assign |].
    split; [cbn [FileRepository.assign File.ID]; now rewrite Hrid |].
    split; [split; [exact Hrid | reflexivity] |].
    split; [exact Hbk |].
    split; [rewrite Hd; apply lookup_insert_eq |].
    intros q c Hq Hw. now apply (Hkeep _ q c Hq Hw).
  - destruct (UploadFile_created _ _ _ _ _ _ _ _ Hop eq_refl Hn Hf)
      as (w' & Heq & Hd & Hfiles & Hbk & Hl).
    rewrite Heq. proj_simpl. eexists. rewrite Hfiles.
    split; [exact Hu |]. split; [exact Hid |]. split; [exact Hform |]. split; [exact Hb |].
    split; [apply (find_inserted _ _ _ Hfind);
            unfold FileRepository.named; cbn; now rewrite Z.eqb_refl, String.eqb_refl |].
    split; [apply records_inserted |].
    split; [reflexivity |].
    split; [split; reflexivity |].
    split; [exact Hbk |].
    split; [rewrite Hd; apply lookup_insert_eq |].
    intros q c Hq Hw. now apply (Hkeep _ q c Hq Hw).
Qed.

(** The same for an S3 put whose metadata calls did not fail. *)
Lemma S3PutObject_ok e r w :
  status (fst (S3PutObject e r w)) = StatusOK ->
  fails e FileQuery = false -> fails e FileUpdate = false -> fails e FileInsert = false ->
  exists u b row,
    s3user r = Some u /\ bucketName r <> "" /\ objectKey r <> "" /\
    BucketRepository.GetByName e w (bucketName r) (User.ID u) = Ok (Some b) /\
    find (FileRepository.named (Bucket.ID b) (objectKey r)) (files (snd (S3PutObject e r w)))
      = Some row /\
    records e (User.ID u) (Bucket.ID b) (objectKey r) (contentType r) (payload r) row /\
    fst (S3PutObject e r w)
      = WriteHeader [("ETag", quoted (md5.hexdigest (payload r)))] StatusOK /\
    match find (FileRepository.named (Bucket.ID b) (objectKey r)) (files w) with
    | Some ex =>
        File.ID row = File.ID ex /\
        files (snd (S3PutObject e r w))
          = FileRepository.updated e
              (File.with_ID (File.ID ex)
                 (newFile (Bucket.ID b) (objectKey r)
                    (filePathOf e (User.ID u) (Bucket.ID b) (objectKey r))
                    (defaultContentType (contentType r))
                    (Z.of_nat (length (payload r))) (md5.hexdigest (payload r))
                    (User.ID u)))
              (files w)
    | None =>
        File.ID row = lastFileID w + 1 /\
        files (snd (S3PutObject e r w)) = (files w ++ [row])%list
    end /\
    buckets (snd (S3PutObject e r w)) = buckets w /\
    disk (snd (S3PutObject e r w)) !! filePathOf e (User.ID u) (Bucket.ID b) (objectKey r)
      = Some (Regular (payload r)) /\
    (forall q c, q <> filePathOf e (User.ID u) (Bucket.ID b) (objectKey r) ->
       disk w !! q = Some (Regular c) ->
       disk (snd (S3PutObject e r w)) !! q = Some (Regular c)).
Proof.
  intros Hok Hq Hfu Hfi.
  destruct (S3PutObject_cases e r w) as [(u & b & w2 & Hop) | Hdown];
    [| destruct Hdown as [Hne _]; contradiction].
  destruct (copy_fails_after e) as [n|] eqn:Hn.
  { destruct (S3PutObject_copy_failed _ _ _ _ _ _ Hop n Hn) as (w' & Heq & _).
    rewrite Heq in Hok. discriminate. }
  exists u, b.
  pose proof Hop as (Hu & Hbn & Hkey & Hb & _ & w1 & Hmk & Hcr).
  destruct (S3PutObject_copied _ _ _ _ _ _ Hop Hn) as (w' & Heq & Hd & Hbk & _ & _ & Hfiles).
  rewrite Heq. proj_simpl. unfold s3_existing in Hfiles. rewrite Hq, Hfu, Hfi in Hfiles.
  assert (Hkeep : forall q c,
            q <> filePathOf e (User.ID u) (Bucket.ID b) (objectKey r) ->
            disk w !! q = Some (Regular c) -> disk w' !! q = Some (Regular c)).
  { intros q c Hne Hw. rewrite Hd. rewrite lookup_insert_ne by congruence.
    rewrite (Create_disk _ _ _ _ Hcr). rewrite lookup_insert_ne by congruence.
    apply (EnsureDir_keeps_regular _ _ _ _ Hmk). exact Hw. }
  destruct (find (FileRepository.named (Bucket.ID b) (objectKey r)) (files w)) as [ex|] eqn:Hfind.
  - destruct (find_updated e
                (File.with_ID (File.ID ex)
                   (newFile (Bucket.ID b) (objectKey r)
                      (filePathOf e (User.ID u) (Bucket.ID b) (objectKey r))
                      (defaultContentType (contentType r))
                      (Z.of_nat (length (payload r))) (md5.hexdigest (payload r))
                      (User.ID u)))
                (Bucket.ID b) (files w) ex eq_refl Hfind) as (row & Hrow & Hrid & Hrb).
    eexists. rewrite Hfiles.
    split; [exact Hu |]. split; [exact Hbn |]. split; [exact Hkey |]. split; [exact Hb |].
    split; [exact Hrow |].
    split; [rewrite <- Hrid; now apply records_assign |].
    split; [reflexivity |].
    split; [split; [exact Hrid | reflexivity] |].
    split; [exact Hbk |].
    split; [rewrite Hd; apply lookup_insert_eq | exact Hkeep].
  - eexists. rewrite Hfiles.
    split; [exact Hu |]. split; [exact Hbn |]. split; [exact Hkey |]. split; [exact Hb |].
    split; [apply (find_inserted _ _ _ Hfind);
            unfold FileRepository.named; cbn; now rewrite Z.eqb_refl, String.eqb_refl |].
    split; [apply records_inserted |].
    split; [reflexivity |].
    split; [split; reflexivity |].
    split; [exact Hbk |].
    split; [rewrite Hd; apply lookup_insert_eq | exact Hkeep].
Qed.

(** ** Puts through either adapter *)

(** What a successful put leaves behind, whichever adapter carried it. *)
Lemma put_ok e p w bucketID key :
  succeeded e p w ->
  target e w p = Some (bucketID, key) ->
  exists u row,
    put_user p = Some u /\
    find (FileRepository.named bucketID key) (files (snd (run e p w))) = Some row /\
    records e (User.ID u) bucketID key (put_ctype p) (put_content p) row /\
    match find (FileRepository.named bucketID key) (files w) with
    | Some ex =>
        File.ID row = File.ID ex /\
        files (snd (run e p w))
          = FileRepository.updated e
              (File.with_ID (File.ID ex)
                 (newFile bucketID key (filePathOf e (User.ID u) bucketID key)
                    (defaultContentType (put_ctype p))
                    (Z.of_nat (length (put_content p))) (md5.hexdigest (put_content p))
                    (User.ID u)))
              (files w)
    | None =>
        File.ID row = lastFileID w + 1 /\
        files (snd (run e p w)) = (files w ++ [row])%list
    end /\
    buckets (snd (run e p w)) = buckets w /\
    disk (snd (run e p w)) !! filePathOf e (User.ID u) bucketID key
      = Some (Regular (put_content p)) /\
    (forall q c, q <> filePathOf e (User.ID u) bucketID key ->
       disk w !! q = Some (Regular c) ->
       disk (snd (run e p w)) !! q = Some (Regular c)) /\
    reported_etag p (fst (run e p w))
      = Some (match p with
              | Native _ => md5.hexdigest (put_content p)
              | S3 _ => quoted (md5.hexdigest (put_content p))
              end) /\
    match p with
    | Native _ => reported_id (fst (run e p w)) = Some (File.ID row)
    | S3 _ => True
    end.
Proof.
  intros [Hok Hsound] Htarget. destruct p as [r|r]; cbn [run put_user put_content put_ctype] in *.
  - destruct (UploadFile_ok e r w Hok)
      as (u & bid & header & row & Hu & Hid & Hform & _ & Hrow & Hrec & Hresp & Hfiles & Hbk & Hd & Hkeep).
    cbn [target] in Htarget. rewrite Hid, Hform in Htarget. injection Htarget as <- <-.
    rewrite Hform. exists u, row.
    repeat (split; [assumption |]).
    rewrite Hresp. split; reflexivity.
  - destruct Hsound as (Hq & Hfu & Hfi).
    destruct (S3PutObject_ok e r w Hok Hq Hfu Hfi)
      as (u & b & row & Hu & _ & _ & Hb & Hrow & Hrec & Hresp & Hfiles & Hbk & Hd & Hkeep).
    cbn [target] in Htarget. rewrite Hu, Hb in Htarget. injection Htarget as <- <-.
    exists u, row.
    repeat (split; [assumption |]).
    rewrite Hresp. split; reflexivity.
Qed.

Lemma run_primary_key e p w : primary_key w -> primary_key (snd (run e p w)).
Proof.
  destruct p; [apply UploadFile_primary_key | apply S3PutObject_primary_key].
Qed.

(** ** Overwriting a key *)

(** C3: when two puts to the same bucket and key succeed one after the
    other, the second finds the row of the first and updates it in place:
    the key still finds a row with the same id, now carrying the digest,
    the size and the content type of the second put and the time of the
    second put as [updated_at]; the table has as many rows as before, and,
    ids being unique, as many rows for that key as before.  On the native
    adapter the second answer reports the id of that row. *)
Theorem second_put_updates_in_place e1 e2 p1 p2 w bucketID key :
  target e1 w p1 = Some (bucketID, key) ->
  target e2 (snd (run e1 p1 w)) p2 = Some (bucketID, key) ->
  succeeded e1 p1 w ->
  succeeded e2 p2 (snd (run e1 p1 w)) ->
  exists row1 row2,
    find (FileRepository.named bucketID key) (files (snd (run e1 p1 w))) = Some row1 /\
    find (FileRepository.named bucketID key) (files (snd (run e2 p2 (snd (run e1 p1 w)))))
      = Some row2 /\
    File.ID row2 = File.ID row1 /\
    File.ETag row2 = md5.hexdigest (put_content p2) /\
    File.Size row2 = Z.of_nat (length (put_content p2)) /\
    File.ContentType row2 = defaultContentType (put_ctype p2) /\
    File.UpdatedAt row2 = now e2 /\
    length (files (snd (run e2 p2 (snd (run e1 p1 w))))) = length (files (snd (run e1 p1 w))) /\
    (primary_key w ->
     rows_for bucketID key (snd (run e2 p2 (snd (run e1 p1 w))))
     = rows_for bucketID key (snd (run e1 p1 w))) /\
    match p2 with
    | Native _ => reported_id (fst (run e2 p2 (snd (run e1 p1 w)))) = Some (File.ID row1)
    | S3 _ => True
    end.
Proof.
  intros Ht1 Ht2 Hs1 Hs2.
  destruct (put_ok e1 p1 w bucketID key Hs1 Ht1) as (u1 & row1 & _ & Hrow1 & _).
  destruct (put_ok e2 p2 _ bucketID key Hs2 Ht2)
    as (u2 & row2 & _ & Hrow2 & Hrec & Hfiles & _ & _ & _ & _ & Hid).
  rewrite Hrow1 in Hfiles. destruct Hfiles as [Hsame Hfiles].
  destruct Hrec as (_ & _ & _ & Hct & Hsz & Het & Hup).
  exists row1, row2.
  repeat (split; [assumption |]).
  split; [rewrite Hfiles; apply length_updated |].
  split.
  - intros Hpk. apply (run_primary_key e1 p1) in Hpk as [Hnd _].
    unfold rows_for. rewrite Hfiles.
    apply (rows_for_updated e2
             (File.with_ID (File.ID row1)
                (newFile bucketID key (filePathOf e2 (User.ID u2) bucketID key)
                   (defaultContentType (put_ctype p2))
                   (Z.of_nat (length (put_content p2))) (md5.hexdigest (put_content p2))
                   (User.ID u2)))
             bucketID _ row1 Hnd eq_refl Hrow1).
  - destruct p2; [rewrite Hid, Hsame; reflexivity | exact I].
Qed.

Lemma second_put_updates_in_place_witness :
  let first := Native (Scenario.upload Scenario.alice 2 "a.txt" "text/plain" "hello") in
  let second := Native (Scenario.upload Scenario.bob 2 "a.txt" "text/html" "hello world") in
  let w1 := snd (run (Scenario.calm 100) first Scenario.fresh) in
  let w2 := snd (run (Scenario.calm 101) second w1) in
  exists row1 row2,
    find (FileRepository.named 2 "a.txt") (files w1) = Some row1 /\
    find (FileRepository.named 2 "a.txt") (files w2) = Some row2 /\
    File.ID row2 = File.ID row1 /\
    File.ETag row2 = md5.hexdigest (bytes_of "hello world") /\
    length (files w2) = length (files w1).
Proof.
  intros first second w1 w2.
  destruct (second_put_updates_in_place (Scenario.calm 100) (Scenario.calm 101)
              first second Scenario.fresh 2 "a.txt")
    as (row1 & row2 & H1 & H2 & H3 & H4 & _ & _ & _ & H5 & _).
  - reflexivity.
  - reflexivity.
  - split; [vm_compute; reflexivity | exact I].
  - split; [vm_compute; reflexivity | exact I].
  - exists row1, row2. repeat split; assumption.
Defined.

(** ** Reading back what was put *)

Section Download.
Variables (e : Env) (w : World) (bucketID : Z) (key : string) (row : File.t)
  (content : list byte).
Hypothesis Hquery : fails e FileQuery = false.
Hypothesis Hopen : fails e OsOpen = false.
Hypothesis Hrow : find (FileRepository.named bucketID key) (files w) = Some row.
Hypothesis Hdisk : disk w !! File.Path row = Some (Regular content).

Lemma DownloadFile_stored r u b :
  List.NoDup (map File.ID (files w)) ->
  user r = Some u -> bucketId r = Some bucketID -> fileId r = Some (File.ID row) ->
  BucketRepository.GetByID e w bucketID = Ok (Some b) -> denied b u = false ->
  fst (DownloadFile e r w)
  = {| status := StatusOK;
       headers := [ ("Content-Type", File.ContentType row);
                    ("Content-Disposition", "attachment; filename=" +:+ quoted (File.Name row));
                    ("Content-Length", itoa (File.Size row));
                    ("ETag", File.ETag row) ];
       body := Bytes content |}.
Proof.
  intros Hnd Hu Hid Hfid Hb Hden.
  pose proof (find_some _ _ Hrow) as [Hin Hnamed].
  apply andb_true_iff in Hnamed as [Hbid _].
  unfold DownloadFile. enter_native Hu Hid Hb. rewrite Hfid, Hden.
  unfold FileRepository.GetByID. rewrite Hquery. proj_simpl.
  rewrite (find_by_ID _ _ Hnd Hin). rewrite Hbid. cbn [negb].
  unfold service.FileExists, os.Open. rewrite Hopen. proj_simpl. rewrite Hdisk.
  reflexivity.
Qed.

Lemma S3GetObject_stored r u b :
  s3user r = Some u -> bucketName r <> "" -> objectKey r <> "" -> objectKey r = key ->
  BucketRepository.GetByName e w (bucketName r) (User.ID u) = Ok (Some b) ->
  Bucket.ID b = bucketID -> denied b u = false ->
  fst (S3GetObject e r w)
  = {| status := StatusOK;
       headers := [ ("Content-Type", File.ContentType row);
                    ("Content-Length", itoa (File.Size row));
                    ("ETag", quoted (File.ETag row));
                    ("Last-Modified", itoa (File.CreatedAt row)) ];
       body := Bytes content |}.
Proof.
  intros Hu Hbn Hkey Hk Hb Hbid Hden.
  apply String.eqb_neq in Hbn, Hkey.
  unfold S3GetObject. enter_s3 Hu Hbn Hkey Hb. rewrite Hden.
  unfold FileRepository.GetByName. rewrite Hquery. proj_simpl.
  rewrite Hbid, Hk, Hrow.
  unfold service.FileExists, os.Open. rewrite Hopen. proj_simpl. rewrite Hdisk.
  reflexivity.
Qed.
End Download.

(** The round trip where the metadata of the put is written: a put of
    the bytes [B] that succeeds reports the hex digest of
    [B] as its ETag, bare in the native JSON answer and between double
    quotes in the S3 header; afterwards every download of the object, by
    an actor who passes the read check and with the metadata queries and
    the file open not failing, is answered [200] with exactly [B] as its
    body, with the same digest as its ETag header (bare on the native
    adapter, quoted on the S3 adapter) and with the length of [B] as its
    [Content-Length]. *)
Theorem put_then_get_round_trip e e' p w bucketID key :
  primary_key w ->
  succeeded e p w ->
  target e w p = Some (bucketID, key) ->
  fails e' FileQuery = false ->
  fails e' OsOpen = false ->
  reported_etag p (fst (run e p w))
    = Some (match p with
            | Native _ => md5.hexdigest (put_content p)
            | S3 _ => quoted (md5.hexdigest (put_content p))
            end) /\
  exists row,
    find (FileRepository.named bucketID key) (files (snd (run e p w))) = Some row /\
    match p with
    | Native _ => reported_id (fst (run e p w)) = Some (File.ID row)
    | S3 _ => True
    end /\
    forall g,
      reads e' (snd (run e p w)) g bucketID key (File.ID row) ->
      status (fst (fetch e' g (snd (run e p w)))) = StatusOK /\
      body (fst (fetch e' g (snd (run e p w)))) = Bytes (put_content p) /\
      header "ETag" (fst (fetch e' g (snd (run e p w))))
        = Some (match g with
                | NativeGet _ => md5.hexdigest (put_content p)
                | S3Get _ => quoted (md5.hexdigest (put_content p))
                end) /\
      header "Content-Length" (fst (fetch e' g (snd (run e p w))))
        = Some (itoa (Z.of_nat (length (put_content p)))).
Proof.
  intros Hpk Hs Ht Hq Ho.
  destruct (put_ok e p w bucketID key Hs Ht)
    as (u & row & _ & Hrow & Hrec & _ & _ & Hd & _ & Hetag & Hid).
  split; [exact Hetag |]. exists row. split; [exact Hrow |]. split; [exact Hid |].
  destruct Hrec as (_ & _ & Hpath & _ & Hsz & Het & _).
  rewrite <- Hpath in Hd.
  apply (run_primary_key e p) in Hpk as [Hnd _].
  intros [r|r] Hreads; cbn [reads fetch] in *.
  - destruct Hreads as (u' & b & Hu & Hbid & Hfid & Hb & Hden).
    rewrite (DownloadFile_stored e' _ bucketID key row _ Hq Ho Hrow Hd r u' b Hnd Hu Hbid Hfid Hb Hden).
    cbn. rewrite Het, Hsz. repeat split.
  - destruct Hreads as (u' & b & Hu & Hbn & Hkey & Hk & Hb & Hbid & Hden).
    rewrite (S3GetObject_stored e' _ bucketID key row _ Hq Ho Hrow Hd r u' b Hu Hbn Hkey Hk Hb Hbid Hden).
    cbn. rewrite Het, Hsz. repeat split.
Qed.

Lemma put_then_get_round_trip_witness :
  let p := Native (Scenario.upload Scenario.alice 2 "a.txt" "text/plain" "hello") in
  let w' := snd (run (Scenario.calm 100) p Scenario.fresh) in
  let native := fst (fetch (Scenario.calm 101) (NativeGet (Scenario.on_file Scenario.bob 2 1)) w') in
  let s3 := fst (fetch (Scenario.calm 101)
                   (S3Get (Scenario.s3 Scenario.alice "pub" "a.txt" "" "")) w') in
  reported_etag p (fst (run (Scenario.calm 100) p Scenario.fresh))
    = Some "5d41402abc4b2a76b9719d911017c592" /\
  (body native = Bytes (bytes_of "hello") /\
   header "ETag" native = Some "5d41402abc4b2a76b9719d911017c592") /\
  (body s3 = Bytes (bytes_of "hello") /\
   header "ETag" s3 = Some (quoted "5d41402abc4b2a76b9719d911017c592")).
Proof.
  intros p w' native s3.
  destruct (put_then_get_round_trip (Scenario.calm 100) (Scenario.calm 101) p
              Scenario.fresh 2 "a.txt")
    as (Hetag & row & Hrow & Hid & Hget).
  - split; constructor.
  - split; [vm_compute; reflexivity | exact I].
  - reflexivity.
  - reflexivity.
  - reflexivity.
  - assert (Hrid : File.ID row = 1).
    { cbn [p] in Hid. vm_compute in Hid. now injection Hid. }
    assert (Hmd5 : md5.hexdigest (put_content p) = "5d41402abc4b2a76b9719d911017c592")
      by (vm_compute; reflexivity).
    rewrite Hmd5 in *.
    split; [exact Hetag |]. split.
    + destruct (Hget (NativeGet (Scenario.on_file Scenario.bob 2 1))) as (_ & Hb & He & _).
      { exists Scenario.bob, Scenario.pub_bucket. rewrite Hrid.
        repeat split; vm_compute; reflexivity. }
      split; [exact Hb | exact He].
    + destruct (Hget (S3Get (Scenario.s3 Scenario.alice "pub" "a.txt" "" ""))) as (_ & Hb & He & _).
      { exists Scenario.alice, Scenario.pub_bucket.
        repeat split; first [discriminate | vm_compute; reflexivity]. }
      split; [exact Hb | exact He].
Defined.

(** C4, the defect: the round trip holds while the metadata is written.
    Alice overwrites [pub/a.txt], which holds [hello], with [hello
    world]: through either adapter the put reports the digest of [hello
    world], and both downloads return [hello world] with that digest,
    quoted in the S3 header and bare in the native one.  When the update
    of the row fails, the S3 put is answered [200] with the digest of
    [hello world] all the same, and the download returns [hello world]
    under the digest and the length of [hello]; when the insert of a new
    row fails, the S3 put is answered [200] and the download [404]. *)
Theorem round_trip_breaks_on_s3_metadata_failure :
  let old := "5d41402abc4b2a76b9719d911017c592" in
  let new := "5eb63bbbe01eeed093cb22bb8f5acdc3" in
  let put := Scenario.s3 Scenario.alice "pub" "a.txt" "text/plain" "hello world" in
  let form := Scenario.upload Scenario.alice 2 "a.txt" "text/plain" "hello world" in
  let get := Scenario.s3 Scenario.alice "pub" "a.txt" "" "" in
  let download := Scenario.on_file Scenario.bob 2 2 in
  let by_s3 := S3PutObject (Scenario.calm 102) put Scenario.stocked in
  let by_native := UploadFile (Scenario.calm 102) form Scenario.stocked in
  let stale := S3PutObject (Scenario.failing FileUpdate 102) put Scenario.stocked in
  let lost := S3PutObject (Scenario.failing FileInsert 100) put Scenario.fresh in
  md5.hexdigest (bytes_of "hello") = old /\
  md5.hexdigest (bytes_of "hello world") = new /\
  (status (fst by_s3) = StatusOK /\
   header "ETag" (fst by_s3) = Some (quoted new) /\
   body (fst (S3GetObject (Scenario.calm 103) get (snd by_s3))) = Bytes (bytes_of "hello world") /\
   header "ETag" (fst (S3GetObject (Scenario.calm 103) get (snd by_s3))) = Some (quoted new) /\
   body (fst (DownloadFile (Scenario.calm 103) download (snd by_s3)))
     = Bytes (bytes_of "hello world") /\
   header "ETag" (fst (DownloadFile (Scenario.calm 103) download (snd by_s3))) = Some new) /\
  (status (fst by_native) = StatusOK /\
   reported_etag (Native form) (fst by_native) = Some new /\
   body (fst (S3GetObject (Scenario.calm 103) get (snd by_native)))
     = Bytes (bytes_of "hello world") /\
   header "ETag" (fst (S3GetObject (Scenario.calm 103) get (snd by_native)))
     = Some (quoted new) /\
   body (fst (DownloadFile (Scenario.calm 103) download (snd by_native)))
     = Bytes (bytes_of "hello world") /\
   header "ETag" (fst (DownloadFile (Scenario.calm 103) download (snd by_native))) = Some new) /\
  (status (fst stale) = StatusOK /\
   header "ETag" (fst stale) = Some (quoted new) /\
   status (fst (S3GetObject (Scenario.calm 103) get (snd stale))) = StatusOK /\
   body (fst (S3GetObject (Scenario.calm 103) get (snd stale))) = Bytes (bytes_of "hello world") /\
   header "ETag" (fst (S3GetObject (Scenario.calm 103) get (snd stale))) = Some (quoted old) /\
   header "Content-Length" (fst (S3GetObject (Scenario.calm 103) get (snd stale))) = Some "5" /\
   header "ETag" (fst (DownloadFile (Scenario.calm 103) download (snd stale))) = Some old) /\
  (status (fst lost) = StatusOK /\
   header "ETag" (fst lost) = Some (quoted new) /\
   status (fst (S3GetObject (Scenario.calm 101) get (snd lost))) = StatusNotFound).
Proof. cbv zeta. repeat split; vm_compute; reflexivity. Qed.

(** ** Paths: splitting and joining *)

Lemma split_nonempty s : filepath.split s <> [].
Proof.
  destruct s as [|c s]; cbn; [discriminate |].
  destruct (Ascii.eqb c filepath.Separator); [discriminate |].
  destruct (filepath.split s); discriminate.
Qed.

Lemma split_nosep s : Forall (fun x => nosep x = true) (filepath.split s).
Proof.
  induction s as [|c s IH]; cbn; [repeat constructor |].
  destruct (Ascii.eqb c filepath.Separator) eqn:Hc; [constructor; [reflexivity | exact IH] |].
  destruct (filepath.split s) as [|x xs]; [repeat constructor; cbn; now rewrite Hc |].
  inversion IH as [|? ? Hx Hxs]; subst.
  constructor; [cbn; now rewrite Hc, Hx | exact Hxs].
Qed.

Lemma split_append a b :
  filepath.split (a +:+ String filepath.Separator b)
  = (filepath.split a ++ filepath.split b)%list.
Proof.
  induction a as [|c a IH]; [reflexivity |].
  change (String c a +:+ String filepath.Separator b)
    with (String c (a +:+ String filepath.Separator b)).
  cbn [filepath.split]. rewrite IH.
  destruct (Ascii.eqb c filepath.Separator); [reflexivity |].
  pose proof (split_nonempty a) as Hne.
  destruct (filepath.split a) as [|x xs]; [contradiction | reflexivity].
Qed.

Lemma split_single s : nosep s = true -> filepath.split s = [s].
Proof.
  induction s as [|c s IH]; [reflexivity |]. cbn. intros H.
  apply andb_true_iff in H as [Hc Hs]. apply negb_true_iff in Hc. rewrite Hc.
  now rewrite (IH Hs).
Qed.

Lemma concat_cons x y (l : list string) :
  String.concat "/" (x :: y :: l) = x +:+ String filepath.Separator (String.concat "/" (y :: l)).
Proof. reflexivity. Qed.

Lemma split_concat (l : list string) :
  l <> [] -> Forall (fun x => nosep x = true) l ->
  filepath.split (String.concat "/" l) = l.
Proof.
  induction l as [|x l IH]; [contradiction |]. intros _ Hall.
  inversion Hall as [|? ? Hx Hl]; subst.
  destruct l as [|y l]; [now apply split_single |].
  rewrite concat_cons, split_append, (split_single x Hx).
  rewrite IH by (discriminate || assumption). reflexivity.
Qed.

Lemma append_cons c (a b : string) : String c a +:+ b = String c (a +:+ b).
Proof. reflexivity. Qed.

Lemma append_assoc (a b c : string) : (a +:+ b) +:+ c = a +:+ (b +:+ c).
Proof. induction a as [|x a IH]; [reflexivity |]. rewrite !append_cons. now rewrite IH. Qed.

Lemma append_empty_r (a : string) : a +:+ "" = a.
Proof. induction a as [|x a IH]; [reflexivity |]. rewrite append_cons. now rewrite IH. Qed.

Lemma concat_head x (ys : list string) :
  String.concat "/" (x :: ys) = x +:+ below ys.
Proof.
  revert x. induction ys as [|z ys IH]; intros x.
  - cbn. now rewrite append_empty_r.
  - rewrite concat_cons, IH. reflexivity.
Qed.

Lemma below_app (xs ys : list string) : below (xs ++ ys) = below xs +:+ below ys.
Proof.
  induction xs as [|x xs IH]; [reflexivity |].
  cbn [below app]. rewrite IH, append_cons, append_assoc. reflexivity.
Qed.

Lemma concat_below (xs ys : list string) :
  xs <> [] ->
  String.concat "/" (xs ++ ys) = String.concat "/" xs +:+ below ys.
Proof.
  destruct xs as [|x xs]; [contradiction |]. intros _.
  cbn [app]. rewrite !concat_head, below_app, append_assoc. reflexivity.
Qed.

Lemma append_length (a b : string) :
  String.length (a +:+ b) = (String.length a + String.length b)%nat.
Proof. induction a as [|x a IH]; [reflexivity |]. rewrite append_cons. cbn. now rewrite IH. Qed.

Lemma append_cancel_r (a b s : string) : a +:+ s = b +:+ s -> a = b.
Proof.
  revert b. induction a as [|x a IH]; intros [|y b] H.
  - reflexivity.
  - apply (f_equal String.length) in H. rewrite !append_length in H. cbn in H. lia.
  - apply (f_equal String.length) in H. rewrite !append_length in H. cbn in H. lia.
  - rewrite !append_cons in H. injection H as -> H. f_equal. now apply IH.
Qed.

(** ** Paths: the buffer of [Clean] *)

Lemma real_inv x :
  real x = true ->
  (x =? "")%string = false /\ (x =? ".")%string = false /\ (x =? "..")%string = false.
Proof.
  unfold real. intros H. apply andb_true_iff in H as [H H3].
  apply andb_true_iff in H as [H1 H2].
  repeat split; now apply negb_true_iff.
Qed.

Lemma step_real rt out x : real x = true -> filepath.step rt out x = x :: out.
Proof.
  intros H. apply real_inv in H as (H1 & H2 & H3).
  unfold filepath.step. now rewrite H1, H2, H3.
Qed.

Lemma step_unreal rt out x :
  real x = false -> (x =? "..")%string = false -> filepath.step rt out x = out.
Proof.
  unfold real, filepath.step. intros H H3. rewrite H3 in *. cbn in H.
  destruct (x =? "")%string; [reflexivity |].
  destruct (x =? ".")%string; [reflexivity | discriminate].
Qed.

Lemma scan_app rt out xs ys :
  filepath.scan rt out (xs ++ ys) = filepath.scan rt (filepath.scan rt out xs) ys.
Proof. apply fold_left_app. Qed.

(** Without [..] the scan only appends the real elements. *)
Lemma scan_dotdot_free rt out ys :
  forallb (fun s => negb (s =? "..")%string) ys = true ->
  filepath.scan rt out ys = (rev (List.filter real ys) ++ out)%list.
Proof.
  revert out. induction ys as [|y ys IH]; intros out H; [reflexivity |].
  cbn [forallb] in H. apply andb_true_iff in H as [Hy Hys]. apply negb_true_iff in Hy.
  cbn [filepath.scan fold_left List.filter].
  change (fold_left (filepath.step rt) ys (filepath.step rt out y))
    with (filepath.scan rt (filepath.step rt out y) ys).
  rewrite (IH _ Hys). destruct (real y) eqn:Hr.
  - rewrite step_real by assumption. cbn [rev]. now rewrite <- app_assoc.
  - now rewrite step_unreal.
Qed.

Lemma step_dotdot rt out :
  filepath.step rt out ".."
  = match out with
    | top :: rest =>
        if (top =? "..")%string then (if rt then out else ".." :: out) else rest
    | [] => if rt then out else [".."]
    end.
Proof. reflexivity. Qed.

Lemma canonical_step rt out x : canonical rt out -> canonical rt (filepath.step rt out x).
Proof.
  intros (reals & dds & -> & Hr & Hd & Hrt).
  destruct (real x) eqn:Hx.
  { rewrite step_real by assumption. exists (x :: reals), dds.
    repeat split; try assumption. cbn [forallb]. now rewrite Hx. }
  destruct (x =? "..")%string eqn:Hdd.
  2:{ rewrite step_unreal by assumption. now exists reals, dds. }
  apply String.eqb_eq in Hdd. subst x. rewrite step_dotdot.
  destruct reals as [|top reals].
  - cbn [app]. destruct dds as [|d dds].
    + destruct rt; [now exists [], [] | now exists [], [".."]].
    + cbn [forallb] in Hd. apply andb_true_iff in Hd as [Hd1 Hd2].
      apply String.eqb_eq in Hd1. subst d. rewrite String.eqb_refl.
      destruct rt; [now specialize (Hrt eq_refl) |].
      exists [], (".." :: ".." :: dds). repeat split; [exact Hd2 | discriminate].
  - cbn [forallb] in Hr. apply andb_true_iff in Hr as [Htop Hr].
    apply real_inv in Htop as (_ & _ & Htop). cbn [app]. rewrite Htop.
    now exists reals, dds.
Qed.

Lemma canonical_scan rt out xs : canonical rt out -> canonical rt (filepath.scan rt out xs).
Proof.
  revert out. induction xs as [|x xs IH]; intros out H; [exact H |].
  apply IH. now apply canonical_step.
Qed.

Lemma canonical_nil rt : canonical rt [].
Proof. now exists [], []. Qed.

Lemma scan_dotdots out ds :
  forallb (String.eqb "..") ds = true -> forallb (String.eqb "..") out = true ->
  filepath.scan false out ds = (rev ds ++ out)%list.
Proof.
  revert out. induction ds as [|d ds IH]; intros out Hds Hout; [reflexivity |].
  cbn [forallb] in Hds. apply andb_true_iff in Hds as [Hd Hds].
  apply String.eqb_eq in Hd. subst d.
  cbn [filepath.scan fold_left].
  change (fold_left (filepath.step false) ds (filepath.step false out ".."))
    with (filepath.scan false (filepath.step false out "..") ds).
  assert (Hstep : filepath.step false out ".." = ".." :: out).
  { rewrite step_dotdot. destruct out as [|top out]; [reflexivity |].
    cbn [forallb] in Hout. apply andb_true_iff in Hout as [Htop _].
    apply String.eqb_eq in Htop. subst top. now rewrite String.eqb_refl. }
  rewrite Hstep, IH; [cbn [rev]; now rewrite <- app_assoc | exact Hds |].
  cbn [forallb]. now rewrite String.eqb_refl.
Qed.

Lemma forallb_rev {A} (f : A -> bool) l : forallb f (rev l) = forallb f l.
Proof.
  induction l as [|x l IH]; [reflexivity |].
  cbn. rewrite forallb_app, IH. cbn. rewrite andb_true_r. apply andb_comm.
Qed.

Lemma filter_all {A} (f : A -> bool) l : forallb f l = true -> List.filter f l = l.
Proof.
  induction l as [|x l IH]; [reflexivity |]. cbn. intros H.
  apply andb_true_iff in H as [Hx Hl]. now rewrite Hx, IH.
Qed.

(** Scanning the elements of a canonical buffer gives the buffer back. *)
Lemma scan_canonical rt out : canonical rt out -> filepath.scan rt [] (rev out) = out.
Proof.
  intros (reals & dds & -> & Hr & Hd & Hrt).
  rewrite rev_app_distr, scan_app.
  assert (Hdds : filepath.scan rt [] (rev dds) = dds).
  { destruct rt; [now rewrite (Hrt eq_refl) |].
    rewrite scan_dotdots; [now rewrite rev_involutive, app_nil_r | now rewrite forallb_rev | reflexivity]. }
  rewrite Hdds, scan_dotdot_free.
  - rewrite filter_all by now rewrite forallb_rev. now rewrite rev_involutive.
  - rewrite forallb_rev. clear -Hr. induction reals as [|x reals IH]; [reflexivity |].
    cbn [forallb] in *. apply andb_true_iff in Hr as [Hx Hr].
    apply real_inv in Hx as (_ & _ & ->). now apply IH.
Qed.

(** What the buffer holds are elements of the input, none empty. *)
Lemma scan_elements rt out xs :
  Forall (fun x => nosep x = true) xs ->
  Forall (fun x => nosep x = true /\ x <> "") out ->
  Forall (fun x => nosep x = true /\ x <> "") (filepath.scan rt out xs).
Proof.
  revert out. induction xs as [|x xs IH]; intros out Hxs Hout; [exact Hout |].
  inversion Hxs as [|? ? Hx Hxs']; subst. apply IH; [exact Hxs' |].
  unfold filepath.step.
  destruct (String.eqb_spec x ""); [exact Hout |].
  destruct (x =? ".")%string; [exact Hout |].
  destruct (x =? "..")%string.
  - destruct out as [|top below0].
    + destruct rt; [constructor | repeat constructor; assumption].
    + inversion Hout; subst. destruct (top =? "..")%string; [| assumption].
      destruct rt; [assumption | constructor; [split |]; assumption].
  - constructor; [split |]; assumption.
Qed.

(** ** Paths: decimal elements *)

Lemma numeric_uint d : numeric (NilEmpty.string_of_uint d) = true.
Proof. induction d; cbn [NilEmpty.string_of_uint numeric]; try rewrite IHd; reflexivity. Qed.

Lemma numeric_itoa n : numeric (itoa n) = true.
Proof.
  unfold itoa, NilZero.string_of_int, NilZero.string_of_uint.
  destruct (Z.to_int n) as [d|d]; destruct d; try reflexivity;
    cbn [numeric]; rewrite ?numeric_uint; try reflexivity;
    change (numeric (NilEmpty.string_of_uint ?x)) with (numeric (NilEmpty.string_of_uint x));
    cbn [NilEmpty.string_of_uint numeric]; rewrite ?numeric_uint; reflexivity.
Qed.

Lemma itoa_nonempty n : itoa n <> "".
Proof.
  unfold itoa, NilZero.string_of_int, NilZero.string_of_uint.
  destruct (Z.to_int n) as [d|d]; destruct d; discriminate.
Qed.

Lemma numeric_char_plain c :
  numeric_char c = true ->
  Ascii.eqb c filepath.Separator = false /\ Ascii.eqb c "."%char = false.
Proof.
  intros H. split.
  - destruct (Ascii.eqb_spec c filepath.Separator) as [->|]; [discriminate | reflexivity].
  - destruct (Ascii.eqb_spec c "."%char) as [->|]; [discriminate | reflexivity].
Qed.

Lemma numeric_nosep s : numeric s = true -> nosep s = true.
Proof.
  induction s as [|c s IH]; [reflexivity |]. cbn [numeric nosep]. intros H.
  apply andb_true_iff in H as [Hc Hs]. apply numeric_char_plain in Hc as [-> _].
  now rewrite IH.
Qed.

Lemma numeric_real s : numeric s = true -> s <> "" -> real s = true.
Proof.
  destruct s as [|c s]; [contradiction |]. cbn [numeric]. intros H _.
  apply andb_true_iff in H as [Hc _]. apply numeric_char_plain in Hc as [_ Hdot].
  unfold real. cbn [String.eqb]. now rewrite Hdot.
Qed.

Lemma itoa_real n : real (itoa n) = true.
Proof. apply numeric_real; [apply numeric_itoa | apply itoa_nonempty]. Qed.

Lemma itoa_nosep n : nosep (itoa n) = true.
Proof. apply numeric_nosep, numeric_itoa. Qed.

(** Two numbers with the same decimal writing are equal. *)
Lemma itoa_inj a b : itoa a = itoa b -> a = b.
Proof.
  intros H.
  assert (Hparse : forall n, NilZero.int_of_string (itoa n) = Some (Z.to_int n)).
  { intros n. apply NilZero.isi; destruct n; cbn; try discriminate;
      intros [= Hn]; now apply DecimalPos.Unsigned.to_uint_nonnil in Hn. }
  pose proof (Hparse a) as Ha. rewrite H, Hparse in Ha. injection Ha as Ha.
  rewrite <- (DecimalZ.of_to a), <- (DecimalZ.of_to b). now rewrite Ha.
Qed.

(** ** Paths: what [Join] returns *)

Section Render.
Variables (rt : bool) (out : list string).
Hypothesis Hne : out <> [].
Hypothesis Helems : Forall (fun x => nosep x = true /\ x <> "") out.

Lemma render_eq :
  filepath.render rt out
  = (if rt then "/" else "") +:+ String.concat "/" (rev out).
Proof.
  unfold filepath.render. destruct rt; [reflexivity |].
  destruct out; [contradiction | reflexivity].
Qed.

Lemma rev_elems : Forall (fun x => nosep x = true /\ x <> "") (rev out).
Proof. apply List.Forall_rev. exact Helems. Qed.

Lemma rev_nonempty : rev out <> [].
Proof.
  intros H. apply (f_equal (@rev string)) in H. rewrite rev_involutive in H. contradiction.
Qed.

Lemma render_rooted tail : filepath.rooted (filepath.render rt out +:+ tail) = rt.
Proof.
  rewrite render_eq. destruct rt; [reflexivity |].
  pose proof rev_elems as He. pose proof rev_nonempty as Hn.
  destruct (rev out) as [|x l]; [contradiction |].
  inversion He as [|? ? [Hx Hx0] _]; subst.
  rewrite concat_head. destruct x as [|c x]; [contradiction |].
  change ("" +:+ (String c x +:+ below l)) with (String c x +:+ below l).
  rewrite append_assoc, append_cons. cbn [filepath.rooted].
  cbn [nosep] in Hx. apply andb_true_iff in Hx as [Hc _]. now apply negb_true_iff in Hc.
Qed.

Lemma render_nonempty : filepath.render rt out <> "".
Proof.
  rewrite render_eq. destruct rt; [discriminate |].
  pose proof rev_elems as He. pose proof rev_nonempty as Hn.
  destruct (rev out) as [|x l]; [contradiction |].
  inversion He as [|? ? [Hx Hx0] _]; subst.
  rewrite concat_head. destruct x as [|c x]; [contradiction | discriminate].
Qed.

Lemma split_render :
  filepath.split (filepath.render rt out) = ((if rt then [""] else []) ++ rev out)%list.
Proof.
  assert (Hs : filepath.split (String.concat "/" (rev out)) = rev out).
  { apply split_concat; [apply rev_nonempty |].
    apply (List.Forall_impl _ (P := fun x => nosep x = true /\ x <> "")); [| apply rev_elems].
    now intros x [Hx _]. }
  rewrite render_eq. destruct rt; [| exact Hs].
  change ("/" +:+ String.concat "/" (rev out))
    with (String filepath.Separator (String.concat "/" (rev out))).
  cbn [filepath.split]. change (Ascii.eqb filepath.Separator filepath.Separator) with true.
  cbn iota. now rewrite Hs.
Qed.

Hypothesis Hcanon : canonical rt out.

Lemma scan_render : filepath.scan rt [] (filepath.split (filepath.render rt out)) = out.
Proof.
  rewrite split_render, scan_app.
  assert (Hskip : filepath.scan rt [] (if rt then [""] else []) = []) by now destruct rt.
  rewrite Hskip. now apply scan_canonical.
Qed.

(** The path of a key without [..] under a directory in clean form: the
    real elements of the key are written behind the directory. *)
Lemma Join_under key :
  dotdot_free key = true ->
  filepath.Join [filepath.render rt out; key]
  = filepath.render rt out +:+ below (List.filter real (filepath.split key)).
Proof.
  intros Hkey. unfold filepath.Join.
  pose proof render_nonempty as Hd. apply String.eqb_neq in Hd. rewrite Hd.
  change (String.concat "/" [filepath.render rt out; key])
    with (filepath.render rt out +:+ String filepath.Separator key).
  unfold filepath.Clean.
  assert (Hs : (filepath.render rt out +:+ String filepath.Separator key =? "")%string = false).
  { apply String.eqb_neq. intros H. apply (f_equal String.length) in H.
    rewrite append_length in H. cbn in H. lia. }
  rewrite Hs, render_rooted, split_append, scan_app, scan_render.
  rewrite (scan_dotdot_free _ _ _ Hkey).
  set (F := List.filter real (filepath.split key)).
  assert (Hout : (rev F ++ out)%list <> []).
  { intros H. apply app_eq_nil in H as [_ H]. contradiction. }
  unfold filepath.render at 1.
  assert (Hcat : String.concat "/" (rev (rev F ++ out))
                 = String.concat "/" (rev out) +:+ below F).
  { rewrite rev_app_distr, rev_involutive. apply concat_below, rev_nonempty. }
  rewrite Hcat. rewrite render_eq. destruct rt.
  - now rewrite append_cons.
  - destruct (rev F ++ out)%list; [contradiction | reflexivity].
Qed.
End Render.

(** ** Paths: the storage directory and the destination of a put *)

Lemma getStoragePath_nonempty e : getStoragePath e <> "".
Proof.
  unfold getStoragePath. destruct (String.eqb_spec (storage_path e) ""); [discriminate | assumption].
Qed.

Lemma storageStack_canonical e uid bucketID :
  canonical (filepath.rooted (getStoragePath e)) (storageStack e uid bucketID).
Proof.
  unfold storageStack.
  rewrite <- (step_real (filepath.rooted (getStoragePath e)) _ (itoa bucketID) (itoa_real _)).
  apply canonical_step.
  rewrite <- (step_real (filepath.rooted (getStoragePath e)) _ (itoa uid) (itoa_real _)).
  apply canonical_step, canonical_scan, canonical_nil.
Qed.

Lemma storageStack_elems e uid bucketID :
  Forall (fun x => nosep x = true /\ x <> "") (storageStack e uid bucketID).
Proof.
  unfold storageStack.
  constructor; [split; [apply itoa_nosep | apply itoa_nonempty] |].
  constructor; [split; [apply itoa_nosep | apply itoa_nonempty] |].
  apply scan_elements; [apply split_nosep | constructor].
Qed.

Lemma storageStack_nonempty e uid bucketID : storageStack e uid bucketID <> [].
Proof. discriminate. Qed.

(** The storage directory is the clean base path followed by the decimal
    ids of the actor and of the bucket. *)
Lemma storageDirOf_render e uid bucketID :
  storageDirOf e uid bucketID
  = filepath.render (filepath.rooted (getStoragePath e)) (storageStack e uid bucketID).
Proof.
  unfold storageDirOf, filepath.Join.
  pose proof (getStoragePath_nonempty e) as Hb.
  destruct (getStoragePath e) as [|c base] eqn:Hbase; [contradiction |].
  change ((String c base =? "")%string) with false. cbn iota.
  change (String.concat "/" [String c base; itoa uid; itoa bucketID])
    with (String c base +:+ String filepath.Separator
            (itoa uid +:+ String filepath.Separator (itoa bucketID))).
  unfold filepath.Clean. rewrite append_cons.
  change ((String c (base +:+ String filepath.Separator
                       (itoa uid +:+ String filepath.Separator (itoa bucketID))) =? "")%string)
    with false. cbn iota.
  change (filepath.rooted (String c (base +:+ String filepath.Separator
                       (itoa uid +:+ String filepath.Separator (itoa bucketID)))))
    with (filepath.rooted (String c base)).
  rewrite <- append_cons, !split_append, !scan_app.
  rewrite (split_single _ (itoa_nosep uid)), (split_single _ (itoa_nosep bucketID)).
  unfold storageStack. rewrite Hbase.
  cbn [filepath.scan fold_left].
  now rewrite !step_real by apply itoa_real.
Qed.

(** A key without [..] is stored under the storage directory of the actor
    and the bucket. *)
Lemma filePathOf_under e uid bucketID key :
  dotdot_free key = true ->
  filePathOf e uid bucketID key
  = storageDirOf e uid bucketID +:+ below (List.filter real (filepath.split key)).
Proof.
  intros Hkey. unfold filePathOf. rewrite storageDirOf_render.
  apply Join_under;
    [apply storageStack_nonempty | apply storageStack_elems
     | apply storageStack_canonical | exact Hkey].
Qed.

(** The storage directories of two actors are different. *)
Lemma storageDirOf_inj e a b bucketID :
  storageDirOf e a bucketID = storageDirOf e b bucketID -> a = b.
Proof.
  rewrite !storageDirOf_render. intros H.
  apply (f_equal filepath.split) in H.
  rewrite !split_render in H
    by (apply storageStack_nonempty || apply storageStack_elems).
  apply app_inv_head in H. apply (f_equal (@rev string)) in H.
  rewrite !rev_involutive in H. unfold storageStack in H.
  injection H as H. now apply itoa_inj.
Qed.

Lemma filePathOf_inj e a b bucketID key :
  dotdot_free key = true ->
  filePathOf e a bucketID key = filePathOf e b bucketID key -> a = b.
Proof.
  intros Hkey H. rewrite !filePathOf_under in H by assumption.
  apply append_cancel_r in H. now apply storageDirOf_inj in H.
Qed.

Lemma concat_split s : String.concat "/" (filepath.split s) = s.
Proof.
  induction s as [|c s IH]; [reflexivity |]. cbn [filepath.split].
  pose proof (split_nonempty s) as Hne.
  destruct (Ascii.eqb_spec c filepath.Separator) as [->|Hc].
  - destruct (filepath.split s) as [|x xs]; [contradiction |].
    rewrite concat_cons, IH. reflexivity.
  - destruct (filepath.split s) as [|x xs]; [contradiction |].
    rewrite concat_head in *. rewrite append_cons. now rewrite IH.
Qed.

(** For a key all of whose elements are real, the destination is the
    storage directory, a separator and the key as it is. *)
Lemma filePathOf_plain e uid bucketID key :
  forallb real (filepath.split key) = true ->
  filePathOf e uid bucketID key
  = storageDirOf e uid bucketID +:+ String filepath.Separator key.
Proof.
  intros Hplain.
  assert (Hfree : dotdot_free key = true).
  { unfold dotdot_free. revert Hplain. generalize (filepath.split key).
    induction l as [|x l IH]; [reflexivity |]. cbn [forallb]. intros H.
    apply andb_true_iff in H as [Hx Hl]. apply real_inv in Hx as (_ & _ & ->).
    now apply IH. }
  rewrite (filePathOf_under _ _ _ _ Hfree), (filter_all _ _ Hplain).
  pose proof (split_nonempty key) as Hne. pose proof (concat_split key) as Hcat.
  destruct (filepath.split key) as [|x xs]; [contradiction |].
  rewrite concat_head in Hcat. cbn [below]. now rewrite Hcat.
Qed.

(** ** Where a put stores its content *)

(** A put answered [200] comes from an actor and addresses a bucket and a
    key; the destination, under the directory of that actor, holds the
    content. *)
Lemma put_answered e p w :
  status (fst (run e p w)) = StatusOK ->
  exists u bucketID key,
    put_user p = Some u /\
    target e w p = Some (bucketID, key) /\
    disk (snd (run e p w)) !! filePathOf e (User.ID u) bucketID key
      = Some (Regular (put_content p)).
Proof.
  intros Hok. destruct p as [r|r]; cbn [run target put_user put_content] in *.
  - destruct (UploadFile_ok_inv e r w Hok) as (u & bid & header & w2 & Hop & Hn & Hf).
    pose proof Hop as (Hu & Hid & Hform & _).
    exists u, bid, (Filename header). rewrite Hid, Hform.
    split; [exact Hu |]. split; [reflexivity |].
    destruct (find (FileRepository.named bid (Filename header)) (files w)) as [ex|].
    + destruct (UploadFile_updated _ _ _ _ _ _ _ _ Hop ex eq_refl Hn Hf) as (w' & -> & Hd & _).
      proj_simpl. rewrite Hd. apply lookup_insert_eq.
    + destruct (UploadFile_created _ _ _ _ _ _ _ _ Hop eq_refl Hn Hf) as (w' & -> & Hd & _).
      proj_simpl. rewrite Hd. apply lookup_insert_eq.
  - destruct (S3PutObject_cases e r w) as [(u & b & w2 & Hop) | Hdown];
      [| destruct Hdown as [Hne _]; contradiction].
    pose proof Hop as (Hu & _ & _ & Hb & _).
    exists u, (Bucket.ID b), (objectKey r). rewrite Hu, Hb.
    split; [reflexivity |]. split; [reflexivity |].
    destruct (copy_fails_after e) as [n|] eqn:Hn.
    { destruct (S3PutObject_copy_failed _ _ _ _ _ _ Hop n Hn) as (w' & Heq & _).
      rewrite Heq in Hok. discriminate. }
    destruct (S3PutObject_copied _ _ _ _ _ _ Hop Hn) as (w' & -> & Hd & _).
    proj_simpl. rewrite Hd. apply lookup_insert_eq.
Qed.

(** A put that is answered [200] creates or changes no regular file but
    its destination. *)
Lemma put_only_writes_destination e p w bucketID key u :
  status (fst (run e p w)) = StatusOK ->
  target e w p = Some (bucketID, key) ->
  put_user p = Some u ->
  no_new_file (disk w) (delete (filePathOf e (User.ID u) bucketID key) (disk (snd (run e p w)))).
Proof.
  intros Hok Ht Hu. destruct p as [r|r]; cbn [run target put_user] in *.
  - destruct (UploadFile_ok_inv e r w Hok) as (u' & bid & header & w2 & Hop & Hn & Hf).
    pose proof Hop as (Hu' & Hid & Hform & _).
    rewrite Hid, Hform in Ht. injection Ht as <- <-.
    rewrite Hu' in Hu. injection Hu as <-.
    destruct (NativePut_world _ _ _ _ _ _ _ _ Hop) as (_ & _ & _ & _ & _ & Hnn).
    destruct (find (FileRepository.named bid (Filename header)) (files w)) as [ex|].
    + destruct (UploadFile_updated _ _ _ _ _ _ _ _ Hop ex eq_refl Hn Hf) as (w' & -> & Hd & _).
      proj_simpl. rewrite Hd, delete_insert_eq. exact Hnn.
    + destruct (UploadFile_created _ _ _ _ _ _ _ _ Hop eq_refl Hn Hf) as (w' & -> & Hd & _).
      proj_simpl. rewrite Hd, delete_insert_eq. exact Hnn.
  - destruct (S3PutObject_cases e r w) as [(u' & b & w2 & Hop) | Hdown];
      [| destruct Hdown as [Hne _]; contradiction].
    pose proof Hop as (Hu' & _ & _ & Hb & _).
    rewrite Hu' in Hu. injection Hu as <-.
    rewrite Hu', Hb in Ht. injection Ht as <- <-.
    destruct (S3Put_world _ _ _ _ _ _ Hop) as (_ & _ & _ & _ & _ & Hnn).
    destruct (copy_fails_after e) as [n|] eqn:Hn.
    { destruct (S3PutObject_copy_failed _ _ _ _ _ _ Hop n Hn) as (w' & Heq & _).
      rewrite Heq in Hok. discriminate. }
    destruct (S3PutObject_copied _ _ _ _ _ _ Hop Hn) as (w' & -> & Hd & _).
    proj_simpl. rewrite Hd, delete_insert_eq. exact Hnn.
Qed.

(** A put that is not answered [200] writes no row; with the removal of
    files working it leaves no regular file on disk that was not there
    before with the same content. *)
Lemma put_failed_leaves_nothing e p w :
  status (fst (run e p w)) <> StatusOK ->
  files (snd (run e p w)) = files w /\
  (fails e OsRemove = false -> no_new_file (disk w) (disk (snd (run e p w)))).
Proof.
  intros Hne. destruct p as [r|r]; cbn [run] in *.
  - destruct (UploadFile_cases e r w) as [(u & bid & header & existing & w2 & Hop) | Hdown];
      [| destruct Hdown as (_ & Hf & _ & _ & Hnn); now split].
    destruct (NativePut_world _ _ _ _ _ _ _ _ Hop) as (_ & _ & _ & _ & _ & Hnn).
    destruct (copy_fails_after e) as [n|] eqn:Hn.
    { destruct (UploadFile_copy_failed _ _ _ _ _ _ _ _ Hop n Hn) as (w' & -> & Hd & Hf & _).
      proj_simpl. split; [exact Hf |].
      intros Hrm. now rewrite Hd, (unlinked_gone _ _ _ _ Hrm). }
    destruct existing as [ex|].
    + destruct (fails e FileUpdate) eqn:Hfu.
      * destruct (UploadFile_update_failed _ _ _ _ _ _ _ _ Hop ex eq_refl Hn Hfu)
          as (w' & -> & Hd & Hf & _).
        proj_simpl. split; [exact Hf |].
        intros Hrm. now rewrite Hd, (unlinked_gone _ _ _ _ Hrm).
      * destruct (UploadFile_updated _ _ _ _ _ _ _ _ Hop ex eq_refl Hn Hfu) as (w' & Heq & _).
        rewrite Heq in Hne. now contradiction Hne.
    + destruct (fails e FileInsert) eqn:Hfi.
      * destruct (UploadFile_create_failed _ _ _ _ _ _ _ _ Hop eq_refl Hn Hfi)
          as (w' & -> & Hd & Hf & _).
        proj_simpl. split; [exact Hf |].
        intros Hrm. now rewrite Hd, (unlinked_gone _ _ _ _ Hrm).
      * destruct (UploadFile_created _ _ _ _ _ _ _ _ Hop eq_refl Hn Hfi) as (w' & Heq & _).
        rewrite Heq in Hne. now contradiction Hne.
  - destruct (S3PutObject_cases e r w) as [(u & b & w2 & Hop) | Hdown];
      [| destruct Hdown as (_ & Hf & _ & _ & Hnn); now split].
    destruct (S3Put_world _ _ _ _ _ _ Hop) as (_ & _ & _ & _ & _ & Hnn).
    destruct (copy_fails_after e) as [n|] eqn:Hn.
    { destruct (S3PutObject_copy_failed _ _ _ _ _ _ Hop n Hn) as (w' & -> & Hd & Hf & _).
      proj_simpl. split; [exact Hf |].
      intros Hrm. now rewrite Hd, (unlinked_gone _ _ _ _ Hrm). }
    destruct (S3PutObject_copied _ _ _ _ _ _ Hop Hn) as (w' & Heq & _).
    rewrite Heq in Hne. now contradiction Hne.
Qed.

(** C10, as amended: a put answered [200] stores its content at
    [Join(Join(base, actor id, bucket id), key)], the actor being the one
    who puts and not the owner of the bucket; for a key made of real
    elements only this is that directory, a separator and the key as it
    is, while [Join] cleans any other key.  With its metadata calls not
    failing, the put records that path in the row of the key.  When the
    key has no [..] element and its row [ex] carried the path of the key
    under the directory of another actor [a], the row keeps its id and
    now carries the path under the directory of the new actor, and the
    old file stays on disk with its content; no row refers to it any
    more provided [ex] was the only row that did. *)
Theorem put_path_keyed_by_uploader e p w :
  status (fst (run e p w)) = StatusOK ->
  exists u bucketID key,
    put_user p = Some u /\
    target e w p = Some (bucketID, key) /\
    disk (snd (run e p w)) !! filePathOf e (User.ID u) bucketID key
      = Some (Regular (put_content p)) /\
    (forallb real (filepath.split key) = true ->
       filePathOf e (User.ID u) bucketID key
       = storageDirOf e (User.ID u) bucketID +:+ String filepath.Separator key) /\
    (metadata_sound e p ->
       exists row,
         find (FileRepository.named bucketID key) (files (snd (run e p w))) = Some row /\
         File.Path row = filePathOf e (User.ID u) bucketID key /\
         forall a ex old,
           dotdot_free key = true ->
           a <> User.ID u ->
           find (FileRepository.named bucketID key) (files w) = Some ex ->
           File.Path ex = filePathOf e a bucketID key ->
           disk w !! File.Path ex = Some (Regular old) ->
           File.ID row = File.ID ex /\
           File.Path row <> File.Path ex /\
           disk (snd (run e p w)) !! File.Path ex = Some (Regular old) /\
           ((forall f, In f (files w) -> File.Path f = File.Path ex -> File.ID f = File.ID ex) ->
            forall f, In f (files (snd (run e p w))) -> File.Path f <> File.Path ex)).
Proof.
  intros Hok.
  destruct (put_answered e p w Hok) as (u & bucketID & key & Hu & Ht & Hd).
  exists u, bucketID, key.
  split; [exact Hu |]. split; [exact Ht |]. split; [exact Hd |].
  split; [apply filePathOf_plain |].
  intros Hsound.
  destruct (put_ok e p w bucketID key (conj Hok Hsound) Ht)
    as (u' & row & Hu' & Hrow & Hrec & Hfiles & _ & _ & Hkeep & _).
  rewrite Hu in Hu'. injection Hu' as <-.
  destruct Hrec as (_ & _ & Hpath & _).
  exists row. split; [exact Hrow |]. split; [exact Hpath |].
  intros a ex old Hfree Hne Hex Hpex Hold.
  rewrite Hex in Hfiles. destruct Hfiles as [Hid Hfiles].
  assert (Hdiff : File.Path ex <> filePathOf e (User.ID u) bucketID key).
  { rewrite Hpex. intros H. now apply filePathOf_inj in H. }
  split; [exact Hid |]. split; [rewrite Hpath; congruence |].
  split; [now apply Hkeep |].
  intros Honly f Hin. rewrite Hfiles in Hin. unfold FileRepository.updated in Hin.
  apply in_map_iff in Hin as (f0 & <- & Hin0).
  cbn [File.with_ID File.ID].
  destruct (Z.eqb_spec (File.ID f0) (File.ID ex)) as [Heq|Hneq].
  - cbn [FileRepository.assign File.Path File.with_ID newFile]. congruence.
  - intros H. apply Hneq. now apply Honly.
Qed.

Lemma put_path_keyed_by_uploader_witness :
  let by_owner := S3 (Scenario.s3 Scenario.alice "pub" "a.txt" "text/html" "hello world") in
  let w1 := snd (UploadFile (Scenario.calm 100)
                   (Scenario.upload Scenario.bob 2 "a.txt" "text/plain" "hello")
                   Scenario.fresh) in
  let w2 := snd (run (Scenario.calm 101) by_owner w1) in
  let by_guest := Native (Scenario.upload Scenario.bob 2 "a.txt" "text/plain" "bye") in
  let w3 := snd (run (Scenario.calm 102) by_guest w2) in
  (disk w2 !! "storage/1/2/a.txt" = Some (Regular (bytes_of "hello world")) /\
   disk w2 !! "storage/2/2/a.txt" = Some (Regular (bytes_of "hello")) /\
   (forall f, In f (files w2) -> File.Path f <> "storage/2/2/a.txt")) /\
  (disk w3 !! "storage/2/2/a.txt" = Some (Regular (bytes_of "bye")) /\
   disk w3 !! "storage/1/2/a.txt" = Some (Regular (bytes_of "hello world")) /\
   (forall f, In f (files w3) -> File.Path f <> "storage/1/2/a.txt")).
Proof.
  intros by_owner w1 w2 by_guest w3.
  pose (ex1 := {| File.ID := 1; File.BucketID := 2; File.Name := "a.txt";
                  File.Path := "storage/2/2/a.txt"; File.ContentType := "text/plain";
                  File.Size := 5; File.ETag := "5d41402abc4b2a76b9719d911017c592";
                  File.UserID := 2; File.CreatedAt := 100; File.UpdatedAt := 100 |}).
  pose (ex2 := {| File.ID := 1; File.BucketID := 2; File.Name := "a.txt";
                  File.Path := "storage/1/2/a.txt"; File.ContentType := "text/html";
                  File.Size := 11; File.ETag := "5eb63bbbe01eeed093cb22bb8f5acdc3";
                  File.UserID := 2; File.CreatedAt := 100; File.UpdatedAt := 101 |}).
  assert (Hf1 : files w1 = [ex1]) by (vm_compute; reflexivity).
  assert (Hf2 : files w2 = [ex2]) by (vm_compute; reflexivity).
  assert (Hp1 : filePathOf (Scenario.calm 101) 1 2 "a.txt" = "storage/1/2/a.txt")
    by (vm_compute; reflexivity).
  assert (Hp2 : filePathOf (Scenario.calm 102) 2 2 "a.txt" = "storage/2/2/a.txt")
    by (vm_compute; reflexivity).
  split.
  - destruct (put_path_keyed_by_uploader (Scenario.calm 101) by_owner w1
                ltac:(vm_compute; reflexivity))
      as (u & bucketID & key & Hu & Ht & Hd & _ & Hrows).
    injection Hu as <-.
    assert (Ht' : target (Scenario.calm 101) w1 by_owner = Some (2, "a.txt"))
      by (vm_compute; reflexivity).
    rewrite Ht' in Ht. injection Ht as <- <-.
    change (User.ID Scenario.alice) with 1 in *. rewrite Hp1 in Hd.
    destruct (Hrows ltac:(repeat split)) as (row & _ & _ & Hover).
    destruct (Hover 2 ex1 (bytes_of "hello") eq_refl ltac:(discriminate))
      as (_ & _ & Hold & Hnone).
    + rewrite Hf1. vm_compute; reflexivity.
    + vm_compute; reflexivity.
    + vm_compute; reflexivity.
    + split; [exact Hd |]. split; [exact Hold |].
      apply Hnone. rewrite Hf1. intros f [<-|[]] _. reflexivity.
  - destruct (put_path_keyed_by_uploader (Scenario.calm 102) by_guest w2
                ltac:(vm_compute; reflexivity))
      as (u & bucketID & key & Hu & Ht & Hd & _ & Hrows).
    injection Hu as <-. injection Ht as <- <-.
    change (User.ID Scenario.bob) with 2 in *. rewrite Hp2 in Hd.
    destruct (Hrows I) as (row & _ & _ & Hover).
    destruct (Hover 1 ex2 (bytes_of "hello world") eq_refl ltac:(discriminate))
      as (_ & _ & Hold & Hnone).
    + rewrite Hf2. vm_compute; reflexivity.
    + vm_compute; reflexivity.
    + vm_compute; reflexivity.
    + split; [exact Hd |]. split; [exact Hold |].
      apply Hnone. rewrite Hf2. intros f [<-|[]] _. reflexivity.
Defined.

(** C10 as stated fails.  Alice puts [hello] under the keys [./a.txt] and
    [a.txt] of her public bucket through the S3 adapter: both puts are
    answered [200] and both rows carry the path [storage/1/2/a.txt], which
    is not [storage/1/2/./a.txt].  Bob then overwrites [a.txt] through the
    native adapter: the row of the key moves to his directory and the file
    under the directory of Alice stays, but the row of [./a.txt] still
    refers to it.  And a key with [..] elements that Alice puts lands in
    the directory of Bob, the path being keyed by no id of hers. *)
Lemma shared_path_counterexample :
  let e := Scenario.calm in
  let w1 := snd (S3PutObject (e 100)
                   (Scenario.s3 Scenario.alice "pub" "./a.txt" "text/plain" "hello")
                   Scenario.fresh) in
  let w2 := snd (S3PutObject (e 101)
                   (Scenario.s3 Scenario.alice "pub" "a.txt" "text/plain" "hello") w1) in
  let over := UploadFile (e 102)
                (Scenario.upload Scenario.bob 2 "a.txt" "text/plain" "hello world") w2 in
  let far := S3PutObject (e 103)
               (Scenario.s3 Scenario.alice "pub" "../../2/2/b.txt" "text/plain" "mine")
               (snd over) in
  map (fun f => (File.Name f, File.Path f)) (files w2)
    = [("./a.txt", "storage/1/2/a.txt"); ("a.txt", "storage/1/2/a.txt")] /\
  status (fst over) = StatusOK /\
  map (fun f => (File.Name f, File.Path f)) (files (snd over))
    = [("./a.txt", "storage/1/2/a.txt"); ("a.txt", "storage/2/2/a.txt")] /\
  disk (snd over) !! "storage/1/2/a.txt" = Some (Regular (bytes_of "hello")) /\
  (exists f, In f (files (snd over)) /\ File.Path f = "storage/1/2/a.txt") /\
  status (fst far) = StatusOK /\
  storageDirOf (e 103) (User.ID Scenario.alice) 2 = "storage/1/2" /\
  disk (snd far) !! "storage/2/2/b.txt" = Some (Regular (bytes_of "mine")) /\
  map (fun f => (File.Name f, File.UserID f, File.Path f)) (files (snd far))
    = [("./a.txt", 1, "storage/1/2/a.txt"); ("a.txt", 1, "storage/2/2/a.txt");
       ("../../2/2/b.txt", 1, "storage/2/2/b.txt")].
Proof.
  cbv zeta.
  repeat split; try (vm_compute; reflexivity).
  eexists. split; [vm_compute; left; reflexivity | reflexivity].
Qed.

(** ** Keys and the bucket subtree *)

(** C1, as amended: the put handlers hand the key to [filepath.Join] as it
    is and reject none.  A put that is not answered [200] writes no row
    and, the removal of its destination not failing, leaves no file
    behind.  A put that is answered [200] with a key none of whose
    elements is [..] stores its content inside the subtree of the bucket,
    at the storage directory of the actor and the bucket followed by the
    real elements of the key, and creates or changes no other file; with
    its metadata calls not failing it records that path in the row of the
    key. *)
Theorem put_key_resolution e p w :
  (status (fst (run e p w)) <> StatusOK ->
     files (snd (run e p w)) = files w /\
     (fails e OsRemove = false -> no_new_file (disk w) (disk (snd (run e p w))))) /\
  (status (fst (run e p w)) = StatusOK ->
     exists u bucketID key,
       put_user p = Some u /\
       target e w p = Some (bucketID, key) /\
       (dotdot_free key = true ->
          let path := storageDirOf e (User.ID u) bucketID
                        +:+ below (List.filter real (filepath.split key)) in
          disk (snd (run e p w)) !! path = Some (Regular (put_content p)) /\
          no_new_file (disk w) (delete path (disk (snd (run e p w)))) /\
          (metadata_sound e p ->
             exists row,
               find (FileRepository.named bucketID key) (files (snd (run e p w))) = Some row /\
               File.Path row = path))).
Proof.
  split; [apply put_failed_leaves_nothing |].
  intros Hok.
  destruct (put_answered e p w Hok) as (u & bucketID & key & Hu & Ht & Hd).
  exists u, bucketID, key. split; [exact Hu |]. split; [exact Ht |].
  intros Hfree. cbv zeta.
  rewrite <- (filePathOf_under e (User.ID u) bucketID key Hfree).
  split; [exact Hd |].
  split; [now apply put_only_writes_destination |].
  intros Hsound.
  destruct (put_ok e p w bucketID key (conj Hok Hsound) Ht)
    as (u' & row & Hu' & Hrow & Hrec & _).
  rewrite Hu in Hu'. injection Hu' as <-.
  destruct Hrec as (_ & _ & Hpath & _).
  exists row. split; [exact Hrow | exact Hpath].
Qed.

Lemma put_key_resolution_witness :
  let e := Scenario.calm 100 in
  let anonymous := S3 {| s3user := None; bucketName := "pub"; objectKey := "a.txt";
                         contentType := ""; payload := bytes_of "hello";
                         s3prefix := ""; maxKeys := None |} in
  let dotted := S3 (Scenario.s3 Scenario.alice "pub" "./notes.txt" "text/plain" "hello") in
  let plain := Native (Scenario.upload Scenario.bob 2 "b.txt" "text/plain" "hi") in
  (files (snd (run e anonymous Scenario.fresh)) = [] /\
   no_new_file (disk Scenario.fresh) (disk (snd (run e anonymous Scenario.fresh)))) /\
  (disk (snd (run e dotted Scenario.fresh)) !! "storage/1/2/notes.txt"
     = Some (Regular (bytes_of "hello")) /\
   exists row,
     find (FileRepository.named 2 "./notes.txt") (files (snd (run e dotted Scenario.fresh)))
       = Some row /\
     File.Path row = "storage/1/2/notes.txt") /\
  disk (snd (run e plain Scenario.fresh)) !! "storage/2/2/b.txt"
    = Some (Regular (bytes_of "hi")).
Proof.
  intros e anonymous dotted plain.
  split; [| split].
  - destruct (put_key_resolution e anonymous Scenario.fresh) as [Hfailed _].
    destruct Hfailed as [Hf Hnn]; [vm_compute; discriminate |].
    split; [exact Hf | now apply Hnn].
  - destruct (put_key_resolution e dotted Scenario.fresh) as [_ Hstored].
    destruct Hstored as (u & bucketID & key & Hu & Ht & Hin); [vm_compute; reflexivity |].
    injection Hu as <-.
    assert (Ht' : target e Scenario.fresh dotted = Some (2, "./notes.txt"))
      by (vm_compute; reflexivity).
    rewrite Ht' in Ht. injection Ht as <- <-.
    destruct (Hin eq_refl) as (Hd & _ & Hrow).
    assert (Hp : storageDirOf e (User.ID Scenario.alice) 2
                   +:+ below (List.filter real (filepath.split "./notes.txt"))
                 = "storage/1/2/notes.txt") by (vm_compute; reflexivity).
    rewrite Hp in Hd, Hrow. split; [exact Hd |].
    apply Hrow. repeat split.
  - destruct (put_key_resolution e plain Scenario.fresh) as [_ Hstored].
    destruct Hstored as (u & bucketID & key & Hu & Ht & Hin); [vm_compute; reflexivity |].
    injection Hu as <-. injection Ht as <- <-.
    destruct (Hin eq_refl) as (Hd & _).
    assert (Hp : storageDirOf e (User.ID Scenario.bob) 2
                   +:+ below (List.filter real (filepath.split "b.txt"))
                 = "storage/2/2/b.txt") by (vm_compute; reflexivity).
    rewrite Hp in Hd. exact Hd.
Defined.

(** C1 as stated fails: Alice puts the key [../../secret] into her bucket
    [pub] through the S3 adapter.  The key has a [..] element and resolves
    to [storage/secret], outside [storage/1/2]; the put is answered [200],
    the file is created there and a row with that path is written. *)
Lemma traversal_key_counterexample :
  let r := Scenario.s3 Scenario.alice "pub" "../../secret" "text/plain" "hello" in
  let out := S3PutObject (Scenario.calm 100) r Scenario.fresh in
  dotdot_free (objectKey r) = false /\
  storageDirOf (Scenario.calm 100) 1 2 = "storage/1/2" /\
  filePathOf (Scenario.calm 100) 1 2 (objectKey r) = "storage/secret" /\
  String.prefix "storage/1/2" "storage/secret" = false /\
  status (fst out) = StatusOK /\
  disk (snd out) !! "storage/secret" = Some (Regular (bytes_of "hello")) /\
  map File.Path (files (snd out)) = ["storage/secret"].
Proof. cbv zeta. repeat split; vm_compute; reflexivity. Qed.

(* ===================================================================== *)
(** * Further properties of the handlers and the repositories *)
(* ===================================================================== *)

(** ** Requests that only read *)

Ltac unlog :=
  repeat first
    [ progress change (BucketRepository.GetByID ?e0 (log _ _ ?w0) ?i)
        with (BucketRepository.GetByID e0 w0 i)
    | progress change (BucketRepository.GetByName ?e0 (log _ _ ?w0) ?nm ?i)
        with (BucketRepository.GetByName e0 w0 nm i)
    | progress change (BucketRepository.List ?e0 (log _ _ ?w0) ?i ?l ?o)
        with (BucketRepository.List e0 w0 i l o)
    | progress change (BucketRepository.Count ?bf0 ?e0 (log _ _ ?w0) ?i)
        with (BucketRepository.Count bf0 e0 w0 i)
    | progress change (FileRepository.GetByID ?e0 (log _ _ ?w0) ?i)
        with (FileRepository.GetByID e0 w0 i)
    | progress change (FileRepository.GetByName ?e0 (log _ _ ?w0) ?i ?nm)
        with (FileRepository.GetByName e0 w0 i nm)
    | progress change (FileRepository.List ?e0 (log _ _ ?w0) ?i ?l ?o)
        with (FileRepository.List e0 w0 i l o)
    | progress change (FileRepository.ListByPrefix ?e0 (log _ _ ?w0) ?i ?p ?l ?o)
        with (FileRepository.ListByPrefix e0 w0 i p l o)
    | progress change (FileRepository.Count ?e0 (log _ _ ?w0) ?i)
        with (FileRepository.Count e0 w0 i)
    | progress change (service.FileExists ?p (log _ _ ?w0))
        with (service.FileExists p w0)
    | progress change (os.Open ?e0 ?p (log _ _ ?w0)) with (os.Open e0 p w0) ].

Ltac untouched := repeat case_match; simplify_eq; repeat split; reflexivity.

Lemma GetBucket_reads e r w : same_storage w (snd (GetBucket e r w)).
Proof. unfold GetBucket. untouched. Qed.

Lemma ListFiles_reads e r w : same_storage w (snd (ListFiles e r w)).
Proof. unfold ListFiles. untouched. Qed.

Lemma GetFile_reads e r w : same_storage w (snd (GetFile e r w)).
Proof. unfold GetFile. untouched. Qed.

Lemma DownloadFile_reads e r w : same_storage w (snd (DownloadFile e r w)).
Proof. unfold DownloadFile. untouched. Qed.

Lemma S3ListObjects_reads e r w : same_storage w (snd (S3ListObjects e r w)).
Proof. unfold S3ListObjects. untouched. Qed.

Lemma S3GetObject_reads e r w : same_storage w (snd (S3GetObject e r w)).
Proof. unfold S3GetObject. untouched. Qed.

Lemma ListBuckets_reads bf e r w : same_storage w (snd (ListBuckets bf e r w)).
Proof. unfold ListBuckets. untouched. Qed.

Lemma S3ListBuckets_reads e r w : same_storage w (snd (S3ListBuckets e r w)).
Proof. unfold S3ListBuckets. untouched. Qed.

(** X1.  The handlers that only read leave the tables, the id counters
    and the disk as they found them, whatever the request, the actor and
    the storage faults: the bucket and file lookups, the three listings of
    the native adapter and of the S3 adapter, and both downloads change at
    most the log. *)
Theorem reading_handlers_leave_storage_untouched e w :
  (forall r,
     same_storage w (snd (GetBucket e r w)) /\
     same_storage w (snd (ListFiles e r w)) /\
     same_storage w (snd (GetFile e r w)) /\
     same_storage w (snd (DownloadFile e r w))) /\
  (forall r,
     same_storage w (snd (S3ListObjects e r w)) /\
     same_storage w (snd (S3GetObject e r w)) /\
     same_storage w (snd (S3ListBuckets e r w))) /\
  (forall bf r, same_storage w (snd (ListBuckets bf e r w))).
Proof.
  repeat split;
    first [ apply GetBucket_reads | apply ListFiles_reads | apply GetFile_reads
          | apply DownloadFile_reads | apply S3ListObjects_reads
          | apply S3GetObject_reads | apply S3ListBuckets_reads
          | apply ListBuckets_reads ].
Qed.

(** ** Requests without an actor *)

Ltac anonymous H := cbv beta delta [UploadFile ListFiles GetFile DownloadFile DeleteFile
    GetBucket DeleteBucket S3ListObjects S3PutObject S3GetObject S3DeleteObject
    S3ListBuckets ListBuckets CreateBucket]; rewrite H; repeat split; reflexivity.

(** X2.  A request that carries no authenticated actor is answered [401]
    by every handler and changes nothing but the log: the native handlers,
    [ListBuckets], [CreateBucket] and [S3ListBuckets] answer the JSON
    error [Unauthorized], the other S3 handlers a bare [401]. *)
Theorem request_without_actor_is_turned_away e w :
  (forall r, user r = None ->
     forall h, In h [UploadFile; ListFiles; GetFile; DownloadFile; DeleteFile;
                     GetBucket; DeleteBucket] ->
       fst (h e r w) = WriteJSON StatusUnauthorized (ErrorMessage "Unauthorized") /\
       same_storage w (snd (h e r w))) /\
  (forall r, s3user r = None ->
     (forall h, In h [S3ListObjects; S3PutObject; S3GetObject; S3DeleteObject] ->
        fst (h e r w) = WriteHeader [] StatusUnauthorized /\
        same_storage w (snd (h e r w))) /\
     fst (S3ListBuckets e r w)
       = S3ListFailed (WriteJSON StatusUnauthorized (ErrorMessage "Unauthorized")) /\
     same_storage w (snd (S3ListBuckets e r w))) /\
  (forall bf r, user r = None ->
     fst (ListBuckets bf e r w)
       = ListFailed (WriteJSON StatusUnauthorized (ErrorMessage "Unauthorized")) /\
     same_storage w (snd (ListBuckets bf e r w))) /\
  (forall validate invalid bf r, creator r = None ->
     fst (CreateBucket validate invalid bf e r w)
       = WriteJSON StatusUnauthorized (ErrorMessage "Unauthorized") /\
     same_storage w (snd (CreateBucket validate invalid bf e r w))).
Proof.
  split; [| split; [| split]].
  - intros r Hr h Hh. cbn [In] in Hh.
    repeat (destruct Hh as [<- | Hh]; [anonymous Hr |]). contradiction.
  - intros r Hr. split; [| anonymous Hr].
    intros h Hh. cbn [In] in Hh.
    repeat (destruct Hh as [<- | Hh]; [anonymous Hr |]). contradiction.
  - intros bf r Hr. anonymous Hr.
  - intros validate invalid bf r Hr. anonymous Hr.
Qed.

Lemma request_without_actor_is_turned_away_witness :
  let r := {| user := None; bucketId := Some 1; fileId := Some 1; form := None;
              limit := None; offset := None; prefix := "" |} in
  fst (DeleteFile (Scenario.calm 102) r Scenario.stocked)
    = WriteJSON StatusUnauthorized (ErrorMessage "Unauthorized") /\
  same_storage Scenario.stocked (snd (DeleteFile (Scenario.calm 102) r Scenario.stocked)).
Proof.
  intros r.
  destruct (request_without_actor_is_turned_away (Scenario.calm 102) Scenario.stocked)
    as (Hnative & _).
  apply (Hnative r eq_refl DeleteFile). cbn [In]. tauto.
Defined.

(** ** Deleting an object through the native adapter *)

Lemma Remove_spec e name w0 :
  files (snd (os.Remove e name w0)) = files w0 /\
  buckets (snd (os.Remove e name w0)) = buckets w0 /\
  lastFileID (snd (os.Remove e name w0)) = lastFileID w0 /\
  lastBucketID (snd (os.Remove e name w0)) = lastBucketID w0 /\
  logs (snd (os.Remove e name w0)) = logs w0 /\
  (forall q, q <> name -> disk (snd (os.Remove e name w0)) !! q = disk w0 !! q) /\
  (fails e OsRemove = false ->
     service.is_regular (disk (snd (os.Remove e name w0))) name = false) /\
  (fails e OsRemove = true ->
     os.Remove e name w0 = (Some "remove: input/output error", w0)).
Proof.
  unfold os.Remove, service.is_regular.
  destruct (fails e OsRemove).
  { proj_simpl. repeat split; try reflexivity. discriminate. }
  destruct (disk w0 !! name) as [[|c]|] eqn:Hn.
  - destruct (os.has_entries (disk w0) name); proj_simpl.
    + rewrite Hn. repeat split; try reflexivity. discriminate.
    + rewrite lookup_delete_eq. repeat split; try reflexivity; [| discriminate].
      intros q Hq. apply lookup_delete_ne. congruence.
  - proj_simpl. rewrite lookup_delete_eq. repeat split; try reflexivity; [| discriminate].
    intros q Hq. apply lookup_delete_ne. congruence.
  - proj_simpl. rewrite Hn. repeat split; try reflexivity. discriminate.
Qed.

(** The step [Delete file from disk] of [DeleteFile]: the error of the
    removal is logged and the handler goes on. *)
Lemma unlink_native e path w0 w1 :
  w1 = (if service.FileExists path w0 then
          match os.Remove e path w0 with
          | (Some _, w) => log ErrorLevel "Failed to delete file from disk" w
          | (None, w) => w
          end
        else w0) ->
  files w1 = files w0 /\ buckets w1 = buckets w0 /\
  lastFileID w1 = lastFileID w0 /\ lastBucketID w1 = lastBucketID w0 /\
  (forall q, q <> path -> disk w1 !! q = disk w0 !! q) /\
  (fails e OsRemove = false -> service.is_regular (disk w1) path = false) /\
  (fails e OsRemove = true ->
     disk w1 = disk w0 /\
     (service.FileExists path w0 = true ->
      w1 = log ErrorLevel "Failed to delete file from disk" w0)).
Proof.
  intros ->.
  pose proof (Remove_spec e path w0) as (Hf & Hb & Hl & Hlb & _ & Hd & Hr & Hfail).
  destruct (service.FileExists path w0) eqn:Hex.
  - destruct (fails e OsRemove) eqn:Hrm.
    + rewrite (Hfail eq_refl). proj_simpl.
      repeat split; intros; first [reflexivity | congruence].
    + specialize (Hr eq_refl).
      destruct (os.Remove e path w0) as [[err|] w']; cbn [snd] in *;
        proj_simpl; repeat split; intros; first [assumption | now apply Hd | congruence].
  - repeat split; intros; try reflexivity; try congruence.
    unfold service.FileExists in Hex. unfold service.is_regular.
    destruct (disk w0 !! path); [discriminate | reflexivity].
Qed.

(** The step [Delete file from disk] of [S3DeleteObject]: the error of
    the removal is not looked at. *)
Lemma unlink_s3 e path w0 w1 :
  w1 = (if service.FileExists path w0 then snd (os.Remove e path w0) else w0) ->
  files w1 = files w0 /\ buckets w1 = buckets w0 /\
  lastFileID w1 = lastFileID w0 /\ lastBucketID w1 = lastBucketID w0 /\
  logs w1 = logs w0 /\
  (forall q, q <> path -> disk w1 !! q = disk w0 !! q) /\
  (fails e OsRemove = false -> service.is_regular (disk w1) path = false) /\
  (fails e OsRemove = true -> disk w1 = disk w0).
Proof.
  intros ->.
  pose proof (Remove_spec e path w0) as (Hf & Hb & Hl & Hlb & Hlg & Hd & Hr & Hfail).
  destruct (service.FileExists path w0) eqn:Hex.
  - repeat split; try assumption. intros Hrm. now rewrite (Hfail Hrm).
  - repeat split; try reflexivity.
    intros _. unfold service.FileExists in Hex. unfold service.is_regular.
    destruct (disk w0 !! path); [discriminate | reflexivity].
Qed.

Lemma bucket_GetByID_ext e w w' id :
  buckets w' = buckets w ->
  BucketRepository.GetByID e w' id = BucketRepository.GetByID e w id.
Proof. intros H. unfold BucketRepository.GetByID. rewrite H. reflexivity. Qed.

Lemma bucket_GetByName_ext e w w' name uid :
  buckets w' = buckets w ->
  BucketRepository.GetByName e w' name uid = BucketRepository.GetByName e w name uid.
Proof. intros H. unfold BucketRepository.GetByName. rewrite H. reflexivity. Qed.

Lemma file_GetByID_inv e w id found :
  FileRepository.GetByID e w id = Ok found ->
  fails e FileQuery = false /\ found = find (fun f => File.ID f =? id) (files w).
Proof.
  unfold FileRepository.GetByID. destruct (fails e FileQuery); [discriminate |].
  intros [= <-]. split; reflexivity.
Qed.

Lemma owner_not_denied b u : Bucket.UserID b = User.ID u -> denied b u = false.
Proof. intros H. unfold denied. rewrite H, Z.eqb_refl. reflexivity. Qed.

Section FileOfBucket.
Variables (e : Env) (r : Request) (w : World) (u : User.t) (bucketID fileID : Z)
  (b : Bucket.t).
Hypothesis Huser : user r = Some u.
Hypothesis Hid : bucketId r = Some bucketID.
Hypothesis Hfid : fileId r = Some fileID.
Hypothesis Hfound : BucketRepository.GetByID e w bucketID = Ok (Some b).

Ltac enter_file h :=
  unfold h; rewrite Huser, Hid, Hfid; unlog; rewrite Hfound.

(** The answers to a file id that has no row, or whose row belongs to
    another bucket. *)
Lemma GetFile_no_such_file found :
  denied b u = false ->
  FileRepository.GetByID e w fileID = Ok found ->
  (forall file, found = Some file -> File.BucketID file <> bucketID) ->
  GetFile e r w
  = (WriteJSON StatusNotFound (ErrorMessage "File not found"),
     log DebugLevel "Get file endpoint called" w).
Proof.
  intros Hden Hrow Hother. enter_file GetFile. rewrite Hden, Hrow.
  destruct found as [file|]; [| reflexivity].
  rewrite (proj2 (Z.eqb_neq _ _) (Hother file eq_refl)). reflexivity.
Qed.

Lemma DownloadFile_no_such_file found :
  denied b u = false ->
  FileRepository.GetByID e w fileID = Ok found ->
  (forall file, found = Some file -> File.BucketID file <> bucketID) ->
  DownloadFile e r w
  = (WriteJSON StatusNotFound (ErrorMessage "File not found"),
     log DebugLevel "Download file endpoint called" w).
Proof.
  intros Hden Hrow Hother. enter_file DownloadFile. rewrite Hden, Hrow.
  destruct found as [file|]; [| reflexivity].
  rewrite (proj2 (Z.eqb_neq _ _) (Hother file eq_refl)). reflexivity.
Qed.

Lemma DeleteFile_no_such_file found :
  Bucket.UserID b = User.ID u ->
  FileRepository.GetByID e w fileID = Ok found ->
  (forall file, found = Some file -> File.BucketID file <> bucketID) ->
  DeleteFile e r w
  = (WriteJSON StatusNotFound (ErrorMessage "File not found"),
     log DebugLevel "Delete file endpoint called" w).
Proof.
  intros Hown Hrow Hother. enter_file DeleteFile.
  rewrite Hown, Z.eqb_refl, Hrow. cbn [negb].
  destruct found as [file|]; [| reflexivity].
  rewrite (proj2 (Z.eqb_neq _ _) (Hother file eq_refl)). reflexivity.
Qed.

(** The row of the file is found, and the file is not on disk. *)
Lemma DownloadFile_not_on_disk file :
  denied b u = false ->
  FileRepository.GetByID e w fileID = Ok (Some file) ->
  File.BucketID file = bucketID ->
  service.FileExists (File.Path file) w = false ->
  DownloadFile e r w
  = (WriteJSON StatusNotFound (ErrorMessage "File not found on disk"),
     log DebugLevel "Download file endpoint called" w).
Proof.
  intros Hden Hrow Hin Hgone. enter_file DownloadFile. rewrite Hden, Hrow.
  rewrite Hin, Z.eqb_refl. cbn [negb]. unlog. rewrite Hgone. reflexivity.
Qed.

Lemma GetFile_found file :
  denied b u = false ->
  FileRepository.GetByID e w fileID = Ok (Some file) ->
  File.BucketID file = bucketID ->
  fst (GetFile e r w) = WriteJSON StatusOK (FileObject (fileJSON file)).
Proof.
  intros Hden Hrow Hin. enter_file GetFile. rewrite Hden, Hrow.
  rewrite Hin, Z.eqb_refl. reflexivity.
Qed.

(** What [DeleteFile] does for the owner of the bucket once the row is
    found in it. *)
Lemma DeleteFile_reached file :
  Bucket.UserID b = User.ID u ->
  FileRepository.GetByID e w fileID = Ok (Some file) ->
  File.BucketID file = bucketID ->
  exists w1,
    files w1 = files w /\ buckets w1 = buckets w /\
    lastFileID w1 = lastFileID w /\ lastBucketID w1 = lastBucketID w /\
    (forall q, q <> File.Path file -> disk w1 !! q = disk w !! q) /\
    (fails e OsRemove = false -> service.is_regular (disk w1) (File.Path file) = false) /\
    (fails e OsRemove = true ->
       disk w1 = disk w /\
       (service.FileExists (File.Path file) w = true ->
        w1 = log ErrorLevel "Failed to delete file from disk"
               (log DebugLevel "Delete file endpoint called" w))) /\
    DeleteFile e r w
    = match FileRepository.Delete e fileID w1 with
      | (Some _, w) =>
          (WriteJSON StatusInternalServerError (ErrorMessage "Failed to delete file"),
           log ErrorLevel "Failed to delete file" w)
      | (None, w) =>
          (WriteJSON StatusOK (Message "File deleted successfully"),
           log InfoLevel "File deleted successfully" w)
      end.
Proof.
  intros Hown Hrow Hin. enter_file DeleteFile.
  rewrite Hown, Z.eqb_refl, Hrow. cbn [negb].
  rewrite Hin, Z.eqb_refl. cbn [negb].
  cbv zeta.
  match goal with
  | |- context [FileRepository.Delete e fileID ?x] => set (w1 := x)
  end.
  exists w1.
  pose proof (unlink_native e (File.Path file)
                (log DebugLevel "Delete file endpoint called" w) w1 eq_refl)
    as (Hf & Hb & Hl & Hlb & Hd & Hr & Hfail).
  refine (conj Hf (conj Hb (conj Hl (conj Hlb (conj Hd (conj Hr (conj Hfail _))))))).
  destruct (FileRepository.Delete e fileID w1) as [[err|] w2]; reflexivity.
Qed.

End FileOfBucket.

(** X3.  When the owner of a bucket deletes one of its files and the
    metadata delete succeeds, the answer is [200], the row of that id is
    gone and no other row is, no path of the disk but the path of the row
    changes, and asking for the file or for its content with the same ids
    afterwards is answered [404 File not found].  When [os.Remove] does
    not fail, no regular file is left at the path of the row; when it
    fails, the disk is as it was and, the path being on disk, the handler
    has logged [Failed to delete file from disk] and gone on. *)
Theorem delete_file_removes_row_and_content e r w u bucketID fileID b file :
  user r = Some u -> bucketId r = Some bucketID -> fileId r = Some fileID ->
  BucketRepository.GetByID e w bucketID = Ok (Some b) ->
  Bucket.UserID b = User.ID u ->
  FileRepository.GetByID e w fileID = Ok (Some file) ->
  File.BucketID file = bucketID ->
  fails e FileDelete = false ->
  let w' := snd (DeleteFile e r w) in
  fst (DeleteFile e r w) = WriteJSON StatusOK (Message "File deleted successfully") /\
  files w' = List.filter (fun f => negb (File.ID f =? fileID)) (files w) /\
  buckets w' = buckets w /\
  (forall q, q <> File.Path file -> disk w' !! q = disk w !! q) /\
  fst (GetFile e r w') = WriteJSON StatusNotFound (ErrorMessage "File not found") /\
  fst (DownloadFile e r w') = WriteJSON StatusNotFound (ErrorMessage "File not found") /\
  (fails e OsRemove = false -> service.is_regular (disk w') (File.Path file) = false) /\
  (fails e OsRemove = true ->
     disk w' = disk w /\
     (service.FileExists (File.Path file) w = true -> error_logged w w')).
Proof.
  intros Hu Hid Hfid Hb Hown Hrow Hin Hdel w'.
  destruct (DeleteFile_reached e r w u bucketID fileID b Hu Hid Hfid Hb file Hown Hrow Hin)
    as (w1 & Hf & Hbk & Hl & Hlb & Hd & Hr & Hfail & Heq).
  unfold FileRepository.Delete in Heq. rewrite Hdel in Heq.
  assert (Hfiles : files w' = List.filter (fun f => negb (File.ID f =? fileID)) (files w))
    by (subst w'; rewrite Heq; proj_simpl; rewrite Hf; reflexivity).
  assert (Hbuckets : buckets w' = buckets w)
    by (subst w'; rewrite Heq; proj_simpl; exact Hbk).
  assert (Hb' : BucketRepository.GetByID e w' bucketID = Ok (Some b))
    by (rewrite (bucket_GetByID_ext e w w' bucketID Hbuckets); exact Hb).
  assert (Hrow' : FileRepository.GetByID e w' fileID = Ok None).
  { apply file_GetByID_inv in Hrow as (Hq & _).
    unfold FileRepository.GetByID. rewrite Hq, Hfiles.
    rewrite (find_filter_out (fun f => File.ID f =? fileID)). reflexivity. }
  split; [rewrite Heq; reflexivity |].
  split; [exact Hfiles |].
  split; [exact Hbuckets |].
  split; [subst w'; rewrite Heq; proj_simpl; exact Hd |].
  split.
  { rewrite (GetFile_no_such_file e r w' u bucketID fileID b Hu Hid Hfid Hb' None
               (owner_not_denied b u Hown) Hrow'); [reflexivity | discriminate]. }
  split.
  { rewrite (DownloadFile_no_such_file e r w' u bucketID fileID b Hu Hid Hfid Hb' None
               (owner_not_denied b u Hown) Hrow'); [reflexivity | discriminate]. }
  split.
  - intros Hrm. subst w'. rewrite Heq. proj_simpl. now apply Hr.
  - intros Hrm. destruct (Hfail Hrm) as [Hsame Hlog].
    split; [subst w'; rewrite Heq; proj_simpl; exact Hsame |].
    intros Hex. subst w'. rewrite Heq. proj_simpl. rewrite (Hlog Hex).
    exists "Failed to delete file from disk",
      [ {| level := DebugLevel; message := "Delete file endpoint called" |};
        {| level := ErrorLevel; message := "Failed to delete file from disk" |};
        {| level := InfoLevel; message := "File deleted successfully" |} ].
    split; [cbn; rewrite <- !app_assoc; reflexivity | cbn; tauto].
Qed.

Lemma delete_file_removes_row_and_content_witness :
  let e := Scenario.calm 102 in
  let r := Scenario.on_file Scenario.alice 2 2 in
  let w' := snd (DeleteFile e r Scenario.stocked) in
  fst (DeleteFile e r Scenario.stocked)
    = WriteJSON StatusOK (Message "File deleted successfully") /\
  map File.ID (files w') = [1] /\
  disk w' !! "storage/1/2/a.txt" = None /\
  fst (DownloadFile e r w') = WriteJSON StatusNotFound (ErrorMessage "File not found").
Proof.
  intros e r w'.
  destruct (delete_file_removes_row_and_content e r Scenario.stocked Scenario.alice 2 2
              Scenario.pub_bucket
              {| File.ID := 2; File.BucketID := 2; File.Name := "a.txt";
                 File.Path := "storage/1/2/a.txt"; File.ContentType := "text/plain";
                 File.Size := 5; File.ETag := "5d41402abc4b2a76b9719d911017c592";
                 File.UserID := 1; File.CreatedAt := 101; File.UpdatedAt := 101 |})
    as (Hresp & Hfiles & _ & _ & _ & Hget & _);
    try (vm_compute; reflexivity).
  split; [exact Hresp |].
  split; [vm_compute; reflexivity |].
  split; [vm_compute; reflexivity | exact Hget].
Defined.

(** X4.  [DeleteFile] removes the content before the row: when the
    metadata delete then fails, the answer is [500], the error is logged,
    the row is still in the table and still answers [GetFile] with its
    old size and ETag.  When [os.Remove] did not fail the content is gone
    from the disk and [DownloadFile] answers [404 File not found on
    disk]; when it failed too, the disk is as it was. *)
Theorem delete_file_failure_leaves_row_without_content e r w u bucketID fileID b file c :
  user r = Some u -> bucketId r = Some bucketID -> fileId r = Some fileID ->
  BucketRepository.GetByID e w bucketID = Ok (Some b) ->
  Bucket.UserID b = User.ID u ->
  FileRepository.GetByID e w fileID = Ok (Some file) ->
  File.BucketID file = bucketID ->
  disk w !! File.Path file = Some (Regular c) ->
  os.builtin_dir (File.Path file) = false ->
  fails e FileDelete = true ->
  let w' := snd (DeleteFile e r w) in
  fst (DeleteFile e r w)
    = WriteJSON StatusInternalServerError (ErrorMessage "Failed to delete file") /\
  error_logged w w' /\
  files w' = files w /\
  fst (GetFile e r w') = WriteJSON StatusOK (FileObject (fileJSON file)) /\
  (fails e OsRemove = false ->
     disk w' = delete (File.Path file) (disk w) /\
     fst (DownloadFile e r w')
       = WriteJSON StatusNotFound (ErrorMessage "File not found on disk")) /\
  (fails e OsRemove = true -> disk w' = disk w).
Proof.
  intros Hu Hid Hfid Hb Hown Hrow Hin Hdisk Hplain Hdel w'.
  assert (Heq : DeleteFile e r w
    = (WriteJSON StatusInternalServerError (ErrorMessage "Failed to delete file"),
       log ErrorLevel "Failed to delete file"
         (if fails e OsRemove
          then log ErrorLevel "Failed to delete file from disk"
                 (log DebugLevel "Delete file endpoint called" w)
          else set_disk (delete (File.Path file) (disk w))
                 (log DebugLevel "Delete file endpoint called" w)))).
  { unfold DeleteFile. rewrite Hu, Hid, Hfid. unlog. rewrite Hb.
    rewrite Hown, Z.eqb_refl, Hrow. cbn [negb].
    rewrite Hin, Z.eqb_refl. cbn [negb].
    unfold service.FileExists, os.Remove. proj_simpl. rewrite Hdisk.
    destruct (fails e OsRemove); proj_simpl;
      unfold FileRepository.Delete; rewrite Hdel; reflexivity. }
  assert (Hfiles : files w' = files w)
    by (subst w'; rewrite Heq; destruct (fails e OsRemove); reflexivity).
  assert (Hbuckets : buckets w' = buckets w)
    by (subst w'; rewrite Heq; destruct (fails e OsRemove); reflexivity).
  assert (Hb' : BucketRepository.GetByID e w' bucketID = Ok (Some b))
    by (rewrite (bucket_GetByID_ext e w w' bucketID Hbuckets); exact Hb).
  assert (Hrow' : FileRepository.GetByID e w' fileID = Ok (Some file))
    by (unfold FileRepository.GetByID in *; rewrite Hfiles; exact Hrow).
  split; [rewrite Heq; reflexivity |].
  split.
  { subst w'. rewrite Heq. destruct (fails e OsRemove).
    - apply (error_logged_last w _
               [ {| level := DebugLevel; message := "Delete file endpoint called" |};
                 {| level := ErrorLevel; message := "Failed to delete file from disk" |} ]
               "Failed to delete file").
      cbn. rewrite <- !app_assoc. reflexivity.
    - apply (error_logged_last w _
               [ {| level := DebugLevel; message := "Delete file endpoint called" |} ]
               "Failed to delete file").
      reflexivity. }
  split; [exact Hfiles |].
  split.
  { apply (GetFile_found e r w' u bucketID fileID b Hu Hid Hfid Hb' file
             (owner_not_denied b u Hown) Hrow' Hin). }
  split.
  - intros Hrm.
    assert (Hd : disk w' = delete (File.Path file) (disk w))
      by (subst w'; rewrite Heq, Hrm; reflexivity).
    split; [exact Hd |].
    rewrite (DownloadFile_not_on_disk e r w' u bucketID fileID b Hu Hid Hfid Hb' file
               (owner_not_denied b u Hown) Hrow' Hin); [reflexivity |].
    unfold service.FileExists. rewrite Hd, lookup_delete_eq. exact Hplain.
  - intros Hrm. subst w'. rewrite Heq, Hrm. reflexivity.
Qed.

Lemma delete_file_failure_leaves_row_without_content_witness :
  let e := Scenario.failing FileDelete 102 in
  let r := Scenario.on_file Scenario.alice 2 2 in
  let w' := snd (DeleteFile e r Scenario.stocked) in
  status (fst (DeleteFile e r Scenario.stocked)) = StatusInternalServerError /\
  files w' = files Scenario.stocked /\
  status (fst (GetFile e r w')) = StatusOK /\
  fst (DownloadFile e r w')
    = WriteJSON StatusNotFound (ErrorMessage "File not found on disk").
Proof.
  intros e r w'.
  destruct (delete_file_failure_leaves_row_without_content e r Scenario.stocked
              Scenario.alice 2 2 Scenario.pub_bucket
              {| File.ID := 2; File.BucketID := 2; File.Name := "a.txt";
                 File.Path := "storage/1/2/a.txt"; File.ContentType := "text/plain";
                 File.Size := 5; File.ETag := "5d41402abc4b2a76b9719d911017c592";
                 File.UserID := 1; File.CreatedAt := 101; File.UpdatedAt := 101 |}
              (bytes_of "hello"))
    as (Hresp & _ & Hfiles & Hget & Hgone & _);
    try (vm_compute; reflexivity).
  split; [rewrite Hresp; reflexivity |].
  split; [exact Hfiles |].
  split; [unfold w'; rewrite Hget; reflexivity |].
  apply (Hgone eq_refl).
Defined.

(** ** Private buckets and file ids *)

(** X5.  In a private bucket of someone else nothing can be read, written
    or deleted through the native adapter: an upload, and the reading,
    the download and the deletion of any file id are answered [403 Access
    denied] and change nothing but the log, whether or not the file id
    names a row. *)
Theorem private_bucket_is_closed_to_strangers e r w u bucketID b :
  user r = Some u -> bucketId r = Some bucketID ->
  BucketRepository.GetByID e w bucketID = Ok (Some b) ->
  Bucket.UserID b <> User.ID u -> Bucket.IsPublic b = false ->
  (fst (UploadFile e r w) = WriteJSON StatusForbidden (ErrorMessage "Access denied") /\
   same_storage w (snd (UploadFile e r w))) /\
  (forall fileID, fileId r = Some fileID ->
     forall h, In h [GetFile; DownloadFile; DeleteFile] ->
       fst (h e r w) = WriteJSON StatusForbidden (ErrorMessage "Access denied") /\
       same_storage w (snd (h e r w))).
Proof.
  intros Hu Hid Hb Hother Hpriv.
  assert (Hden : denied b u = true)
    by (unfold denied; rewrite (not_owner b u Hother), Hpriv; reflexivity).
  split.
  - unfold UploadFile. rewrite Hu, Hid. unlog. rewrite Hb, Hden.
    repeat split; reflexivity.
  - intros fileID Hfid h Hh. cbn [In] in Hh.
    destruct Hh as [<- | [<- | [<- | []]]].
    + unfold GetFile. rewrite Hu, Hid, Hfid. unlog. rewrite Hb, Hden.
      repeat split; reflexivity.
    + unfold DownloadFile. rewrite Hu, Hid, Hfid. unlog. rewrite Hb, Hden.
      repeat split; reflexivity.
    + unfold DeleteFile. rewrite Hu, Hid, Hfid. unlog.
      rewrite Hb, (not_owner b u Hother). repeat split; reflexivity.
Qed.

Lemma private_bucket_is_closed_to_strangers_witness :
  let e := Scenario.calm 102 in
  fst (UploadFile e (Scenario.upload Scenario.bob 1 "b.txt" "text/plain" "hi") Scenario.stocked)
    = WriteJSON StatusForbidden (ErrorMessage "Access denied") /\
  fst (DownloadFile e (Scenario.on_file Scenario.bob 1 1) Scenario.stocked)
    = WriteJSON StatusForbidden (ErrorMessage "Access denied").
Proof.
  intros e.
  split.
  - apply (private_bucket_is_closed_to_strangers e
             (Scenario.upload Scenario.bob 1 "b.txt" "text/plain" "hi") Scenario.stocked
             Scenario.bob 1 Scenario.logs_bucket);
      first [reflexivity | vm_compute; reflexivity | cbn; lia].
  - destruct (private_bucket_is_closed_to_strangers e
                (Scenario.on_file Scenario.bob 1 1) Scenario.stocked
                Scenario.bob 1 Scenario.logs_bucket eq_refl eq_refl
                ltac:(vm_compute; reflexivity) ltac:(cbn; lia) eq_refl) as (_ & Hfile).
    apply (Hfile 1 eq_refl DownloadFile). cbn [In]. tauto.
Defined.

(** X6.  A file id counts only together with the bucket of its row: when
    the row of the file id belongs to another bucket than the one of the
    request, an actor who may read the bucket of the request is answered
    [404 File not found] by [GetFile] and [DownloadFile], its owner the
    same by [DeleteFile], and no such [DeleteFile] is answered [200] or
    changes anything but the log. *)
Theorem file_id_counts_only_in_its_bucket e r w u bucketID fileID b file :
  user r = Some u -> bucketId r = Some bucketID -> fileId r = Some fileID ->
  BucketRepository.GetByID e w bucketID = Ok (Some b) ->
  FileRepository.GetByID e w fileID = Ok (Some file) ->
  File.BucketID file <> bucketID ->
  (denied b u = false ->
     fst (GetFile e r w) = WriteJSON StatusNotFound (ErrorMessage "File not found") /\
     fst (DownloadFile e r w) = WriteJSON StatusNotFound (ErrorMessage "File not found")) /\
  (Bucket.UserID b = User.ID u ->
     fst (DeleteFile e r w) = WriteJSON StatusNotFound (ErrorMessage "File not found")) /\
  status (fst (DeleteFile e r w)) <> StatusOK /\
  same_storage w (snd (DeleteFile e r w)).
Proof.
  intros Hu Hid Hfid Hb Hrow Hother.
  assert (Hfar : forall f, Some file = Some f -> File.BucketID f <> bucketID)
    by (intros f [= <-]; exact Hother).
  split; [| split].
  - intros Hden.
    rewrite (GetFile_no_such_file e r w u bucketID fileID b Hu Hid Hfid Hb
               (Some file) Hden Hrow Hfar).
    rewrite (DownloadFile_no_such_file e r w u bucketID fileID b Hu Hid Hfid Hb
               (Some file) Hden Hrow Hfar).
    split; reflexivity.
  - intros Hown.
    rewrite (DeleteFile_no_such_file e r w u bucketID fileID b Hu Hid Hfid Hb
               (Some file) Hown Hrow Hfar).
    reflexivity.
  - destruct (Z.eq_dec (Bucket.UserID b) (User.ID u)) as [Hown | Hno].
    + rewrite (DeleteFile_no_such_file e r w u bucketID fileID b Hu Hid Hfid Hb
                 (Some file) Hown Hrow Hfar).
      split; [discriminate | repeat split; reflexivity].
    + unfold DeleteFile. rewrite Hu, Hid, Hfid. unlog.
      rewrite Hb, (not_owner b u Hno).
      split; [discriminate | repeat split; reflexivity].
Qed.

Lemma file_id_counts_only_in_its_bucket_witness :
  let e := Scenario.calm 102 in
  let r := Scenario.on_file Scenario.bob 2 1 in
  fst (DownloadFile e r Scenario.stocked)
    = WriteJSON StatusNotFound (ErrorMessage "File not found") /\
  same_storage Scenario.stocked (snd (DeleteFile e r Scenario.stocked)).
Proof.
  intros e r.
  destruct (file_id_counts_only_in_its_bucket e r Scenario.stocked Scenario.bob 2 1
              Scenario.pub_bucket
              {| File.ID := 1; File.BucketID := 1; File.Name := "a.txt";
                 File.Path := "storage/1/1/a.txt"; File.ContentType := "text/plain";
                 File.Size := 5; File.ETag := "5d41402abc4b2a76b9719d911017c592";
                 File.UserID := 1; File.CreatedAt := 100; File.UpdatedAt := 100 |}
              eq_refl eq_refl eq_refl ltac:(vm_compute; reflexivity)
              ltac:(vm_compute; reflexivity) ltac:(cbn; lia))
    as (Hread & _ & _ & Hsame).
  split; [apply Hread; reflexivity | exact Hsame].
Defined.

(** ** Listings *)

Lemma limit_offset_bounded {A} limit offset (l : list A) :
  0 <= limit ->
  sql.limit_offset limit offset l = firstn (Z.to_nat limit) (skipn (Z.to_nat offset) l).
Proof.
  intros H. unfold sql.limit_offset. cbv zeta.
  destruct (Z.ltb_spec limit 0); [lia | reflexivity].
Qed.

Lemma limit_offset_length {A} limit offset (l : list A) :
  0 <= limit -> Z.of_nat (length (sql.limit_offset limit offset l)) <= limit.
Proof.
  intros H. rewrite limit_offset_bounded by exact H.
  pose proof (firstn_le_length (Z.to_nat limit) (skipn (Z.to_nat offset) l)). lia.
Qed.

(** A page of a listing: rows of the table that pass the filter, newest
    first, no more of them than the limit. *)
Lemma page_spec {A} (key : A -> Z) (keep : A -> bool) limit offset (rows : list A) :
  let page := sql.limit_offset limit offset (sql.order_by_desc key (List.filter keep rows)) in
  StronglySorted (fun a b => key b <= key a) page /\
  (forall x, In x page -> In x rows /\ keep x = true) /\
  (0 <= limit -> Z.of_nat (length page) <= limit) /\
  (offset = 0 -> Z.of_nat (length (List.filter keep rows)) <= limit ->
   Permutation page (List.filter keep rows)).
Proof.
  intros page. split; [| split; [| split]].
  - apply limit_offset_sorted, order_by_desc_sorted.
  - intros x Hx. apply limit_offset_In in Hx.
    apply (Permutation_in _ (order_by_desc_perm key _)) in Hx.
    now apply filter_In in Hx.
  - apply limit_offset_length.
  - intros -> Hlen. subst page. rewrite limit_offset_all.
    + apply order_by_desc_perm.
    + rewrite (Permutation_length (order_by_desc_perm key _)). exact Hlen.
Qed.

Lemma pageLimit_bounds r : 0 < pageLimit r <= 100.
Proof.
  unfold pageLimit. destruct (limit r) as [l|]; [| lia].
  destruct (0 <? l) eqn:H1; destruct (l <=? 100) eqn:H2; cbn [andb]; lia.
Qed.

Lemma pageOffset_bounds r : 0 <= pageOffset r.
Proof.
  unfold pageOffset. destruct (offset r) as [o|]; [| lia].
  destruct (0 <=? o) eqn:H; lia.
Qed.

Lemma s3MaxKeys_bounds r : 0 < s3MaxKeys r.
Proof.
  unfold s3MaxKeys. destruct (maxKeys r) as [mk|]; [| lia].
  destruct (0 <? mk) eqn:H; lia.
Qed.

(** X7.  [ListFiles], for an actor who may read the bucket and with the
    listing query working, answers [200] with a page of at most [limit]
    files of that bucket, newest first, where [limit] is the one asked
    for when it lies in 1..100 and 50 otherwise, and [offset] is never
    negative.  The [total] it reports is the number of files of the whole
    bucket, whatever the prefix asked for; when the count query fails the
    answer is still [200], with a total of 0 and the error logged. *)
Theorem list_files_page_and_total e r w u bucketID b :
  user r = Some u -> bucketId r = Some bucketID ->
  BucketRepository.GetByID e w bucketID = Ok (Some b) ->
  denied b u = false ->
  fails e FileList = false ->
  exists fs total,
    fst (ListFiles e r w)
      = WriteJSON StatusOK (FilePage (map fileJSON fs) total (pageLimit r) (pageOffset r)) /\
    0 < pageLimit r <= 100 /\ 0 <= pageOffset r /\
    Z.of_nat (length fs) <= pageLimit r /\
    StronglySorted (fun f g => File.CreatedAt g <= File.CreatedAt f) fs /\
    (forall f, In f fs -> In f (files w) /\ File.BucketID f = bucketID) /\
    (fails e FileCount = false ->
       total = Z.of_nat (length (List.filter (FileRepository.in_bucket bucketID) (files w)))) /\
    (fails e FileCount = true ->
       total = 0 /\ error_logged w (snd (ListFiles e r w))).
Proof.
  intros Hu Hid Hb Hden Hlist.
  pose proof (pageLimit_bounds r) as Hlim.
  pose proof (pageOffset_bounds r) as Hoff.
  unfold ListFiles. rewrite Hu, Hid. unlog. rewrite Hb, Hden.
  unfold FileRepository.ListByPrefix, FileRepository.List, FileRepository.Count.
  rewrite Hlist. proj_simpl.
  assert (Hkeep : forall f, (if negb (prefix r =? "")%string
                             then FileRepository.in_bucket bucketID f
                                  && sql.like (prefix r +:+ "%") (File.Name f)
                             else FileRepository.in_bucket bucketID f) = true ->
                            File.BucketID f = bucketID).
  { intros f Hf. apply Z.eqb_eq.
    destruct (negb (prefix r =? "")%string); [| exact Hf].
    now apply andb_true_iff in Hf as (Hf & _). }
  destruct (negb (prefix r =? "")%string);
    match goal with
    | |- context [sql.limit_offset ?l ?o (sql.order_by_desc ?k (List.filter ?p ?rows))] =>
        pose proof (page_spec k p l o rows) as (Hs & Hin & Hlen & _)
    end;
    (eexists;
     exists (if fails e FileCount then 0
             else Z.of_nat (length (List.filter (FileRepository.in_bucket bucketID)
                                      (files w))));
     split; [destruct (fails e FileCount); reflexivity |];
     split; [lia |]; split; [lia |]; split; [apply Hlen; lia |];
     split; [exact Hs |]; split;
     [ intros f Hf; apply Hin in Hf as (Hf & Hk); split; [exact Hf | exact (Hkeep f Hk)]
     | split; intros Hc; rewrite Hc; [reflexivity | split; [reflexivity |]];
       apply (error_logged_last w _
                [ {| level := DebugLevel; message := "List files endpoint called" |} ]
                "Failed to count files");
       reflexivity ]).
Qed.

Lemma list_files_page_and_total_witness :
  let e := Scenario.calm 102 in
  let r := Scenario.with_prefix Scenario.alice 1 "a_" in
  exists fs total,
    fst (ListFiles e r Scenario.lettered)
      = WriteJSON StatusOK (FilePage (map fileJSON fs) total 50 0) /\
    total = 2.
Proof.
  intros e r.
  destruct (list_files_page_and_total e r Scenario.lettered Scenario.alice 1
              Scenario.logs_bucket)
    as (fs & total & Hresp & _ & _ & _ & _ & _ & Htotal & _);
    try (vm_compute; reflexivity).
  exists fs, total. split; [exact Hresp |].
  rewrite Htotal; vm_compute; reflexivity.
Defined.

Lemma find_none_all {A} (p : A -> bool) (l : list A) :
  (forall x, In x l -> p x = false) -> find p l = None.
Proof.
  induction l as [|y l IH]; intros H; [reflexivity |]. cbn [find].
  rewrite (H y (or_introl eq_refl)). apply IH. intros x Hx. apply H. now right.
Qed.

(** X8.  [S3ListObjects] finds a bucket only among the buckets of the
    actor: when the actor owns no bucket of the name asked for, the
    answer is a bare [404], also when someone else owns a public bucket of
    that name.  The second lookup of the handler, meant for public
    buckets, searches the actor's own buckets again and never finds
    one. *)
Theorem s3_list_objects_sees_own_buckets_only e r w u :
  s3user r = Some u -> bucketName r <> "" ->
  BucketRepository.GetByName e w (bucketName r) (User.ID u) = Ok None ->
  fst (S3ListObjects e r w) = WriteHeader [] StatusNotFound /\
  same_storage w (snd (S3ListObjects e r w)).
Proof.
  intros Hu Hbn Hnone.
  split; [| apply S3ListObjects_reads].
  unfold S3ListObjects. rewrite Hu.
  apply String.eqb_neq in Hbn. rewrite Hbn. unlog. rewrite Hnone.
  unfold BucketRepository.GetByName in Hnone. unfold BucketRepository.List.
  destruct (fails e BucketQuery); [discriminate |].
  injection Hnone as Hnone.
  rewrite find_none_all; [reflexivity |].
  intros x Hx. apply limit_offset_In in Hx.
  apply (Permutation_in _ (order_by_desc_perm Bucket.CreatedAt _)) in Hx.
  apply filter_In in Hx as (Hin & Hown).
  pose proof (find_none _ _ Hnone x Hin) as Hx. cbn beta in Hx.
  rewrite Hown, andb_true_r in Hx. rewrite Hx. reflexivity.
Qed.

Lemma s3_list_objects_sees_own_buckets_only_witness :
  let r := {| s3user := Some Scenario.bob; bucketName := "pub"; objectKey := "";
              contentType := ""; payload := []; s3prefix := ""; maxKeys := None |} in
  Bucket.IsPublic Scenario.pub_bucket = true /\
  fst (S3ListObjects (Scenario.calm 102) r Scenario.stocked) = WriteHeader [] StatusNotFound.
Proof.
  intros r. split; [reflexivity |].
  apply (s3_list_objects_sees_own_buckets_only (Scenario.calm 102) r Scenario.stocked
           Scenario.bob eq_refl ltac:(discriminate) ltac:(vm_compute; reflexivity)).
Defined.

(** X9.  [S3ListObjects] on a bucket of the actor, with the listing query
    working, answers [200] with the name and the prefix asked for, with
    [MaxKeys] the number asked for when it is positive and 1000
    otherwise, and with at most [MaxKeys] objects of that bucket, newest
    first.  [IsTruncated] is [false] in every such answer: also when the
    bucket holds more than [MaxKeys] objects, in which case exactly
    [MaxKeys] of them are listed. *)
Theorem s3_list_objects_never_reports_truncation e r w u b :
  s3user r = Some u -> bucketName r <> "" ->
  BucketRepository.GetByName e w (bucketName r) (User.ID u) = Ok (Some b) ->
  fails e FileList = false ->
  exists fs,
    fst (S3ListObjects e r w)
      = {| status := StatusOK; headers := [("Content-Type", "application/xml")];
           body := ListBucketXML {| Name := bucketName r; Prefix := s3prefix r;
                                    MaxKeys := s3MaxKeys r; IsTruncated := false;
                                    Contents := map content fs |} |} /\
    0 < s3MaxKeys r /\
    (maxKeys r = None -> s3MaxKeys r = 1000) /\
    Z.of_nat (length fs) <= s3MaxKeys r /\
    StronglySorted (fun f g => File.CreatedAt g <= File.CreatedAt f) fs /\
    (forall f, In f fs -> In f (files w) /\ File.BucketID f = Bucket.ID b) /\
    (s3prefix r = "" ->
     s3MaxKeys r
       < Z.of_nat (length (List.filter (FileRepository.in_bucket (Bucket.ID b)) (files w))) ->
     Z.of_nat (length fs) = s3MaxKeys r).
Proof.
  intros Hu Hbn Hb Hlist.
  pose proof (s3MaxKeys_bounds r) as Hmk.
  destruct (GetByName_owned e w _ _ b Hb) as (_ & Hown).
  unfold S3ListObjects. rewrite Hu.
  apply String.eqb_neq in Hbn. rewrite Hbn. unlog. rewrite Hb.
  rewrite (owner_not_denied b u Hown).
  unfold FileRepository.ListByPrefix, FileRepository.List. rewrite Hlist.
  destruct (s3prefix r =? "")%string eqn:Hp; cbn [negb];
    match goal with
    | |- context [sql.limit_offset ?l ?o (sql.order_by_desc ?k (List.filter ?p ?rows))] =>
        pose proof (page_spec k p l o rows) as (Hs & Hin & Hlen & _)
    end;
    (eexists; split; [reflexivity |];
     split; [lia |];
     split; [intros Hnone; unfold s3MaxKeys; rewrite Hnone; reflexivity |];
     split; [apply Hlen; lia |]; split; [exact Hs |]; split).
  - intros f Hf. apply Hin in Hf as (Hf & Hk). split; [exact Hf | now apply Z.eqb_eq].
  - intros _ Hmore. rewrite limit_offset_bounded by lia.
    rewrite length_firstn, length_skipn, (Permutation_length (order_by_desc_perm File.CreatedAt _)). lia.
  - intros f Hf. apply Hin in Hf as (Hf & Hk). split; [exact Hf |].
    apply andb_true_iff in Hk as (Hk & _). now apply Z.eqb_eq.
  - intros Hno. apply String.eqb_neq in Hp. contradiction.
Qed.

Lemma s3_list_objects_never_reports_truncation_witness :
  let r := {| s3user := Some Scenario.alice; bucketName := "logs"; objectKey := "";
              contentType := ""; payload := []; s3prefix := ""; maxKeys := Some 1 |} in
  exists fs,
    body (fst (S3ListObjects (Scenario.calm 102) r Scenario.lettered))
      = ListBucketXML {| Name := "logs"; Prefix := ""; MaxKeys := 1; IsTruncated := false;
                         Contents := map content fs |} /\
    Z.of_nat (length fs) = 1 /\
    length (files Scenario.lettered) = 2%nat.
Proof.
  intros r.
  destruct (s3_list_objects_never_reports_truncation (Scenario.calm 102) r Scenario.lettered
              Scenario.alice Scenario.logs_bucket eq_refl ltac:(discriminate)
              ltac:(vm_compute; reflexivity) eq_refl)
    as (fs & Hresp & _ & _ & _ & _ & _ & Hcut).
  exists fs. split; [rewrite Hresp; reflexivity |].
  split; [apply Hcut; [reflexivity | vm_compute; reflexivity] | vm_compute; reflexivity].
Defined.

(** ** Deleting an object through the S3 adapter *)

Lemma NoDup_map_In_inj {A B} (f : A -> B) (l : list A) x y :
  List.NoDup (map f l) -> In x l -> In y l -> f x = f y -> x = y.
Proof.
  induction l as [|z l IH]; intros Hn Hx Hy Hxy; [destruct Hx |].
  cbn [map] in Hn. apply List.NoDup_cons_iff in Hn as (Hz & Hn).
  destruct Hx as [<- | Hx], Hy as [<- | Hy]; [reflexivity | | | now apply IH].
  - exfalso. apply Hz. rewrite Hxy. now apply in_map.
  - exfalso. apply Hz. rewrite <- Hxy. now apply in_map.
Qed.

Lemma NoDup_map_filter {A B} (f : A -> B) (p : A -> bool) (l : list A) :
  List.NoDup (map f l) -> List.NoDup (map f (List.filter p l)).
Proof.
  induction l as [|z l IH]; intros Hn; [constructor |].
  cbn [map] in Hn. apply List.NoDup_cons_iff in Hn as (Hz & Hn).
  cbn [List.filter]. destruct (p z); [| now apply IH].
  cbn [map]. constructor; [| now apply IH].
  intros Hin. apply Hz. apply in_map_iff in Hin as (x & <- & Hx).
  apply filter_In in Hx as (Hx & _). now apply in_map.
Qed.

Lemma named_key bucketID name f :
  FileRepository.named bucketID name f = true <->
  (File.BucketID f, File.Name f) = (bucketID, name).
Proof.
  unfold FileRepository.named. rewrite andb_true_iff, Z.eqb_eq, String.eqb_eq.
  split; [intros (-> & ->); reflexivity | intros [= -> ->]; split; reflexivity].
Qed.

(** With unique names, deleting the row found for a name leaves no row of
    that name. *)
Lemma named_gone bucketID name rows file :
  List.NoDup (map (fun f => (File.BucketID f, File.Name f)) rows) ->
  find (FileRepository.named bucketID name) rows = Some file ->
  find (FileRepository.named bucketID name)
       (List.filter (fun f => negb (File.ID f =? File.ID file)) rows) = None.
Proof.
  intros Hn Hfind. apply find_none_all. intros x Hx.
  apply filter_In in Hx as (Hx & Hid).
  destruct (FileRepository.named bucketID name x) eqn:Hnamed; [| reflexivity].
  apply find_some in Hfind as (Hfile & Hfn).
  apply named_key in Hnamed. apply named_key in Hfn.
  assert (x = file)
    by (apply (NoDup_map_In_inj _ rows x file Hn Hx Hfile); congruence).
  subst x. rewrite Z.eqb_refl in Hid. discriminate.
Qed.

(** X10.  [S3DeleteObject] by the owner of the bucket, with the metadata
    queries working and names unique in the table, answers [204] whether
    or not the key is stored, and leaves no row of that key; when the
    key was not stored it changes nothing but the log.  When [os.Remove]
    does not fail, no regular file is left at the path of the row; when
    it fails, its error is not looked at: the answer is [204] all the
    same and the disk is as it was.  Afterwards a download of the key is
    answered [404], and a second delete is answered [204] again and
    changes nothing but the log. *)
Theorem s3_delete_object_is_idempotent e r w u b :
  s3user r = Some u -> bucketName r <> "" -> objectKey r <> "" ->
  BucketRepository.GetByName e w (bucketName r) (User.ID u) = Ok (Some b) ->
  fails e FileQuery = false -> fails e FileDelete = false ->
  names_unique w ->
  let w' := snd (S3DeleteObject e r w) in
  fst (S3DeleteObject e r w) = WriteHeader [] StatusNoContent /\
  find (FileRepository.named (Bucket.ID b) (objectKey r)) (files w') = None /\
  buckets w' = buckets w /\
  (find (FileRepository.named (Bucket.ID b) (objectKey r)) (files w) = None ->
   same_storage w w') /\
  (forall file,
     find (FileRepository.named (Bucket.ID b) (objectKey r)) (files w) = Some file ->
     (fails e OsRemove = false -> service.is_regular (disk w') (File.Path file) = false) /\
     (fails e OsRemove = true -> disk w' = disk w)) /\
  fst (S3GetObject e r w') = WriteHeader [] StatusNotFound /\
  fst (S3DeleteObject e r w') = WriteHeader [] StatusNoContent /\
  same_storage w' (snd (S3DeleteObject e r w')).
Proof.
  intros Hu Hbn Hkey Hb Hq Hdel Huniq w'.
  destruct (GetByName_owned e w _ _ b Hb) as (_ & Hown).
  apply String.eqb_neq in Hbn. apply String.eqb_neq in Hkey.
  assert (Hmissing : forall w0,
            buckets w0 = buckets w ->
            find (FileRepository.named (Bucket.ID b) (objectKey r)) (files w0) = None ->
            S3DeleteObject e r w0
              = (WriteHeader [] StatusNoContent,
                 log DebugLevel "S3 delete object endpoint called" w0) /\
            fst (S3GetObject e r w0) = WriteHeader [] StatusNotFound).
  { intros w0 Hbk Hnone. split.
    - unfold S3DeleteObject. rewrite Hu, Hbn, Hkey. cbn [orb]. unlog.
      rewrite (bucket_GetByName_ext e w w0 (bucketName r) (User.ID u) Hbk).
      rewrite Hb, Hown, Z.eqb_refl. cbn [negb]. unlog.
      unfold FileRepository.GetByName. rewrite Hq, Hnone. reflexivity.
    - unfold S3GetObject. rewrite Hu, Hbn, Hkey. cbn [orb]. unlog.
      rewrite (bucket_GetByName_ext e w w0 (bucketName r) (User.ID u) Hbk).
      rewrite Hb, (owner_not_denied b u Hown). unlog.
      unfold FileRepository.GetByName. rewrite Hq, Hnone. reflexivity. }
  assert (Hstep : find (FileRepository.named (Bucket.ID b) (objectKey r)) (files w') = None /\
                  buckets w' = buckets w /\
                  fst (S3DeleteObject e r w) = WriteHeader [] StatusNoContent /\
                  (find (FileRepository.named (Bucket.ID b) (objectKey r)) (files w) = None ->
                   same_storage w w') /\
                  (forall file,
                     find (FileRepository.named (Bucket.ID b) (objectKey r)) (files w)
                     = Some file ->
                     (fails e OsRemove = false ->
                        service.is_regular (disk w') (File.Path file) = false) /\
                     (fails e OsRemove = true -> disk w' = disk w))).
  { destruct (find (FileRepository.named (Bucket.ID b) (objectKey r)) (files w))
      as [file|] eqn:Hfind.
    - assert (Heq : exists w1,
                files w1 = files w /\ buckets w1 = buckets w /\
                (fails e OsRemove = false ->
                   service.is_regular (disk w1) (File.Path file) = false) /\
                (fails e OsRemove = true -> disk w1 = disk w) /\
                S3DeleteObject e r w
                = (WriteHeader [] StatusNoContent,
                   set_files (List.filter (fun f => negb (File.ID f =? File.ID file)) (files w1))
                     (lastFileID w1) w1)).
      { unfold S3DeleteObject. enter_s3 Hu Hbn Hkey Hb.
        rewrite Hown, Z.eqb_refl. cbn [negb]. unlog.
        unfold FileRepository.GetByName. rewrite Hq, Hfind. cbv zeta.
        match goal with
        | |- context [FileRepository.Delete e (File.ID file) ?x] => set (w1 := x)
        end.
        exists w1.
        pose proof (unlink_s3 e (File.Path file)
                      (log DebugLevel "S3 delete object endpoint called" w) w1 eq_refl)
          as (Hf & Hbk & _ & _ & _ & _ & Hr & Hstay).
        refine (conj Hf (conj Hbk (conj Hr (conj Hstay _)))).
        unfold FileRepository.Delete. rewrite Hdel. reflexivity. }
      destruct Heq as (w1 & Hf & Hbk & Hr & Hstay & Heq).
      subst w'. rewrite Heq. proj_simpl. rewrite Hf.
      split; [apply named_gone; assumption |].
      split; [exact Hbk |]. split; [reflexivity |]. split; [discriminate |].
      intros file' [= <-]. split; [exact Hr | exact Hstay].
    - destruct (Hmissing w eq_refl Hfind) as (Heq & _).
      subst w'. rewrite Heq. proj_simpl.
      split; [exact Hfind |]. split; [reflexivity |]. split; [reflexivity |].
      split; [intros _; repeat split; reflexivity | discriminate]. }
  destruct Hstep as (Hgone & Hbk & Hresp & Hsame & Hdisk).
  destruct (Hmissing w' Hbk Hgone) as (Hagain & Hget).
  split; [exact Hresp |]. split; [exact Hgone |]. split; [exact Hbk |].
  split; [exact Hsame |]. split; [exact Hdisk |]. split; [exact Hget |].
  rewrite Hagain. split; [reflexivity | repeat split; reflexivity].
Qed.

Lemma s3_delete_object_is_idempotent_witness :
  let e := Scenario.calm 102 in
  let r := Scenario.s3 Scenario.alice "pub" "a.txt" "" "" in
  let w' := snd (S3DeleteObject e r Scenario.stocked) in
  fst (S3DeleteObject e r Scenario.stocked) = WriteHeader [] StatusNoContent /\
  fst (S3GetObject e r w') = WriteHeader [] StatusNotFound /\
  fst (S3DeleteObject e r w') = WriteHeader [] StatusNoContent.
Proof.
  intros e r w'.
  destruct (s3_delete_object_is_idempotent e r Scenario.stocked Scenario.alice
              Scenario.pub_bucket eq_refl ltac:(discriminate) ltac:(discriminate)
              ltac:(vm_compute; reflexivity) eq_refl eq_refl)
    as (Hresp & _ & _ & _ & _ & Hget & Hagain & _).
  - unfold names_unique.
    replace (map (fun f => (File.BucketID f, File.Name f)) (files Scenario.stocked))
      with [(1, "a.txt"); (2, "a.txt")] by (vm_compute; reflexivity).
    repeat constructor; cbn [In]; intros H; decompose [or] H; congruence.
  - split; [exact Hresp | split; [exact Hget | exact Hagain]].
Defined.

(** ** Invariants of the table of files *)

Lemma names_unique_same w w' : files w' = files w -> names_unique w -> names_unique w'.
Proof. unfold names_unique. intros ->. trivial. Qed.

Lemma names_unique_updated e file bucketID ex w w' :
  List.NoDup (map File.ID (files w)) ->
  find (FileRepository.named bucketID (File.Name file)) (files w) = Some ex ->
  File.ID file = File.ID ex ->
  files w' = FileRepository.updated e file (files w) ->
  names_unique w -> names_unique w'.
Proof.
  unfold names_unique. intros Hnd Hfind Hid -> Huniq.
  apply find_some in Hfind as (Hin & Hnamed). apply named_key in Hnamed.
  replace (map (fun f => (File.BucketID f, File.Name f))
             (FileRepository.updated e file (files w)))
    with (map (fun f => (File.BucketID f, File.Name f)) (files w)); [exact Huniq |].
  unfold FileRepository.updated. rewrite map_map. apply map_ext_in.
  intros x Hx. destruct (Z.eqb_spec (File.ID x) (File.ID file)) as [Heq|]; [| reflexivity].
  assert (x = ex) as -> by (apply (NoDup_ID_inj (files w)); congruence).
  cbn [FileRepository.assign File.BucketID File.Name]. congruence.
Qed.

Lemma names_unique_inserted e id file w w' :
  find (FileRepository.named (File.BucketID file) (File.Name file)) (files w) = None ->
  files w' = (files w ++ [FileRepository.inserted e id file])%list ->
  names_unique w -> names_unique w'.
Proof.
  unfold names_unique. intros Hnone -> Huniq.
  rewrite map_app. cbn [map FileRepository.inserted File.BucketID File.Name].
  apply List.NoDup_app; [exact Huniq | constructor; [intros [] | constructor] |].
  intros a Ha [<-|[]]. apply in_map_iff in Ha as (f & Hf & Hin).
  pose proof (find_none _ _ Hnone f Hin) as Hno.
  assert (FileRepository.named (File.BucketID file) (File.Name file) f = true)
    by (apply named_key; exact Hf).
  congruence.
Qed.

Lemma primary_key_filter (p : File.t -> bool) w w' :
  files w' = List.filter p (files w) -> lastFileID w' = lastFileID w ->
  primary_key w -> primary_key w'.
Proof.
  unfold primary_key. intros -> -> (Hnd & Hall). split.
  - now apply NoDup_map_filter.
  - rewrite List.Forall_forall in *. intros f Hf. apply Hall.
    now apply filter_In in Hf.
Qed.

Lemma names_unique_filter (p : File.t -> bool) w w' :
  files w' = List.filter p (files w) -> names_unique w -> names_unique w'.
Proof. unfold names_unique. intros ->. apply NoDup_map_filter. Qed.

Lemma UploadFile_names_unique e r w :
  primary_key w -> names_unique w -> names_unique (snd (UploadFile e r w)).
Proof.
  intros (Hnd & _) Huniq.
  destruct (UploadFile_cases e r w) as [(u & bucketID & header & existing & w2 & Hop) | Hdown].
  - assert (Hex : existing = find (FileRepository.named bucketID (Filename header)) (files w)).
    { destruct Hop as (_ & _ & _ & _ & _ & Hex & _). now apply GetByName_file_inv in Hex. }
    destruct (copy_fails_after e) as [n|] eqn:Hn.
    { destruct (UploadFile_copy_failed _ _ _ _ _ _ _ _ Hop n Hn) as (w' & -> & _ & Hf & _).
      now apply (names_unique_same w). }
    destruct existing as [ex|].
    + destruct (fails e FileUpdate) eqn:Hf.
      * destruct (UploadFile_update_failed _ _ _ _ _ _ _ _ Hop ex eq_refl Hn Hf)
          as (w' & -> & _ & Hfiles & _).
        now apply (names_unique_same w).
      * destruct (UploadFile_updated _ _ _ _ _ _ _ _ Hop ex eq_refl Hn Hf)
          as (w' & -> & _ & Hfiles & _).
        eapply names_unique_updated; cycle 3;
          [exact Hfiles | exact Huniq | exact Hnd | exact (eq_sym Hex) | reflexivity].
    + destruct (fails e FileInsert) eqn:Hf.
      * destruct (UploadFile_create_failed _ _ _ _ _ _ _ _ Hop eq_refl Hn Hf)
          as (w' & -> & _ & Hfiles & _).
        now apply (names_unique_same w).
      * destruct (UploadFile_created _ _ _ _ _ _ _ _ Hop eq_refl Hn Hf)
          as (w' & -> & _ & Hfiles & _).
        eapply names_unique_inserted; cycle 1;
          [exact Hfiles | exact Huniq | exact (eq_sym Hex)].
  - destruct Hdown as (_ & Hf & _). now apply (names_unique_same w).
Qed.

Lemma S3PutObject_names_unique e r w :
  fails e FileQuery = false ->
  primary_key w -> names_unique w -> names_unique (snd (S3PutObject e r w)).
Proof.
  intros Hq (Hnd & _) Huniq.
  destruct (S3PutObject_cases e r w) as [(u & b & w2 & Hop) | Hdown].
  - destruct (copy_fails_after e) as [n|] eqn:Hn.
    { destruct (S3PutObject_copy_failed _ _ _ _ _ _ Hop n Hn) as (w' & -> & _ & Hf & _).
      now apply (names_unique_same w). }
    destruct (S3PutObject_copied _ _ _ _ _ _ Hop Hn) as (w' & -> & _ & _ & _ & _ & Hfiles).
    proj_simpl. unfold s3_existing in Hfiles. rewrite Hq in Hfiles.
    destruct (find _ (files w)) as [ex|] eqn:Hex.
    + destruct (fails e FileUpdate).
      * now apply (names_unique_same w).
      * eapply names_unique_updated; cycle 3;
          [exact Hfiles | exact Huniq | exact Hnd | exact Hex | reflexivity].
    + destruct (fails e FileInsert).
      * now apply (names_unique_same w).
      * eapply names_unique_inserted; cycle 1;
          [exact Hfiles | exact Huniq | exact Hex].
  - destruct Hdown as (_ & Hf & _). now apply (names_unique_same w).
Qed.

(** What the deleting handlers leave: an answer other than success with
    the tables as they were, or the rows without those of one id. *)
Ltac refused :=
  left; split; [vm_compute; discriminate | repeat split; reflexivity].

Lemma DeleteFile_files e r w :
  lastFileID (snd (DeleteFile e r w)) = lastFileID w /\
  buckets (snd (DeleteFile e r w)) = buckets w /\
  lastBucketID (snd (DeleteFile e r w)) = lastBucketID w /\
  ((status (fst (DeleteFile e r w)) <> StatusOK /\
    files (snd (DeleteFile e r w)) = files w) \/
   (status (fst (DeleteFile e r w)) = StatusOK /\
    exists id, files (snd (DeleteFile e r w))
               = List.filter (fun f => negb (File.ID f =? id)) (files w))).
Proof.
  unfold DeleteFile.
  destruct (user r) as [u|]; [| repeat split; refused].
  destruct (bucketId r) as [bucketID|]; [| repeat split; refused].
  destruct (fileId r) as [fileID|]; [| repeat split; refused].
  destruct (BucketRepository.GetByID _ _ _) as [[b|]|]; try (repeat split; refused).
  destruct (negb (Bucket.UserID b =? User.ID u)); [repeat split; refused |].
  destruct (FileRepository.GetByID _ _ _) as [[file|]|]; try (repeat split; refused).
  destruct (negb (File.BucketID file =? bucketID)); [repeat split; refused |].
  cbv zeta.
  match goal with
  | |- context [FileRepository.Delete e fileID ?x] => set (w1 := x)
  end.
  pose proof (unlink_native e (File.Path file)
                (log DebugLevel "Delete file endpoint called" w) w1 eq_refl)
    as (Hf & Hb & Hl & Hlb & _).
  unfold FileRepository.Delete. destruct (fails e FileDelete); proj_simpl.
  - split; [exact Hl |]. split; [exact Hb |]. split; [exact Hlb |].
    left. split; [vm_compute; discriminate | exact Hf].
  - split; [exact Hl |]. split; [exact Hb |]. split; [exact Hlb |].
    right. split; [reflexivity |]. exists fileID. rewrite Hf. reflexivity.
Qed.

Lemma S3DeleteObject_files e r w :
  lastFileID (snd (S3DeleteObject e r w)) = lastFileID w /\
  buckets (snd (S3DeleteObject e r w)) = buckets w /\
  lastBucketID (snd (S3DeleteObject e r w)) = lastBucketID w /\
  ((status (fst (S3DeleteObject e r w)) <> StatusNoContent /\
    files (snd (S3DeleteObject e r w)) = files w) \/
   (status (fst (S3DeleteObject e r w)) = StatusNoContent /\
    (files (snd (S3DeleteObject e r w)) = files w \/
     exists id, files (snd (S3DeleteObject e r w))
                = List.filter (fun f => negb (File.ID f =? id)) (files w)))).
Proof.
  unfold S3DeleteObject.
  destruct (s3user r) as [u|]; [| repeat split; refused].
  cbv zeta.
  destruct ((bucketName r =? "")%string || (objectKey r =? "")%string);
    [repeat split; refused |].
  destruct (BucketRepository.GetByName _ _ _ _) as [[b|]|]; try (repeat split; refused).
  destruct (negb (Bucket.UserID b =? User.ID u)); [repeat split; refused |].
  destruct (FileRepository.GetByName _ _ _ _) as [[file|]|];
    [ | repeat split; right; split; [reflexivity | left; reflexivity]
      | repeat split; refused ].
  match goal with
  | |- context [FileRepository.Delete e (File.ID file) ?x] => set (w1 := x)
  end.
  pose proof (unlink_s3 e (File.Path file)
                (log DebugLevel "S3 delete object endpoint called" w) w1 eq_refl)
    as (Hf & Hb & Hl & Hlb & _).
  unfold FileRepository.Delete. destruct (fails e FileDelete); proj_simpl.
  - split; [exact Hl |]. split; [exact Hb |]. split; [exact Hlb |].
    left. split; [vm_compute; discriminate | exact Hf].
  - split; [exact Hl |]. split; [exact Hb |]. split; [exact Hlb |].
    right. split; [reflexivity |]. right. exists (File.ID file). rewrite Hf. reflexivity.
Qed.

Lemma DeleteBucket_files e r w :
  lastFileID (snd (DeleteBucket e r w)) = lastFileID w /\
  files (snd (DeleteBucket e r w)) = files w /\
  disk (snd (DeleteBucket e r w)) = disk w.
Proof.
  unfold DeleteBucket, BucketRepository.Delete.
  repeat case_match; simplify_eq; repeat split; reflexivity.
Qed.

Lemma CreateBucket_files validate invalid bf e r w :
  lastFileID (snd (CreateBucket validate invalid bf e r w)) = lastFileID w /\
  files (snd (CreateBucket validate invalid bf e r w)) = files w /\
  disk (snd (CreateBucket validate invalid bf e r w)) = disk w.
Proof.
  unfold CreateBucket, BucketRepository.Create.
  repeat case_match; simplify_eq; repeat split; reflexivity.
Qed.

(** X11.  The handlers that write keep the two invariants of the table of
    files, for every request and under every storage fault: ids are
    unique and never beyond the last id handed out, and no two rows share
    a bucket and a name.  For [S3PutObject] the uniqueness of names is
    shown when its lookup of the key does not fail, the handler not
    looking at the error of that lookup. *)
Theorem writing_handlers_keep_ids_and_names_unique e w :
  primary_key w -> names_unique w ->
  (forall r h, In h [UploadFile; DeleteFile; DeleteBucket] ->
     primary_key (snd (h e r w)) /\ names_unique (snd (h e r w))) /\
  (forall r,
     primary_key (snd (S3DeleteObject e r w)) /\ names_unique (snd (S3DeleteObject e r w)) /\
     primary_key (snd (S3PutObject e r w)) /\
     (fails e FileQuery = false -> names_unique (snd (S3PutObject e r w)))) /\
  (forall validate invalid bf r,
     primary_key (snd (CreateBucket validate invalid bf e r w)) /\
     names_unique (snd (CreateBucket validate invalid bf e r w))).
Proof.
  intros Hpk Huniq. split; [| split].
  - intros r h Hh. cbn [In] in Hh. destruct Hh as [<- | [<- | [<- | []]]].
    + split; [now apply UploadFile_primary_key | now apply UploadFile_names_unique].
    + destruct (DeleteFile_files e r w) as (Hl & _ & _ & [(_ & Hf) | (_ & id & Hf)]).
      * split; [now apply (primary_key_same w) | now apply (names_unique_same w)].
      * split; [now apply (primary_key_filter _ w _ Hf)
               | now apply (names_unique_filter _ w _ Hf)].
    + destruct (DeleteBucket_files e r w) as (Hl & Hf & _).
      split; [now apply (primary_key_same w) | now apply (names_unique_same w)].
  - intros r.
    assert (Hdel : primary_key (snd (S3DeleteObject e r w)) /\
                   names_unique (snd (S3DeleteObject e r w))).
    { destruct (S3DeleteObject_files e r w)
        as (Hl & _ & _ & [(_ & Hf) | (_ & [Hf | (id & Hf)])]).
      - split; [now apply (primary_key_same w) | now apply (names_unique_same w)].
      - split; [now apply (primary_key_same w) | now apply (names_unique_same w)].
      - split; [now apply (primary_key_filter _ w _ Hf)
               | now apply (names_unique_filter _ w _ Hf)]. }
    destruct Hdel as (Hd1 & Hd2).
    split; [exact Hd1 |]. split; [exact Hd2 |].
    split; [now apply S3PutObject_primary_key |].
    intros Hq. now apply S3PutObject_names_unique.
  - intros validate invalid bf r.
    destruct (CreateBucket_files validate invalid bf e r w) as (Hl & Hf & _).
    split; [now apply (primary_key_same w) | now apply (names_unique_same w)].
Qed.

Lemma stocked_primary_key : primary_key Scenario.stocked.
Proof.
  assert (Hl : lastFileID Scenario.stocked = 2) by (vm_compute; reflexivity).
  assert (Hids : map File.ID (files Scenario.stocked) = [1; 2]) by (vm_compute; reflexivity).
  unfold primary_key. rewrite Hl.
  rewrite <- (List.Forall_map File.ID (fun i => i <= 2)), Hids.
  split; [| repeat constructor; lia].
  repeat constructor; cbn [In]; intros H; decompose [or] H; congruence.
Qed.

Lemma stocked_names_unique : names_unique Scenario.stocked.
Proof.
  unfold names_unique.
  replace (map (fun f => (File.BucketID f, File.Name f)) (files Scenario.stocked))
    with [(1, "a.txt"); (2, "a.txt")] by (vm_compute; reflexivity).
  repeat constructor; cbn [In]; intros H; decompose [or] H; congruence.
Qed.

Lemma writing_handlers_keep_ids_and_names_unique_witness :
  let w' := snd (DeleteFile (Scenario.calm 102) (Scenario.on_file Scenario.alice 2 2)
                   Scenario.stocked) in
  primary_key w' /\ names_unique w'.
Proof.
  intros w'.
  destruct (writing_handlers_keep_ids_and_names_unique (Scenario.calm 102) Scenario.stocked
              stocked_primary_key stocked_names_unique)
    as (Hnative & _).
  apply (Hnative (Scenario.on_file Scenario.alice 2 2) DeleteFile). cbn [In]. tauto.
Defined.

(** ** Pages of the listing of a bucket *)

Lemma firstn_then_firstn {A} n m (s : list A) :
  (firstn n s ++ firstn m (skipn n s))%list = firstn (n + m) s.
Proof.
  revert s. induction n as [|n IH]; intros s; [reflexivity |].
  destruct s as [|x s]; [cbn; now rewrite firstn_nil |].
  cbn [firstn skipn Nat.add app]. now rewrite IH.
Qed.

Lemma limit_offset_app {A} limit offset (rows : list A) :
  0 <= limit -> 0 <= offset ->
  (sql.limit_offset limit offset rows ++ sql.limit_offset limit (offset + limit) rows)%list
  = sql.limit_offset (limit + limit) offset rows.
Proof.
  intros Hl Ho. rewrite !limit_offset_bounded by lia.
  rewrite !Z2Nat.inj_add by lia.
  rewrite (Nat.add_comm (Z.to_nat offset)), <- skipn_skipn.
  apply firstn_then_firstn.
Qed.

Lemma NoDup_map_firstn {A B} (f : A -> B) n (l : list A) :
  List.NoDup (map f l) -> List.NoDup (map f (firstn n l)).
Proof.
  intros H. rewrite <- (firstn_skipn n l), map_app in H.
  now apply List.NoDup_app_remove_r in H.
Qed.

Lemma NoDup_map_skipn {A B} (f : A -> B) n (l : list A) :
  List.NoDup (map f l) -> List.NoDup (map f (skipn n l)).
Proof.
  intros H. rewrite <- (firstn_skipn n l), map_app in H.
  now apply List.NoDup_app_remove_l in H.
Qed.

Lemma NoDup_map_sorted {A B} (f : A -> B) (key : A -> Z) (keep : A -> bool) rows :
  List.NoDup (map f rows) ->
  List.NoDup (map f (sql.order_by_desc key (List.filter keep rows))).
Proof.
  intros H.
  apply (Permutation_NoDup
           (Permutation_map f (Permutation_sym (order_by_desc_perm key _)))).
  now apply NoDup_map_filter.
Qed.

Lemma NoDup_map_page {A B} (f : A -> B) (key : A -> Z) (keep : A -> bool) limit offset rows :
  List.NoDup (map f rows) ->
  List.NoDup (map f (sql.limit_offset limit offset
                       (sql.order_by_desc key (List.filter keep rows)))).
Proof.
  intros H. unfold sql.limit_offset. cbv zeta.
  destruct (limit <? 0); [| apply NoDup_map_firstn];
    apply NoDup_map_skipn; now apply NoDup_map_sorted.
Qed.

(** X12.  The pages of [FileRepository.List] tile the listing of a bucket:
    the page at an offset followed by the page at that offset plus the
    limit is the page of twice the limit at the offset, so that, over a
    table that does not change, consecutive pages neither skip a file nor,
    ids being unique, show one twice.  A first page whose limit is not
    below the count [FileRepository.Count] reports holds exactly that many
    files, and the page after it is empty. *)
Theorem consecutive_pages_tile_the_listing e w bucketID lim off p1 p2 :
  0 <= lim -> 0 <= off ->
  FileRepository.List e w bucketID lim off = Ok p1 ->
  FileRepository.List e w bucketID lim (off + lim) = Ok p2 ->
  FileRepository.List e w bucketID (lim + lim) off = Ok (p1 ++ p2)%list /\
  (primary_key w -> List.NoDup (map File.ID (p1 ++ p2)%list)) /\
  (forall n, FileRepository.Count e w bucketID = Ok n -> off = 0 -> n <= lim ->
     Z.of_nat (length p1) = n /\ p2 = []).
Proof.
  intros Hl Ho. unfold FileRepository.List, FileRepository.Count.
  destruct (fails e FileList); [discriminate |].
  intros [= <-] [= <-].
  rewrite limit_offset_app by assumption.
  split; [reflexivity |]. split.
  - intros (Hnd & _). now apply NoDup_map_page.
  - intros n Hn -> Hle. destruct (fails e FileCount); [discriminate |].
    injection Hn as <-.
    rewrite limit_offset_all
      by (rewrite (Permutation_length (order_by_desc_perm File.CreatedAt _)); exact Hle).
    split; [now rewrite (Permutation_length (order_by_desc_perm File.CreatedAt _)) |].
    rewrite limit_offset_bounded by lia.
    rewrite skipn_all2; [now rewrite firstn_nil |].
    rewrite (Permutation_length (order_by_desc_perm File.CreatedAt _)). lia.
Qed.

Lemma consecutive_pages_tile_the_listing_witness :
  exists p1 p2,
    FileRepository.List (Scenario.calm 102) Scenario.lettered 1 1 0 = Ok p1 /\
    FileRepository.List (Scenario.calm 102) Scenario.lettered 1 1 1 = Ok p2 /\
    FileRepository.List (Scenario.calm 102) Scenario.lettered 1 2 0 = Ok (p1 ++ p2)%list /\
    map File.Name (p1 ++ p2)%list = ["a_b.txt"; "ab.txt"].
Proof.
  eexists. eexists.
  split; [vm_compute; reflexivity |]. split; [vm_compute; reflexivity |].
  split.
  - apply (consecutive_pages_tile_the_listing (Scenario.calm 102) Scenario.lettered 1 1 0);
      first [lia | vm_compute; reflexivity].
  - vm_compute. reflexivity.
Defined.

(** ** Overwriting an object *)

Lemma Create_plain e name w1 w2 :
  os.Create e name w1 = (None, w2) -> os.builtin_dir name = false.
Proof.
  unfold os.Create. destruct (fails e OsCreate); [discriminate |].
  destruct (negb (os.valid_path name)); [discriminate |].
  destruct (negb (os.is_dir (disk w1) (filepath.Dir name))); [discriminate |].
  destruct (os.is_dir (disk w1) name) eqn:Hd; [discriminate |]. intros _.
  unfold os.is_dir in Hd. now apply orb_false_iff in Hd as (Hd & _).
Qed.

Lemma gone_not_exists path w :
  disk w !! path = None -> os.builtin_dir path = false -> service.FileExists path w = false.
Proof. intros Hd Hp. unfold service.FileExists. now rewrite Hd. Qed.

(** X13.  An overwrite that fails destroys the content it was to replace.
    When the destination of a put is the file an existing row of the key
    points to, and the copy fails, or, in [UploadFile], the update of the
    row fails, the answer is [500] and the row stays as it was, with the
    size and the ETag of the old content, while the old content is gone:
    when [os.Remove] does not fail the file is removed and a download of
    the object is answered [404]; when it fails the file holds the bytes
    the put had written. *)
Theorem failed_overwrite_loses_the_stored_content e :
  (forall r w u bucketID header ex w2 old,
     NativePutOpened e r w u bucketID header (Some ex) w2 ->
     File.Path ex = filePathOf e (User.ID u) bucketID (Filename header) ->
     disk w !! File.Path ex = Some (Regular old) ->
     copy_fails_after e <> None \/ fails e FileUpdate = true ->
     let w' := snd (UploadFile e r w) in
     status (fst (UploadFile e r w)) = StatusInternalServerError /\
     files w' = files w /\
     (fails e OsRemove = false ->
        disk w' !! File.Path ex = None /\
        (List.NoDup (map File.ID (files w)) ->
         forall r', user r' = Some u -> bucketId r' = Some bucketID ->
                    fileId r' = Some (File.ID ex) ->
                    fst (DownloadFile e r' w')
                    = WriteJSON StatusNotFound (ErrorMessage "File not found on disk"))) /\
     (fails e OsRemove = true ->
        disk w' !! File.Path ex
        = Some (Regular (match copy_fails_after e with
                         | Some n => firstn n (part header)
                         | None => part header
                         end)))) /\
  (forall r w u b ex w2 old n,
     S3PutOpened e r w u b w2 ->
     find (FileRepository.named (Bucket.ID b) (objectKey r)) (files w) = Some ex ->
     File.Path ex = filePathOf e (User.ID u) (Bucket.ID b) (objectKey r) ->
     disk w !! File.Path ex = Some (Regular old) ->
     copy_fails_after e = Some n ->
     let w' := snd (S3PutObject e r w) in
     fst (S3PutObject e r w) = WriteHeader [] StatusInternalServerError /\
     files w' = files w /\
     (fails e OsRemove = false ->
        disk w' !! File.Path ex = None /\
        (fails e FileQuery = false ->
         fst (S3GetObject e r w') = WriteHeader [] StatusNotFound)) /\
     (fails e OsRemove = true ->
        disk w' !! File.Path ex = Some (Regular (firstn n (payload r))))).
Proof.
  split.
  - intros r w u bucketID header ex w2 old Hop Hpath _ Hfail w'.
    assert (Hplain : os.builtin_dir (File.Path ex) = false).
    { destruct Hop as (_ & _ & _ & _ & _ & _ & w1 & _ & Hcr).
      rewrite Hpath. exact (Create_plain _ _ _ _ Hcr). }
    assert (Hout : status (fst (UploadFile e r w)) = StatusInternalServerError /\
                   files w' = files w /\ buckets w' = buckets w /\
                   disk w' = unlinked e (File.Path ex)
                               (match copy_fails_after e with
                                | Some n => firstn n (part header)
                                | None => part header
                                end) (disk w2)).
    { subst w'. rewrite Hpath.
      destruct (copy_fails_after e) as [n|] eqn:Hn.
      - destruct (UploadFile_copy_failed _ _ _ _ _ _ _ _ Hop n Hn)
          as (w' & -> & Hd & Hf & Hb & _).
        repeat split; assumption.
      - destruct Hfail as [Hc | Hupd]; [contradiction |].
        destruct (UploadFile_update_failed _ _ _ _ _ _ _ _ Hop ex eq_refl Hn Hupd)
          as (w' & -> & Hd & Hf & _ & Hb & _).
        repeat split; assumption. }
    destruct Hout as (Hst & Hf & Hb & Hd).
    split; [exact Hst |]. split; [exact Hf |]. split.
    + intros Hrm.
      assert (Hgone : disk w' !! File.Path ex = None)
        by (rewrite Hd, (unlinked_gone _ _ _ _ Hrm); apply lookup_delete_eq).
      split; [exact Hgone |].
      intros Hnd r' Hu' Hid' Hfid'.
      destruct Hop as (_ & _ & _ & _ & (b & Hfound & Hden) & Hex & _).
      apply GetByName_file_inv in Hex as (Hq & Hex). symmetry in Hex.
      apply find_some in Hex as (Hin & Hnamed). apply named_key in Hnamed.
      rewrite (DownloadFile_not_on_disk e r' w' u bucketID (File.ID ex) b Hu' Hid' Hfid'
                 ltac:(rewrite (bucket_GetByID_ext e w w' bucketID Hb); exact Hfound)
                 ex Hden); [reflexivity | | congruence | now apply gone_not_exists].
      unfold FileRepository.GetByID. rewrite Hq, Hf.
      now rewrite (find_by_ID (files w) ex Hnd Hin).
    + intros Hrm. rewrite Hd, (unlinked_stays _ _ _ _ Hrm). apply lookup_insert_eq.
  - intros r w u b ex w2 old n Hop Hfind Hpath _ Hn w'.
    assert (Hplain : os.builtin_dir (File.Path ex) = false).
    { destruct Hop as (_ & _ & _ & _ & _ & w1 & _ & Hcr).
      rewrite Hpath. exact (Create_plain _ _ _ _ Hcr). }
    destruct (S3PutObject_copy_failed _ _ _ _ _ _ Hop n Hn)
      as (w1 & Heq & Hd & Hf & Hb & _).
    subst w'. rewrite Heq. proj_simpl. rewrite <- Hpath in Hd.
    split; [reflexivity |]. split; [exact Hf |]. split.
    + intros Hrm.
      assert (Hgone : disk w1 !! File.Path ex = None)
        by (rewrite Hd, (unlinked_gone _ _ _ _ Hrm); apply lookup_delete_eq).
      split; [exact Hgone |].
      intros Hq.
      destruct Hop as (Hu & Hbn & Hkey & Hfound & Hden & _).
      apply String.eqb_neq in Hbn. apply String.eqb_neq in Hkey.
      unfold S3GetObject. rewrite Hu, Hbn, Hkey. cbn [orb]. unlog.
      rewrite (bucket_GetByName_ext e w w1 (bucketName r) (User.ID u) Hb), Hfound, Hden.
      unlog. unfold FileRepository.GetByName. rewrite Hq, Hf, Hfind. unlog.
      now rewrite (gone_not_exists _ _ Hgone Hplain).
    + intros Hrm. rewrite Hd, (unlinked_stays _ _ _ _ Hrm). apply lookup_insert_eq.
Qed.

Lemma failed_overwrite_loses_the_stored_content_witness :
  let e := Scenario.stormy 102 in
  let r := Scenario.upload Scenario.alice 2 "a.txt" "text/plain" "HELLO" in
  let rs := Scenario.s3 Scenario.alice "pub" "a.txt" "text/plain" "HELLO" in
  disk Scenario.stocked !! "storage/1/2/a.txt" = Some (Regular (bytes_of "hello")) /\
  (status (fst (UploadFile e r Scenario.stocked)) = StatusInternalServerError /\
   files (snd (UploadFile e r Scenario.stocked)) = files Scenario.stocked /\
   disk (snd (UploadFile e r Scenario.stocked)) !! "storage/1/2/a.txt" = None) /\
  (fst (S3PutObject e rs Scenario.stocked) = WriteHeader [] StatusInternalServerError /\
   files (snd (S3PutObject e rs Scenario.stocked)) = files Scenario.stocked /\
   disk (snd (S3PutObject e rs Scenario.stocked)) !! "storage/1/2/a.txt" = None /\
   fst (S3GetObject e rs (snd (S3PutObject e rs Scenario.stocked)))
     = WriteHeader [] StatusNotFound).
Proof.
  intros e r rs.
  pose (ex := {| File.ID := 2; File.BucketID := 2; File.Name := "a.txt";
                 File.Path := "storage/1/2/a.txt"; File.ContentType := "text/plain";
                 File.Size := 5; File.ETag := "5d41402abc4b2a76b9719d911017c592";
                 File.UserID := 1; File.CreatedAt := 101; File.UpdatedAt := 101 |}).
  split; [vm_compute; reflexivity |].
  destruct (failed_overwrite_loses_the_stored_content e) as (Hnative & Hs3).
  split.
  - destruct (Hnative r Scenario.stocked Scenario.alice 2
                {| Filename := "a.txt"; PartContentType := "text/plain";
                   part := bytes_of "HELLO" |}
                ex
                (Scenario.opened e Scenario.alice 2 "a.txt" Scenario.stocked)
                (bytes_of "hello"))
      as (Hst & Hf & Hgone & _).
    + split; [reflexivity |]. split; [reflexivity |]. split; [reflexivity |].
      split; [discriminate |].
      split; [exists Scenario.pub_bucket; split; vm_compute; reflexivity |].
      split; [vm_compute; reflexivity |].
      eexists. split; vm_compute; reflexivity.
    + vm_compute. reflexivity.
    + vm_compute. reflexivity.
    + left. discriminate.
    + split; [exact Hst |]. split; [exact Hf |]. exact (proj1 (Hgone eq_refl)).
  - destruct (Hs3 rs Scenario.stocked Scenario.alice Scenario.pub_bucket ex
                (Scenario.s3opened e Scenario.alice 2 "a.txt" Scenario.stocked)
                (bytes_of "hello") 2%nat)
      as (Hst & Hf & Hgone & _).
    + split; [reflexivity |]. split; [discriminate |]. split; [discriminate |].
      split; [vm_compute; reflexivity |]. split; [vm_compute; reflexivity |].
      eexists. split; vm_compute; reflexivity.
    + vm_compute. reflexivity.
    + vm_compute. reflexivity.
    + vm_compute. reflexivity.
    + reflexivity.
    + destruct (Hgone eq_refl) as (Hd & Hget).
      split; [exact Hst |]. split; [exact Hf |]. split; [exact Hd |].
      apply Hget. reflexivity.
Defined.

Lemma find_app_some {A} (p : A -> bool) (l l' : list A) x :
  find p l = Some x -> find p (l ++ l')%list = Some x.
Proof.
  induction l as [|y l IH]; intros H; [discriminate |].
  cbn [find app] in *. destruct (p y); [exact H | now apply IH].
Qed.

(** The update of the row found under a key leaves that row under the key,
    with the new values assigned to it. *)
Lemma updated_keeps_origin e file bucketID (l : list File.t) ex :
  List.NoDup (map File.ID l) ->
  File.ID file = File.ID ex ->
  find (FileRepository.named bucketID (File.Name file)) l = Some ex ->
  find (FileRepository.named bucketID (File.Name file)) (FileRepository.updated e file l)
  = Some (FileRepository.assign e file ex).
Proof.
  intros Hnd Hid Hfind.
  destruct (find_updated e file bucketID l ex Hid Hfind) as (row & Hrow & Hrid & _).
  rewrite Hrow. f_equal.
  apply find_some in Hrow as (Hin & _).
  apply find_some in Hfind as (Hex & _).
  unfold FileRepository.updated in Hin. apply in_map_iff in Hin as (x & Hx & Hxin).
  destruct (Z.eqb_spec (File.ID x) (File.ID file)) as [Heq | Hne].
  - assert (x = ex) as -> by (apply (NoDup_ID_inj l); [assumption .. | congruence]).
    now symmetry.
  - exfalso. apply Hne. subst x. cbn [FileRepository.assign File.ID]. congruence.
Qed.

(** X14.  An overwrite keeps the owner and the creation time of the row:
    after a put answered [200] on a key that was stored already, the row
    the key finds has the id, the owner and the creation time it had
    before, whoever wrote this time.  The S3 listing, which reports the
    creation time as [LastModified] and the owner of the row as [Owner],
    so shows the same values after the overwrite as before.  The update
    time of the row is the time of the put, provided the metadata calls
    of the put did not fail, which the answer of the S3 adapter does not
    tell. *)
Theorem overwrite_keeps_owner_and_creation_time e p w bucketID key ex :
  primary_key w ->
  status (fst (run e p w)) = StatusOK ->
  target e w p = Some (bucketID, key) ->
  find (FileRepository.named bucketID key) (files w) = Some ex ->
  exists row,
    find (FileRepository.named bucketID key) (files (snd (run e p w))) = Some row /\
    File.ID row = File.ID ex /\
    File.UserID row = File.UserID ex /\
    File.CreatedAt row = File.CreatedAt ex /\
    LastModified (content row) = LastModified (content ex) /\
    OwnerID (content row) = OwnerID (content ex) /\
    (metadata_sound e p -> File.UpdatedAt row = now e).
Proof.
  intros (Hnd & _) Hok Htarget Hfind.
  destruct p as [r|r].
  - destruct (put_ok e (Native r) w bucketID key (conj Hok I) Htarget)
      as (u & row & _ & Hrow & Hrec & Hcase & _).
    rewrite Hfind in Hcase. destruct Hcase as (Hid & Hfiles).
    exists row. split; [exact Hrow |]. split; [exact Hid |].
    apply find_some in Hrow as (Hin & _). rewrite Hfiles in Hin.
    unfold FileRepository.updated in Hin. apply in_map_iff in Hin as (x & Hx & Hxin).
    apply find_some in Hfind as (Hexin & _).
    cbn [File.with_ID File.ID] in Hx.
    destruct (Z.eqb_spec (File.ID x) (File.ID ex)) as [Heq | Hne].
    + assert (x = ex) as -> by (apply (NoDup_ID_inj (files w)); assumption).
      subst row. cbn. repeat split; reflexivity.
    + subst x. congruence.
  - cbn [run target] in *.
    destruct (S3PutObject_cases e r w) as [(u & b & w2 & Hop) | Hdown];
      [| destruct Hdown as [Hne _]; contradiction].
    pose proof Hop as (Hu & _ & _ & Hb & _).
    rewrite Hu, Hb in Htarget. injection Htarget as <- <-.
    destruct (copy_fails_after e) as [n|] eqn:Hn.
    { destruct (S3PutObject_copy_failed _ _ _ _ _ _ Hop n Hn) as (w' & Heq & _).
      rewrite Heq in Hok. discriminate. }
    destruct (S3PutObject_copied _ _ _ _ _ _ Hop Hn) as (w' & -> & _ & _ & _ & _ & Hfiles).
    proj_simpl. unfold s3_existing in Hfiles. rewrite Hfiles.
    destruct (fails e FileQuery) eqn:Hq.
    + exists ex.
      split; [destruct (fails e FileInsert); [exact Hfind | now apply find_app_some] |].
      repeat (split; [reflexivity |]).
      intros (Hsound & _). congruence.
    + rewrite Hfind. destruct (fails e FileUpdate) eqn:Hfu.
      * exists ex. split; [exact Hfind |].
        repeat (split; [reflexivity |]).
        intros (_ & Hsound & _). congruence.
      * eexists. split.
        { apply (updated_keeps_origin e
                   (File.with_ID (File.ID ex)
                      (newFile (Bucket.ID b) (objectKey r)
                         (filePathOf e (User.ID u) (Bucket.ID b) (objectKey r))
                         (defaultContentType (contentType r))
                         (Z.of_nat (length (payload r))) (md5.hexdigest (payload r))
                         (User.ID u)))
                   (Bucket.ID b) (files w) ex Hnd eq_refl Hfind). }
        cbn. repeat split; reflexivity.
Qed.

Lemma overwrite_keeps_owner_and_creation_time_witness :
  let guest := Native (Scenario.upload Scenario.bob 2 "a.txt" "text/html" "hello world") in
  let w1 := snd (UploadFile (Scenario.calm 100)
                   (Scenario.upload Scenario.bob 2 "a.txt" "text/plain" "hello")
                   Scenario.fresh) in
  let owner := S3 (Scenario.s3 Scenario.alice "pub" "a.txt" "text/html" "hello world") in
  (exists row,
     find (FileRepository.named 2 "a.txt")
          (files (snd (run (Scenario.calm 102) guest Scenario.stocked))) = Some row /\
     File.UserID row = 1 /\ File.CreatedAt row = 101 /\ File.UpdatedAt row = 102) /\
  (exists row,
     find (FileRepository.named 2 "a.txt") (files (snd (run (Scenario.calm 102) owner w1)))
       = Some row /\
     File.UserID row = 2 /\ File.CreatedAt row = 100 /\ File.UpdatedAt row = 102).
Proof.
  intros guest w1 owner. split.
  - destruct (overwrite_keeps_owner_and_creation_time (Scenario.calm 102) guest
                Scenario.stocked 2 "a.txt"
                {| File.ID := 2; File.BucketID := 2; File.Name := "a.txt";
                   File.Path := "storage/1/2/a.txt"; File.ContentType := "text/plain";
                   File.Size := 5; File.ETag := "5d41402abc4b2a76b9719d911017c592";
                   File.UserID := 1; File.CreatedAt := 101; File.UpdatedAt := 101 |}
                stocked_primary_key ltac:(vm_compute; reflexivity) eq_refl
                ltac:(vm_compute; reflexivity))
      as (row & Hrow & _ & Hu & Hc & _ & _ & Hup).
    exists row. split; [exact Hrow |]. split; [exact Hu |]. split; [exact Hc |].
    exact (Hup I).
  - assert (Hpk : primary_key w1)
      by (apply UploadFile_primary_key; split; constructor).
    destruct (overwrite_keeps_owner_and_creation_time (Scenario.calm 102) owner
                w1 2 "a.txt"
                {| File.ID := 1; File.BucketID := 2; File.Name := "a.txt";
                   File.Path := "storage/2/2/a.txt"; File.ContentType := "text/plain";
                   File.Size := 5; File.ETag := "5d41402abc4b2a76b9719d911017c592";
                   File.UserID := 2; File.CreatedAt := 100; File.UpdatedAt := 100 |}
                Hpk ltac:(vm_compute; reflexivity) ltac:(vm_compute; reflexivity)
                ltac:(vm_compute; reflexivity))
      as (row & Hrow & _ & Hu & Hc & _ & _ & Hup).
    exists row. split; [exact Hrow |]. split; [exact Hu |]. split; [exact Hc |].
    apply Hup. repeat split.
Defined.

(** ** Creating and listing buckets *)

Lemma find_app_none {A} (p : A -> bool) (l : list A) x :
  find p l = None -> find p (l ++ [x])%list = if p x then Some x else None.
Proof.
  induction l as [|y l IH]; intros H; [reflexivity |].
  cbn [find app] in *. destruct (p y); [discriminate | now apply IH].
Qed.

Lemma bucket_find_by_ID (l : list Bucket.t) row :
  List.NoDup (map Bucket.ID l) -> In row l ->
  find (fun b => Bucket.ID b =? Bucket.ID row) l = Some row.
Proof.
  intros Hnd Hin.
  destruct (find (fun b => Bucket.ID b =? Bucket.ID row) l) as [b|] eqn:Hb.
  - apply find_some in Hb as (Hbl & Heq). apply Z.eqb_eq in Heq.
    f_equal. now apply (NoDup_map_In_inj Bucket.ID l).
  - apply (find_none _ _ Hb) in Hin. now rewrite Z.eqb_refl in Hin.
Qed.

Section Creating.
Variables (validate : CreateBucketRequest.t -> option error) (invalid : error -> Response).
Variables (bf : BucketFault -> bool) (e : Env) (r : CreateRequest) (w : World).

Let create := CreateBucket validate invalid bf e r w.

(** The row [CreateBucket] inserts for an actor and a payload. *)
Let row_of (u : User.t) (req : CreateBucketRequest.t) : Bucket.t :=
  {| Bucket.ID := lastBucketID w + 1; Bucket.Name := CreateBucketRequest.Name req;
     Bucket.UserID := User.ID u;
     Bucket.Description := CreateBucketRequest.Description req;
     Bucket.IsPublic := CreateBucketRequest.IsPublic req;
     Bucket.CreatedAt := now e; Bucket.UpdatedAt := now e |}.

(** [CreateBucket] either leaves the table of buckets as it is, or adds
    one row with the next id, for a name its owner had no bucket of. *)
Lemma CreateBucket_buckets :
  (buckets (snd create) = buckets w /\ lastBucketID (snd create) = lastBucketID w) \/
  (exists u req,
     creator r = Some u /\ decoded r = Ok req /\ validate req = None /\
     fails e BucketQuery = false /\ bf BucketInsert = false /\
     find (fun b => (Bucket.Name b =? CreateBucketRequest.Name req)%string
                    && (Bucket.UserID b =? User.ID u)) (buckets w) = None /\
     buckets (snd create) = (buckets w ++ [row_of u req])%list /\
     lastBucketID (snd create) = lastBucketID w + 1 /\
     fst create
     = WriteJSON StatusCreated
         (BucketObject
            {| Bucket.ID := lastBucketID w + 1; Bucket.Name := CreateBucketRequest.Name req;
               Bucket.UserID := User.ID u;
               Bucket.Description := CreateBucketRequest.Description req;
               Bucket.IsPublic := CreateBucketRequest.IsPublic req;
               Bucket.CreatedAt := 0; Bucket.UpdatedAt := 0 |})).
Proof.
  subst create. unfold CreateBucket.
  destruct (creator r) as [u|] eqn:Hu; [| left; split; reflexivity].
  destruct (decoded r) as [req|] eqn:Hreq; [| left; split; reflexivity].
  destruct (validate req) eqn:Hv; [left; split; reflexivity |].
  unlog. unfold BucketRepository.GetByName.
  destruct (fails e BucketQuery) eqn:Hq; [left; split; reflexivity |].
  destruct (find _ (buckets w)) as [b|] eqn:Hfind; [left; split; reflexivity |].
  unfold BucketRepository.Create.
  destruct (bf BucketInsert) eqn:Hins; [left; split; reflexivity |].
  right. exists u, req. repeat split; try reflexivity; assumption.
Qed.

End Creating.

(** X15.  [CreateBucket], for an authenticated actor and a payload that
    decodes and validates, with the lookup working: when the actor owns a
    bucket of that name already, the answer is [409] and nothing changes
    but the log, while a bucket of that name owned by someone else does
    not stand in the way; otherwise, when the insert works, the answer is
    [201] with the next bucket id, the table gains exactly one row, owned
    by the actor and stamped with the current time, and the name then
    finds that row for its owner.  The [201] answer reports the zero time
    as [created_at] and [updated_at], not the times of the row. *)
Theorem create_bucket_conflict_or_fresh_row validate invalid bf e r w u req :
  creator r = Some u -> decoded r = Ok req -> validate req = None ->
  fails e BucketQuery = false ->
  let name := CreateBucketRequest.Name req in
  let out := CreateBucket validate invalid bf e r w in
  ((exists b, In b (buckets w) /\ Bucket.Name b = name /\ Bucket.UserID b = User.ID u) ->
   fst out = WriteJSON StatusConflict (ErrorMessage "Bucket with this name already exists") /\
   same_storage w (snd out)) /\
  ((forall b, In b (buckets w) -> Bucket.Name b = name -> Bucket.UserID b <> User.ID u) ->
   bf BucketInsert = false ->
   exists row,
     row = {| Bucket.ID := lastBucketID w + 1; Bucket.Name := name;
              Bucket.UserID := User.ID u;
              Bucket.Description := CreateBucketRequest.Description req;
              Bucket.IsPublic := CreateBucketRequest.IsPublic req;
              Bucket.CreatedAt := now e; Bucket.UpdatedAt := now e |} /\
     fst out
     = WriteJSON StatusCreated
         (BucketObject
            {| Bucket.ID := lastBucketID w + 1; Bucket.Name := name;
               Bucket.UserID := User.ID u;
               Bucket.Description := CreateBucketRequest.Description req;
               Bucket.IsPublic := CreateBucketRequest.IsPublic req;
               Bucket.CreatedAt := 0; Bucket.UpdatedAt := 0 |}) /\
     buckets (snd out) = (buckets w ++ [row])%list /\
     files (snd out) = files w /\ disk (snd out) = disk w /\
     BucketRepository.GetByName e (snd out) name (User.ID u) = Ok (Some row)).
Proof.
  intros Hu Hreq Hv Hq name out. subst name out. split.
  - intros (b & Hin & Hname & Hown).
    unfold CreateBucket. rewrite Hu, Hreq, Hv. unlog.
    unfold BucketRepository.GetByName. rewrite Hq.
    destruct (find _ (buckets w)) as [b'|] eqn:Hfind.
    + split; [reflexivity | repeat split; reflexivity].
    + pose proof (find_none _ _ Hfind b Hin) as Hno. cbn beta in Hno.
      rewrite Hname, Hown, String.eqb_refl, Z.eqb_refl in Hno. discriminate.
  - intros Hfree Hins.
    assert (Hnone : find (fun b => (Bucket.Name b =? CreateBucketRequest.Name req)%string
                                   && (Bucket.UserID b =? User.ID u)) (buckets w) = None).
    { apply find_none_all. intros b Hb.
      destruct (String.eqb_spec (Bucket.Name b) (CreateBucketRequest.Name req)) as [Hn|];
        [| reflexivity].
      cbn [andb]. apply Z.eqb_neq. now apply Hfree. }
    unfold CreateBucket. rewrite Hu, Hreq, Hv. unlog.
    unfold BucketRepository.GetByName. rewrite Hq, Hnone.
    unfold BucketRepository.Create. rewrite Hins. proj_simpl.
    eexists. split; [reflexivity |]. split; [reflexivity |].
    split; [reflexivity |]. split; [reflexivity |]. split; [reflexivity |].
    rewrite (find_app_none _ _ _ Hnone). cbn [Bucket.Name Bucket.UserID].
    now rewrite String.eqb_refl, Z.eqb_refl.
Qed.

Lemma create_bucket_conflict_or_fresh_row_witness :
  let validate := fun _ : CreateBucketRequest.t => @None error in
  let invalid := fun _ : error => WriteJSON StatusBadRequest (ErrorMessage "invalid") in
  let bf := fun _ : BucketFault => false in
  let req := {| CreateBucketRequest.Name := "logs"; CreateBucketRequest.Description := "";
                CreateBucketRequest.IsPublic := false |} in
  let by_alice := {| creator := Some Scenario.alice; decoded := Ok req |} in
  let by_bob := {| creator := Some Scenario.bob; decoded := Ok req |} in
  fst (CreateBucket validate invalid bf (Scenario.calm 100) by_alice Scenario.fresh)
    = WriteJSON StatusConflict (ErrorMessage "Bucket with this name already exists") /\
  status (fst (CreateBucket validate invalid bf (Scenario.calm 100) by_bob Scenario.fresh))
    = StatusCreated /\
  map Bucket.ID (buckets (snd (CreateBucket validate invalid bf (Scenario.calm 100) by_bob
                                 Scenario.fresh))) = [1; 2; 3].
Proof.
  intros validate invalid bf req by_alice by_bob.
  split; [| split].
  - apply (create_bucket_conflict_or_fresh_row validate invalid bf (Scenario.calm 100)
             by_alice Scenario.fresh Scenario.alice req eq_refl eq_refl eq_refl eq_refl).
    exists Scenario.logs_bucket. split; [left; reflexivity | split; reflexivity].
  - destruct (create_bucket_conflict_or_fresh_row validate invalid bf (Scenario.calm 100)
                by_bob Scenario.fresh Scenario.bob req eq_refl eq_refl eq_refl eq_refl)
      as (_ & Hfresh).
    destruct Hfresh as (row & _ & Hresp & _); [| reflexivity | rewrite Hresp; reflexivity].
    intros b [<- | [<- | []]] _; cbn; lia.
  - reflexivity.
Defined.

Lemma bucket_key_filter (p : Bucket.t -> bool) w w' :
  buckets w' = List.filter p (buckets w) -> lastBucketID w' = lastBucketID w ->
  (bucket_primary_key w -> bucket_primary_key w') /\
  (owner_names_unique w -> owner_names_unique w').
Proof.
  unfold bucket_primary_key, owner_names_unique. intros -> ->. split.
  - intros (Hnd & Hall). split; [now apply NoDup_map_filter |].
    rewrite List.Forall_forall in *. intros b Hb. apply Hall.
    now apply filter_In in Hb.
  - apply NoDup_map_filter.
Qed.

Lemma DeleteBucket_buckets e r w :
  lastBucketID (snd (DeleteBucket e r w)) = lastBucketID w /\
  ((status (fst (DeleteBucket e r w)) <> StatusOK /\
    buckets (snd (DeleteBucket e r w)) = buckets w) \/
   (status (fst (DeleteBucket e r w)) = StatusOK /\
    exists id, bucketId r = Some id /\
               List.filter (FileRepository.in_bucket id) (files w) = [] /\
               buckets (snd (DeleteBucket e r w))
               = List.filter (fun b => negb (Bucket.ID b =? id)) (buckets w))).
Proof.
  unfold DeleteBucket.
  destruct (user r) as [u|]; [| split; [reflexivity | refused]].
  destruct (bucketId r) as [bucketID|]; [| split; [reflexivity | refused]].
  destruct (BucketRepository.GetByID _ _ _) as [[b|]|]; try (split; [reflexivity | refused]).
  destruct (negb (Bucket.UserID b =? User.ID u)); [split; [reflexivity | refused] |].
  unfold FileRepository.Count.
  destruct (fails e FileCount); [split; [reflexivity | refused] |].
  proj_simpl.
  destruct (List.filter (FileRepository.in_bucket bucketID) (files w)) as [|f fs] eqn:Hheld.
  - change (0 <? Z.of_nat (length (@nil File.t))) with false. cbv iota.
    unfold BucketRepository.Delete.
    destruct (fails e BucketDelete); [split; [reflexivity | refused] |].
    split; [reflexivity |]. right. split; [reflexivity |].
    exists bucketID. split; [reflexivity |]. split; [exact Hheld | reflexivity].
  - change (0 <? Z.of_nat (length (f :: fs))) with true. cbv iota.
    split; [reflexivity | refused].
Qed.

(** X16.  The two handlers that write the table of buckets keep its
    invariants, for every request and under every storage fault: bucket
    ids stay unique and never beyond the last id handed out, and no owner
    ever has two buckets of one name. *)
Theorem bucket_handlers_keep_ids_and_owner_names_unique e w :
  (forall validate invalid bf r,
     (bucket_primary_key w ->
      bucket_primary_key (snd (CreateBucket validate invalid bf e r w))) /\
     (owner_names_unique w ->
      owner_names_unique (snd (CreateBucket validate invalid bf e r w)))) /\
  (forall r,
     (bucket_primary_key w -> bucket_primary_key (snd (DeleteBucket e r w))) /\
     (owner_names_unique w -> owner_names_unique (snd (DeleteBucket e r w)))).
Proof.
  split.
  - intros validate invalid bf r.
    destruct (CreateBucket_buckets validate invalid bf e r w)
      as [(Hb & Hl) | (u & req & _ & _ & _ & _ & _ & Hnone & Hb & Hl & _)].
    + unfold bucket_primary_key, owner_names_unique. rewrite Hb, Hl. tauto.
    + unfold bucket_primary_key, owner_names_unique. rewrite Hb, Hl. split.
      * intros (Hnd & Hall). split.
        -- rewrite map_app. cbn [map Bucket.ID].
           apply List.NoDup_app; [exact Hnd | constructor; [intros [] | constructor] |].
           intros a Ha [<-|[]]. apply in_map_iff in Ha as (b & Hb' & Hin).
           rewrite List.Forall_forall in Hall. specialize (Hall b Hin). lia.
        -- apply List.Forall_app. split.
           ++ apply (List.Forall_impl _ (P := fun b => Bucket.ID b <= lastBucketID w));
                [| exact Hall].
              intros b Hb'. cbn in Hb'. lia.
           ++ constructor; [cbn; lia | constructor].
      * intros Huniq. rewrite map_app. cbn [map Bucket.UserID Bucket.Name].
        apply List.NoDup_app; [exact Huniq | constructor; [intros [] | constructor] |].
        intros a Ha [<-|[]]. apply in_map_iff in Ha as (b & Hb' & Hin).
        pose proof (find_none _ _ Hnone b Hin) as Hno. cbn beta in Hno.
        injection Hb' as Hown Hname.
        rewrite Hown, Hname, String.eqb_refl, Z.eqb_refl in Hno. discriminate.
  - intros r.
    destruct (DeleteBucket_buckets e r w) as (Hl & [(_ & Hb) | (_ & id & _ & _ & Hb)]).
    + unfold bucket_primary_key, owner_names_unique. rewrite Hb, Hl. tauto.
    + apply (bucket_key_filter _ w _ Hb Hl).
Qed.

Lemma fresh_bucket_primary_key : bucket_primary_key Scenario.fresh.
Proof.
  split; [| repeat constructor; cbn; lia].
  repeat constructor; cbn [In]; intros H; decompose [or] H; try discriminate; contradiction.
Qed.

Lemma bucket_handlers_keep_ids_and_owner_names_unique_witness :
  let validate := fun _ : CreateBucketRequest.t => @None error in
  let invalid := fun _ : error => WriteJSON StatusBadRequest (ErrorMessage "invalid") in
  let bf := fun _ : BucketFault => false in
  let r := {| creator := Some Scenario.bob;
              decoded := Ok {| CreateBucketRequest.Name := "logs";
                               CreateBucketRequest.Description := "";
                               CreateBucketRequest.IsPublic := false |} |} in
  bucket_primary_key (snd (CreateBucket validate invalid bf (Scenario.calm 100) r Scenario.fresh)).
Proof.
  intros validate invalid bf r.
  destruct (bucket_handlers_keep_ids_and_owner_names_unique (Scenario.calm 100) Scenario.fresh)
    as (Hcreate & _).
  apply (Hcreate validate invalid bf r). exact fresh_bucket_primary_key.
Defined.

(** X17.  The bucket listings show an actor their own buckets only,
    newest first: [ListBuckets] a page of at most [limit] of them with
    their number as [total] (0 and a logged error when the count query
    fails), [S3ListBuckets] at most the 1000 newest under the actor's id
    and e-mail address as owner, and all of them when the actor owns no
    more than 1000.  A bucket of someone else is never listed, public or
    not. *)
Theorem bucket_listings_show_own_buckets_only e w u :
  fails e BucketQuery = false ->
  let own := List.filter (fun b => Bucket.UserID b =? User.ID u) (buckets w) in
  (forall bf r, user r = Some u ->
     exists page total,
       fst (ListBuckets bf e r w) = Listed page total (pageLimit r) (pageOffset r) /\
       Z.of_nat (length page) <= pageLimit r /\
       StronglySorted (fun a b => Bucket.CreatedAt b <= Bucket.CreatedAt a) page /\
       (forall b, In b page -> In b (buckets w) /\ Bucket.UserID b = User.ID u) /\
       (bf BucketCount = false -> total = Z.of_nat (length own)) /\
       (bf BucketCount = true ->
          total = 0 /\ error_logged w (snd (ListBuckets bf e r w)))) /\
  (forall r, s3user r = Some u ->
     exists bs,
       fst (S3ListBuckets e r w)
       = AllMyBuckets
           {| Buckets := map (fun b => {| BucketName := Bucket.Name b;
                                          CreationDate := Bucket.CreatedAt b |}) bs;
              AllOwnerID := itoa (User.ID u);
              OwnerDisplayName := User.Email u |} /\
       Z.of_nat (length bs) <= 1000 /\
       StronglySorted (fun a b => Bucket.CreatedAt b <= Bucket.CreatedAt a) bs /\
       (forall b, In b bs -> In b (buckets w) /\ Bucket.UserID b = User.ID u) /\
       (Z.of_nat (length own) <= 1000 -> Permutation bs own)).
Proof.
  intros Hq own. split.
  - intros bf r Hu.
    pose proof (pageLimit_bounds r) as Hlim.
    unfold ListBuckets. rewrite Hu. unlog.
    unfold BucketRepository.List, BucketRepository.Count. rewrite Hq.
    match goal with
    | |- context [sql.limit_offset ?l ?o (sql.order_by_desc ?k (List.filter ?p ?rows))] =>
        pose proof (page_spec k p l o rows) as (Hs & Hin & Hlen & _)
    end.
    eexists. exists (if bf BucketCount then 0 else Z.of_nat (length own)).
    split; [destruct (bf BucketCount); reflexivity |].
    split; [apply Hlen; lia |]. split; [exact Hs |]. split.
    + intros b Hb. apply Hin in Hb as (Hb & Hk). split; [exact Hb | now apply Z.eqb_eq].
    + split; intros Hc; rewrite Hc; [reflexivity | split; [reflexivity |]].
      apply (error_logged_last w _
               [ {| level := DebugLevel; message := "List buckets endpoint called" |} ]
               "Failed to count buckets").
      reflexivity.
  - intros r Hu.
    unfold S3ListBuckets. rewrite Hu. unlog.
    unfold BucketRepository.List. rewrite Hq.
    match goal with
    | |- context [sql.limit_offset ?l ?o (sql.order_by_desc ?k (List.filter ?p ?rows))] =>
        pose proof (page_spec k p l o rows) as (Hs & Hin & Hlen & Hall)
    end.
    eexists. split; [reflexivity |].
    split; [apply Hlen; lia |]. split; [exact Hs |]. split.
    + intros b Hb. apply Hin in Hb as (Hb & Hk). split; [exact Hb | now apply Z.eqb_eq].
    + intros Hfew. now apply Hall.
Qed.

Lemma bucket_listings_show_own_buckets_only_witness :
  let e := Scenario.calm 102 in
  exists bs,
    fst (S3ListBuckets e (Scenario.s3 Scenario.bob "" "" "" "") Scenario.stocked)
      = AllMyBuckets {| Buckets := bs; AllOwnerID := "2";
                        OwnerDisplayName := "bob@example.org" |} /\
    bs = [].
Proof.
  intros e.
  destruct (bucket_listings_show_own_buckets_only e Scenario.stocked Scenario.bob eq_refl)
    as (_ & Hs3).
  destruct (Hs3 (Scenario.s3 Scenario.bob "" "" "" "") eq_refl)
    as (bs & Hresp & _ & _ & _ & Hall).
  assert (Hnone : bs = []).
  { apply Permutation_nil. apply Permutation_sym.
    replace (@nil Bucket.t)
      with (List.filter (fun b => Bucket.UserID b =? User.ID Scenario.bob)
              (buckets Scenario.stocked)) by (vm_compute; reflexivity).
    apply Hall. vm_compute. discriminate. }
  eexists. split; [rewrite Hresp; reflexivity |]. rewrite Hnone. reflexivity.
Defined.

Lemma filter_none {A} (p : A -> bool) (l : list A) :
  (forall x, In x l -> p x = false) -> List.filter p l = [].
Proof.
  induction l as [|y l IH]; intros H; [reflexivity |]. cbn [List.filter].
  rewrite (H y (or_introl eq_refl)). apply IH. intros x Hx. apply H. now right.
Qed.

(** X18.  A bucket that was just created can be deleted again by its
    owner, which restores the table of buckets: when no file refers to a
    bucket id that was not handed out yet, [DeleteBucket] on the id the
    [201] answer reported is answered [200] and leaves the buckets and the
    files that were there before the creation.  The id is not handed out
    again: the counter of bucket ids stays one up. *)
Theorem created_bucket_can_be_deleted_again validate invalid bf e e' r w u req r' :
  creator r = Some u -> decoded r = Ok req -> validate req = None ->
  fails e BucketQuery = false -> bf BucketInsert = false ->
  BucketRepository.GetByName e w (CreateBucketRequest.Name req) (User.ID u) = Ok None ->
  bucket_primary_key w ->
  Forall (fun f => File.BucketID f <= lastBucketID w) (files w) ->
  fails e' BucketQuery = false -> fails e' FileCount = false ->
  fails e' BucketDelete = false ->
  user r' = Some u -> bucketId r' = Some (lastBucketID w + 1) ->
  let w1 := snd (CreateBucket validate invalid bf e r w) in
  let w2 := snd (DeleteBucket e' r' w1) in
  fst (DeleteBucket e' r' w1) = WriteJSON StatusOK (Message "Bucket deleted successfully") /\
  buckets w2 = buckets w /\ files w2 = files w /\ disk w2 = disk w /\
  lastBucketID w2 = lastBucketID w + 1.
Proof.
  intros Hu Hreq Hv Hq Hins Hnone (Hnd & Hall) Hrefs Hq' Hcount Hdel Hu' Hid' w1 w2.
  unfold BucketRepository.GetByName in Hnone. rewrite Hq in Hnone. injection Hnone as Hnone.
  assert (Hw1 : w1 = log InfoLevel "Bucket created successfully"
                  {| buckets := buckets w ++
                       [ {| Bucket.ID := lastBucketID w + 1;
                            Bucket.Name := CreateBucketRequest.Name req;
                            Bucket.UserID := User.ID u;
                            Bucket.Description := CreateBucketRequest.Description req;
                            Bucket.IsPublic := CreateBucketRequest.IsPublic req;
                            Bucket.CreatedAt := now e; Bucket.UpdatedAt := now e |} ];
                     files := files w; lastBucketID := lastBucketID w + 1;
                     lastFileID := lastFileID w; disk := disk w;
                     logs := logs (log DebugLevel "Create bucket endpoint called" w) |}).
  { subst w1. unfold CreateBucket. rewrite Hu, Hreq, Hv. unlog.
    unfold BucketRepository.GetByName. rewrite Hq, Hnone.
    unfold BucketRepository.Create. rewrite Hins. reflexivity. }
  assert (Hold : forall b, In b (buckets w) -> (Bucket.ID b =? lastBucketID w + 1) = false).
  { intros b Hb. rewrite List.Forall_forall in Hall. specialize (Hall b Hb).
    apply Z.eqb_neq. lia. }
  assert (Hfind : find (fun b => Bucket.ID b =? lastBucketID w + 1) (buckets w) = None)
    by (apply find_none_all; exact Hold).
  assert (Hempty : List.filter (FileRepository.in_bucket (lastBucketID w + 1)) (files w) = []).
  { apply filter_none. intros f Hf.
    rewrite List.Forall_forall in Hrefs. specialize (Hrefs f Hf).
    unfold FileRepository.in_bucket. apply Z.eqb_neq. lia. }
  assert (Hkeep : List.filter (fun b => negb (Bucket.ID b =? lastBucketID w + 1)) (buckets w)
                  = buckets w).
  { apply filter_all. apply forallb_forall. intros b Hb.
    now rewrite (Hold b Hb). }
  subst w2. unfold DeleteBucket. rewrite Hu', Hid'. unlog.
  unfold BucketRepository.GetByID, FileRepository.Count, BucketRepository.Delete.
  rewrite Hq', Hcount, Hdel, Hw1. proj_simpl.
  rewrite (find_app_none _ _ _ Hfind). cbn [Bucket.ID Bucket.UserID].
  rewrite !Z.eqb_refl. cbn [negb]. rewrite Hempty. cbn [length Z.of_nat Z.ltb Z.compare].
  proj_simpl. rewrite List.filter_app, Hkeep. cbn [List.filter Bucket.ID].
  rewrite Z.eqb_refl. cbn [negb]. rewrite app_nil_r.
  repeat split; reflexivity.
Qed.

Lemma created_bucket_can_be_deleted_again_witness :
  let validate := fun _ : CreateBucketRequest.t => @None error in
  let invalid := fun _ : error => WriteJSON StatusBadRequest (ErrorMessage "invalid") in
  let bf := fun _ : BucketFault => false in
  let r := {| creator := Some Scenario.bob;
              decoded := Ok {| CreateBucketRequest.Name := "logs";
                               CreateBucketRequest.Description := "";
                               CreateBucketRequest.IsPublic := false |} |} in
  let w1 := snd (CreateBucket validate invalid bf (Scenario.calm 100) r Scenario.fresh) in
  let w2 := snd (DeleteBucket (Scenario.calm 101) (Scenario.on_bucket Scenario.bob 3) w1) in
  buckets w2 = buckets Scenario.fresh /\ lastBucketID w2 = 3.
Proof.
  intros validate invalid bf r w1 w2.
  destruct (created_bucket_can_be_deleted_again validate invalid bf
              (Scenario.calm 100) (Scenario.calm 101) r Scenario.fresh Scenario.bob
              {| CreateBucketRequest.Name := "logs"; CreateBucketRequest.Description := "";
                 CreateBucketRequest.IsPublic := false |}
              (Scenario.on_bucket Scenario.bob 3)
              eq_refl eq_refl eq_refl eq_refl eq_refl eq_refl fresh_bucket_primary_key
              (List.Forall_nil _) eq_refl eq_refl eq_refl eq_refl eq_refl)
    as (_ & Hb & _ & _ & Hl).
  split; [exact Hb | exact Hl].
Defined.

(** ** A stored object in the listing *)

(** X19.  An object that was just stored shows in the listing of its
    bucket: after a put through either adapter that was answered [200]
    and whose metadata calls did not fail, [ListFiles] without a prefix
    and from offset 0, for an actor who may read the bucket, lists a file
    of that name with the size, the digest and the content type of the
    put, provided the bucket holds no more files than the limit of the
    page.  The native adapter answers [200] to no other put; the S3
    adapter does, and such a put is not covered. *)
Theorem stored_object_appears_in_the_listing e e' p w bucketID key r u b :
  status (fst (run e p w)) = StatusOK ->
  metadata_sound e p ->
  target e w p = Some (bucketID, key) ->
  let w' := snd (run e p w) in
  user r = Some u -> bucketId r = Some bucketID ->
  prefix r = "" -> pageOffset r = 0 ->
  BucketRepository.GetByID e' w' bucketID = Ok (Some b) -> denied b u = false ->
  fails e' FileList = false ->
  Z.of_nat (length (List.filter (FileRepository.in_bucket bucketID) (files w'))) <= pageLimit r ->
  exists page total j,
    fst (ListFiles e' r w') = WriteJSON StatusOK (FilePage page total (pageLimit r) 0) /\
    In j page /\
    json_name j = key /\ json_bucket_id j = bucketID /\
    json_size j = Z.of_nat (length (put_content p)) /\
    json_etag j = md5.hexdigest (put_content p) /\
    json_content_type j = defaultContentType (put_ctype p).
Proof.
  intros Hok Hsound Htarget w' Hu Hid Hpre Hoff Hb Hden Hlist Hfew.
  destruct (put_ok e p w bucketID key (conj Hok Hsound) Htarget)
    as (actor & row & _ & Hrow & Hrec & _).
  fold w' in Hrow. apply find_some in Hrow as (Hin & Hnamed).
  destruct Hrec as (Hbid & Hname & _ & Hct & Hsize & Hetag & _).
  unfold ListFiles. rewrite Hu, Hid. unlog. rewrite Hb, Hden, Hpre, Hoff.
  cbn [String.eqb negb]. unfold FileRepository.List. rewrite Hlist.
  match goal with
  | |- context [sql.limit_offset ?l ?o (sql.order_by_desc ?k (List.filter ?q ?rows))] =>
      pose proof (page_spec k q l o rows) as (_ & _ & _ & Hall)
  end.
  specialize (Hall eq_refl Hfew).
  destruct (FileRepository.Count e' _ bucketID) as [total | err];
    (eexists; eexists; exists (fileJSON row); split; [reflexivity |]);
    (split;
     [ apply in_map; apply (Permutation_in _ (Permutation_sym Hall));
       apply filter_In; split; [exact Hin |];
       unfold FileRepository.in_bucket; rewrite Hbid; apply Z.eqb_refl
     | cbn [fileJSON json_name json_bucket_id json_size json_etag json_content_type];
       repeat split; assumption ]).
Qed.

Lemma stored_object_appears_in_the_listing_witness :
  let by_s3 := S3 (Scenario.s3 Scenario.alice "pub" "b.txt" "" "hi") in
  let by_native := Native (Scenario.upload Scenario.bob 2 "c.txt" "text/plain" "hi") in
  let listing p := ListFiles (Scenario.calm 103) (Scenario.on_bucket Scenario.bob 2)
                     (snd (run (Scenario.calm 102) p Scenario.stocked)) in
  (exists page total j,
     fst (listing by_s3) = WriteJSON StatusOK (FilePage page total 50 0) /\
     In j page /\ json_name j = "b.txt" /\
     json_content_type j = "application/octet-stream") /\
  (exists page total j,
     fst (listing by_native) = WriteJSON StatusOK (FilePage page total 50 0) /\
     In j page /\ json_name j = "c.txt" /\ json_content_type j = "text/plain").
Proof.
  intros by_s3 by_native listing. split.
  - destruct (stored_object_appears_in_the_listing (Scenario.calm 102) (Scenario.calm 103)
                by_s3 Scenario.stocked 2 "b.txt" (Scenario.on_bucket Scenario.bob 2)
                Scenario.bob Scenario.pub_bucket
                ltac:(vm_compute; reflexivity) ltac:(repeat split)
                eq_refl eq_refl eq_refl eq_refl eq_refl
                ltac:(vm_compute; reflexivity) eq_refl eq_refl
                ltac:(vm_compute; discriminate))
      as (page & total & j & Hresp & Hin & Hname & _ & _ & _ & Hct).
    exists page, total, j. repeat split; assumption.
  - destruct (stored_object_appears_in_the_listing (Scenario.calm 102) (Scenario.calm 103)
                by_native Scenario.stocked 2 "c.txt" (Scenario.on_bucket Scenario.bob 2)
                Scenario.bob Scenario.pub_bucket
                ltac:(vm_compute; reflexivity) I
                eq_refl eq_refl eq_refl eq_refl eq_refl
                ltac:(vm_compute; reflexivity) eq_refl eq_refl
                ltac:(vm_compute; discriminate))
      as (page & total & j & Hresp & Hin & Hname & _ & _ & _ & Hct).
    exists page, total, j. repeat split; assumption.
Defined.

(** ** The paths the handlers store *)

Lemma Clean_idempotent path : filepath.Clean (filepath.Clean path) = filepath.Clean path.
Proof.
  unfold filepath.Clean at 2 3.
  destruct (path =? "")%string; [reflexivity |].
  set (rt := filepath.rooted path).
  set (out := filepath.scan rt [] (filepath.split path)).
  assert (Hcanon : canonical rt out) by (apply canonical_scan, canonical_nil).
  assert (Helems : Forall (fun x => nosep x = true /\ x <> "") out)
    by (apply scan_elements; [apply split_nosep | constructor]).
  destruct out as [|x out'] eqn:Hout; [destruct rt; reflexivity |].
  assert (Hne : x :: out' <> []) by discriminate.
  unfold filepath.Clean.
  pose proof (render_nonempty rt _ Hne Helems) as Hr.
  apply String.eqb_neq in Hr. rewrite Hr.
  pose proof (render_rooted rt _ Hne Helems "") as Hrt.
  rewrite append_empty_r in Hrt. rewrite Hrt.
  now rewrite (scan_render rt _ Hne Helems Hcanon).
Qed.

Lemma Clean_not_empty path : filepath.Clean path <> "".
Proof.
  unfold filepath.Clean. destruct (path =? "")%string; [discriminate |].
  unfold filepath.render. destruct (filepath.rooted path); [discriminate |].
  set (out := filepath.scan false [] (filepath.split path)).
  assert (Helems : Forall (fun x => nosep x = true /\ x <> "") out)
    by (apply scan_elements; [apply split_nosep | constructor]).
  destruct out as [|x out'] eqn:Hout; [discriminate |].
  intros H.
  pose proof (render_nonempty false (x :: out') ltac:(discriminate) Helems) as Hr.
  apply Hr. unfold filepath.render. exact H.
Qed.

Lemma Join_cons x rest :
  x <> "" -> filepath.Join (x :: rest) = filepath.Clean (String.concat "/" (x :: rest)).
Proof. intros H. destruct x as [|c x]; [contradiction | reflexivity]. Qed.

(** X20.  Every path the put handlers make, write to and record in the
    table is in the form [filepath.Clean] leaves: the storage directory
    and the destination of a put, for every base path, actor, bucket and
    key, are not empty and are not changed by cleaning them again, so
    that a path names one entry of the disk in one way only. *)
Theorem stored_paths_are_clean e uid bucketID key :
  filepath.Clean (storageDirOf e uid bucketID) = storageDirOf e uid bucketID /\
  filepath.Clean (filePathOf e uid bucketID key) = filePathOf e uid bucketID key /\
  storageDirOf e uid bucketID <> "" /\
  filePathOf e uid bucketID key <> "" /\
  filepath.Clean (filepath.Dir (filePathOf e uid bucketID key))
  = filepath.Dir (filePathOf e uid bucketID key).
Proof.
  assert (Hdir : exists path, storageDirOf e uid bucketID = filepath.Clean path).
  { unfold storageDirOf. rewrite (Join_cons _ _ (getStoragePath_nonempty e)).
    eexists. reflexivity. }
  destruct Hdir as (d & Hd).
  assert (Hfile : exists path, filePathOf e uid bucketID key = filepath.Clean path).
  { unfold filePathOf.
    pose proof (Clean_not_empty d) as Hn. rewrite <- Hd in Hn.
    rewrite (Join_cons _ _ Hn). eexists. reflexivity. }
  destruct Hfile as (f & Hf).
  rewrite Hd, Hf. unfold filepath.Dir.
  repeat split; first [apply Clean_idempotent | apply Clean_not_empty].
Qed.

(** ** Answers that report a failure *)

(** X21.  A write that is not answered with its success status leaves the
    tables as they were.  For every request and under every storage
    fault: an upload or an S3 put not answered [200], a [DeleteFile] or
    [DeleteBucket] not answered [200], an [S3DeleteObject] not answered
    [204] and a [CreateBucket] not answered [201] leave the rows of files
    and of buckets and the counter of file ids unchanged. *)
Theorem failed_writes_leave_the_tables_unchanged e w :
  let unchanged (w' : World) :=
    files w' = files w /\ buckets w' = buckets w /\ lastFileID w' = lastFileID w in
  (forall r, status (fst (UploadFile e r w)) <> StatusOK ->
             unchanged (snd (UploadFile e r w))) /\
  (forall r, status (fst (DeleteFile e r w)) <> StatusOK ->
             unchanged (snd (DeleteFile e r w))) /\
  (forall r, status (fst (DeleteBucket e r w)) <> StatusOK ->
             unchanged (snd (DeleteBucket e r w))) /\
  (forall r, status (fst (S3PutObject e r w)) <> StatusOK ->
             unchanged (snd (S3PutObject e r w))) /\
  (forall r, status (fst (S3DeleteObject e r w)) <> StatusNoContent ->
             unchanged (snd (S3DeleteObject e r w))) /\
  (forall validate invalid bf r,
     status (fst (CreateBucket validate invalid bf e r w)) <> StatusCreated ->
     unchanged (snd (CreateBucket validate invalid bf e r w))).
Proof.
  intros unchanged. subst unchanged. cbv beta.
  split; [| split; [| split; [| split; [| split]]]].
  - intros r Hno.
    destruct (UploadFile_cases e r w)
      as [(u & bucketID & header & existing & w2 & Hop) | (_ & Hf & Hb & Hl & _)];
      [| repeat split; assumption].
    destruct (copy_fails_after e) as [n|] eqn:Hn.
    { destruct (UploadFile_copy_failed _ _ _ _ _ _ _ _ Hop n Hn)
        as (w' & -> & _ & Hf & Hb & Hl & _).
      repeat split; assumption. }
    destruct existing as [ex|].
    + destruct (fails e FileUpdate) eqn:Hf.
      * destruct (UploadFile_update_failed _ _ _ _ _ _ _ _ Hop ex eq_refl Hn Hf)
          as (w' & -> & _ & Hfiles & _ & Hb & Hl).
        repeat split; assumption.
      * destruct (UploadFile_updated _ _ _ _ _ _ _ _ Hop ex eq_refl Hn Hf) as (w' & Heq & _).
        rewrite Heq in Hno. now contradiction Hno.
    + destruct (fails e FileInsert) eqn:Hf.
      * destruct (UploadFile_create_failed _ _ _ _ _ _ _ _ Hop eq_refl Hn Hf)
          as (w' & -> & _ & Hfiles & _ & Hb & Hl).
        repeat split; assumption.
      * destruct (UploadFile_created _ _ _ _ _ _ _ _ Hop eq_refl Hn Hf) as (w' & Heq & _).
        rewrite Heq in Hno. now contradiction Hno.
  - intros r Hno.
    destruct (DeleteFile_files e r w) as (Hl & Hb & _ & [(_ & Hf) | (Hok & _)]);
      [repeat split; assumption | contradiction].
  - intros r Hno.
    destruct (DeleteBucket_files e r w) as (Hl & Hf & _).
    destruct (DeleteBucket_buckets e r w) as (_ & [(_ & Hb) | (Hok & _)]);
      [repeat split; assumption | contradiction].
  - intros r Hno.
    destruct (S3PutObject_cases e r w)
      as [(u & b & w2 & Hop) | (_ & Hf & Hb & Hl & _)]; [| repeat split; assumption].
    destruct (copy_fails_after e) as [n|] eqn:Hn.
    + destruct (S3PutObject_copy_failed _ _ _ _ _ _ Hop n Hn)
        as (w' & -> & _ & Hf & Hb & Hl & _).
      repeat split; assumption.
    + destruct (S3PutObject_copied _ _ _ _ _ _ Hop Hn) as (w' & Heq & _).
      rewrite Heq in Hno. now contradiction Hno.
  - intros r Hno.
    destruct (S3DeleteObject_files e r w) as (Hl & Hb & _ & [(_ & Hf) | (Hok & _)]);
      [repeat split; assumption | contradiction].
  - intros validate invalid bf r Hno.
    destruct (CreateBucket_files validate invalid bf e r w) as (Hl & Hf & _).
    destruct (CreateBucket_buckets validate invalid bf e r w)
      as [(Hb & _) | (u & req & _ & _ & _ & _ & _ & _ & _ & _ & Hresp)];
      [repeat split; assumption |].
    rewrite Hresp in Hno. now contradiction Hno.
Qed.

Lemma failed_writes_leave_the_tables_unchanged_witness :
  let e := Scenario.failing FileDelete 102 in
  let r := Scenario.s3 Scenario.alice "pub" "a.txt" "" "" in
  status (fst (S3DeleteObject e r Scenario.stocked)) = StatusInternalServerError /\
  files (snd (S3DeleteObject e r Scenario.stocked)) = files Scenario.stocked.
Proof.
  intros e r. split; [vm_compute; reflexivity |].
  destruct (failed_writes_leave_the_tables_unchanged e Scenario.stocked)
    as (_ & _ & _ & _ & Hs3 & _).
  apply (Hs3 r). vm_compute. discriminate.
Defined.

(** X22.  A bucket is deleted only when it holds no file, and then it is
    gone for every native handler: after a [DeleteBucket] answered [200]
    no row of [files] refers to the bucket, and any later request on that
    bucket id, whoever sends it, is answered [404 Bucket not found] and
    changes nothing but the log. *)
Theorem deleted_bucket_is_gone_for_every_handler e r w id :
  bucketId r = Some id ->
  status (fst (DeleteBucket e r w)) = StatusOK ->
  let w' := snd (DeleteBucket e r w) in
  (forall f, In f (files w') -> File.BucketID f <> id) /\
  (forall e' r' u',
     fails e' BucketQuery = false -> user r' = Some u' -> bucketId r' = Some id ->
     (forall h, In h [UploadFile; ListFiles; GetBucket; DeleteBucket] ->
        fst (h e' r' w') = WriteJSON StatusNotFound (ErrorMessage "Bucket not found") /\
        same_storage w' (snd (h e' r' w'))) /\
     (forall fileID, fileId r' = Some fileID ->
        forall h, In h [GetFile; DownloadFile; DeleteFile] ->
          fst (h e' r' w') = WriteJSON StatusNotFound (ErrorMessage "Bucket not found") /\
          same_storage w' (snd (h e' r' w')))).
Proof.
  intros Hid Hok w'.
  destruct (DeleteBucket_files e r w) as (_ & Hf & _).
  destruct (DeleteBucket_buckets e r w) as (_ & [(Hno & _) | (_ & id' & Hid' & Hheld & Hb)]);
    [contradiction |].
  assert (id' = id) as -> by congruence.
  split.
  - intros f Hin Hbid. subst w'. rewrite Hf in Hin.
    assert (Hx : In f (List.filter (FileRepository.in_bucket id) (files w))).
    { apply filter_In. split; [exact Hin |].
      unfold FileRepository.in_bucket. now apply Z.eqb_eq. }
    rewrite Hheld in Hx. destruct Hx.
  - intros e' r' u' Hq Hu' Hid''.
    assert (Hgone : BucketRepository.GetByID e' w' id = Ok None).
    { unfold BucketRepository.GetByID. rewrite Hq. subst w'. rewrite Hb.
      now rewrite (find_filter_out (fun b => Bucket.ID b =? id)). }
    split.
    + intros h Hh. cbn [In] in Hh.
      destruct Hh as [<- | [<- | [<- | [<- | []]]]].
      * unfold UploadFile. rewrite Hu', Hid''. unlog. rewrite Hgone.
        repeat split; reflexivity.
      * unfold ListFiles. rewrite Hu', Hid''. unlog. rewrite Hgone.
        repeat split; reflexivity.
      * unfold GetBucket. rewrite Hu', Hid''. unlog. rewrite Hgone.
        repeat split; reflexivity.
      * unfold DeleteBucket. rewrite Hu', Hid''. unlog. rewrite Hgone.
        repeat split; reflexivity.
    + intros fileID Hfid h Hh. cbn [In] in Hh.
      destruct Hh as [<- | [<- | [<- | []]]].
      * unfold GetFile. rewrite Hu', Hid'', Hfid. unlog. rewrite Hgone.
        repeat split; reflexivity.
      * unfold DownloadFile. rewrite Hu', Hid'', Hfid. unlog. rewrite Hgone.
        repeat split; reflexivity.
      * unfold DeleteFile. rewrite Hu', Hid'', Hfid. unlog. rewrite Hgone.
        repeat split; reflexivity.
Qed.

Lemma deleted_bucket_is_gone_for_every_handler_witness :
  let e := Scenario.calm 100 in
  let w' := snd (DeleteBucket e (Scenario.on_bucket Scenario.alice 2) Scenario.fresh) in
  fst (UploadFile e (Scenario.upload Scenario.alice 2 "a.txt" "text/plain" "hello") w')
    = WriteJSON StatusNotFound (ErrorMessage "Bucket not found").
Proof.
  intros e w'.
  destruct (deleted_bucket_is_gone_for_every_handler e
              (Scenario.on_bucket Scenario.alice 2) Scenario.fresh 2 eq_refl eq_refl)
    as (_ & Hgone).
  destruct (Hgone e (Scenario.upload Scenario.alice 2 "a.txt" "text/plain" "hello")
              Scenario.alice eq_refl eq_refl eq_refl) as (Hbucket & _).
  apply (Hbucket UploadFile). cbn [In]. tauto.
Defined.

(** ** The metadata an upload reports and the metadata it stores *)

(** X23.  The metadata of an uploaded file can be read back: after an
    [UploadFile] answered [200], [GetFile] on the reported id, by an actor
    who may read the bucket, answers [200] with the same id, name,
    bucket, content type, size and ETag as the upload answer, and with
    the time of the upload as [updated_at].  The upload answer itself
    does not show the times of the row: its [created_at] and
    [updated_at] are the zero time. *)
Theorem upload_metadata_can_be_read_back e e' r w :
  primary_key w ->
  status (fst (UploadFile e r w)) = StatusOK ->
  let w' := snd (UploadFile e r w) in
  exists j,
    fst (UploadFile e r w) = WriteJSON StatusOK (FileObject j) /\
    json_created_at j = 0 /\ json_updated_at j = 0 /\
    forall r' u' b,
      user r' = Some u' -> bucketId r' = bucketId r -> fileId r' = Some (json_id j) ->
      BucketRepository.GetByID e' w' (json_bucket_id j) = Ok (Some b) ->
      denied b u' = false -> fails e' FileQuery = false ->
      exists j',
        fst (GetFile e' r' w') = WriteJSON StatusOK (FileObject j') /\
        json_id j' = json_id j /\ json_name j' = json_name j /\
        json_bucket_id j' = json_bucket_id j /\
        json_content_type j' = json_content_type j /\
        json_size j' = json_size j /\ json_etag j' = json_etag j /\
        json_updated_at j' = now e.
Proof.
  intros Hpk Hok w'.
  pose proof (UploadFile_primary_key e r w Hpk) as (Hnd & _). fold w' in Hnd.
  destruct (UploadFile_ok e r w Hok)
    as (u & bucketID & header & row & Hu & Hid & _ & _ & Hrow & Hrec & Hresp & _).
  fold w' in Hrow.
  eexists. split; [exact Hresp |]. split; [reflexivity |]. split; [reflexivity |].
  cbn [fileJSON json_id json_bucket_id File.with_ID newFile File.ID File.BucketID].
  intros r' u' b Hu' Hid' Hfid' Hb Hden Hq.
  apply find_some in Hrow as (Hin & _).
  destruct Hrec as (Hbid & Hname & _ & Hct & Hsize & Hetag & Hupd).
  exists (fileJSON row).
  split.
  - apply (GetFile_found e' r' w' u' bucketID (File.ID row) b Hu'
             ltac:(congruence) Hfid' Hb row Hden); [| exact Hbid].
    unfold FileRepository.GetByID. rewrite Hq.
    now rewrite (find_by_ID (files w') row Hnd Hin).
  - cbn [fileJSON json_id json_name json_bucket_id json_content_type json_size json_etag
           json_updated_at File.with_ID newFile File.ID File.BucketID File.Name
           File.ContentType File.Size File.ETag].
    repeat split; assumption.
Qed.

Lemma upload_metadata_can_be_read_back_witness :
  let r := Scenario.upload Scenario.alice 2 "b.txt" "" "hi" in
  let w' := snd (UploadFile (Scenario.calm 102) r Scenario.stocked) in
  exists j j',
    fst (UploadFile (Scenario.calm 102) r Scenario.stocked) = WriteJSON StatusOK (FileObject j) /\
    json_updated_at j = 0 /\
    fst (GetFile (Scenario.calm 103) (Scenario.on_file Scenario.bob 2 (json_id j)) w')
      = WriteJSON StatusOK (FileObject j') /\
    json_name j' = json_name j /\ json_updated_at j' = 102.
Proof.
  intros r w'.
  destruct (upload_metadata_can_be_read_back (Scenario.calm 102) (Scenario.calm 103) r
              Scenario.stocked stocked_primary_key ltac:(vm_compute; reflexivity))
    as (j & Hresp & _ & Hzero & Hread).
  assert (Hj : json_id j = 3 /\ json_bucket_id j = 2).
  { assert (H : body (fst (UploadFile (Scenario.calm 102) r Scenario.stocked))
                = FileObject j) by (rewrite Hresp; reflexivity).
    vm_compute in H. injection H as <-. split; reflexivity. }
  destruct Hj as (Hj1 & Hj2).
  destruct (Hread (Scenario.on_file Scenario.bob 2 (json_id j)) Scenario.bob
              Scenario.pub_bucket eq_refl eq_refl eq_refl)
    as (j' & Hget & _ & Hname & _ & _ & _ & _ & Hupd).
  - rewrite Hj2. vm_compute. reflexivity.
  - reflexivity.
  - reflexivity.
  - exists j, j'. repeat split; assumption.
Defined.

(** ** Updating a bucket *)

(** X24.  [BucketRepository.Update] rewrites the name, the description
    and the visibility of the row of the given id and stamps its update
    time; the id, the owner and the creation time of that row stay, and
    so does every other row.  The row read back by id is exactly that, a
    lookup of any other id answers as before, and an id that has no row
    changes nothing. *)
Theorem bucket_update_rewrites_one_row bf e bucket w :
  bf BucketUpdate = false ->
  fails e BucketQuery = false ->
  let w' := snd (BucketRepository.Update bf e bucket w) in
  fst (BucketRepository.Update bf e bucket w) = None /\
  map Bucket.ID (buckets w') = map Bucket.ID (buckets w) /\
  files w' = files w /\ disk w' = disk w /\
  (forall id, id <> Bucket.ID bucket ->
     BucketRepository.GetByID e w' id = BucketRepository.GetByID e w id) /\
  (forall row, BucketRepository.GetByID e w (Bucket.ID bucket) = Ok (Some row) ->
     BucketRepository.GetByID e w' (Bucket.ID bucket)
     = Ok (Some {| Bucket.ID := Bucket.ID row; Bucket.Name := Bucket.Name bucket;
                   Bucket.UserID := Bucket.UserID row;
                   Bucket.Description := Bucket.Description bucket;
                   Bucket.IsPublic := Bucket.IsPublic bucket;
                   Bucket.CreatedAt := Bucket.CreatedAt row;
                   Bucket.UpdatedAt := now e |})) /\
  (BucketRepository.GetByID e w (Bucket.ID bucket) = Ok None -> buckets w' = buckets w).
Proof.
  intros Hupd Hq w'. subst w'.
  unfold BucketRepository.Update, BucketRepository.GetByID. rewrite Hupd, Hq. proj_simpl.
  set (rewrite := fun row : Bucket.t =>
         if Bucket.ID row =? Bucket.ID bucket
         then {| Bucket.ID := Bucket.ID row; Bucket.Name := Bucket.Name bucket;
                 Bucket.UserID := Bucket.UserID row;
                 Bucket.Description := Bucket.Description bucket;
                 Bucket.IsPublic := Bucket.IsPublic bucket;
                 Bucket.CreatedAt := Bucket.CreatedAt row; Bucket.UpdatedAt := now e |}
         else row).
  assert (Hids : forall row, Bucket.ID (rewrite row) = Bucket.ID row)
    by (intros row; unfold rewrite; now destruct (Bucket.ID row =? Bucket.ID bucket)).
  assert (Hfind : forall id l,
            find (fun b => Bucket.ID b =? id) (map rewrite l)
            = option_map rewrite (find (fun b => Bucket.ID b =? id) l)).
  { intros id l. induction l as [|x l IH]; [reflexivity |].
    cbn [map find]. rewrite Hids. destruct (Bucket.ID x =? id); [reflexivity | exact IH]. }
  split; [reflexivity |]. split.
  { rewrite map_map. apply map_ext. exact Hids. }
  split; [reflexivity |]. split; [reflexivity |]. split; [| split].
  - intros id Hne. rewrite Hfind.
    destruct (find (fun b => Bucket.ID b =? id) (buckets w)) as [x|] eqn:Hx; [| reflexivity].
    apply find_some in Hx as (_ & Hx). apply Z.eqb_eq in Hx.
    cbn [option_map]. unfold rewrite. rewrite Hx.
    now rewrite (proj2 (Z.eqb_neq id (Bucket.ID bucket)) Hne).
  - intros row [= Hrow]. rewrite Hfind, Hrow. cbn [option_map].
    apply find_some in Hrow as (_ & Hrow). unfold rewrite. now rewrite Hrow.
  - intros [= Hnone].
    rewrite <- (map_id (buckets w)) at 2. apply map_ext_in.
    intros x Hx. pose proof (find_none _ _ Hnone x Hx) as Hno. cbn beta in Hno.
    unfold rewrite. now rewrite Hno.
Qed.

Lemma bucket_update_rewrites_one_row_witness :
  let renamed := Scenario.bucket 1 "archive" 7 true in
  let bf := fun _ : BucketFault => false in
  BucketRepository.GetByID (Scenario.calm 100)
    (snd (BucketRepository.Update bf (Scenario.calm 100) renamed Scenario.fresh)) 1
  = Ok (Some {| Bucket.ID := 1; Bucket.Name := "archive"; Bucket.UserID := 1;
                Bucket.Description := ""; Bucket.IsPublic := true;
                Bucket.CreatedAt := 1; Bucket.UpdatedAt := 100 |}).
Proof.
  intros renamed bf.
  destruct (bucket_update_rewrites_one_row bf (Scenario.calm 100) renamed Scenario.fresh
              eq_refl eq_refl)
    as (_ & _ & _ & _ & _ & Hrow & _).
  apply (Hrow Scenario.logs_bucket). reflexivity.
Defined.

(** ** Listing by a literal prefix *)


